(** * TalkAI authentication back end: a shallow embedding and its properties

    The development follows the JavaScript sources of the back end:
    - [services/otpService.js]        module [OTP];
    - [middleware/auth.js]            modules [RateLimit] and [Auth];
    - [services/jwtService.js]        module [JWT];
    - [models/User.js]                module [UserModel];
    - [services/emailService.js]      module [EmailService];
    - [controllers/authController.js] module [AuthController].
    The libraries [jsonwebtoken] and [bcryptjs] are described in the
    modules [Jsonwebtoken] and [Bcryptjs].

    Conventions.  [Date.now()] is a parameter [now : Z] (milliseconds) and
    every handler is served at one instant.  Random choices ([Math.random()],
    the salt of [bcrypt.genSalt], the identifier of a new document) are
    parameters.  Where the code computes with fractions, numbers are
    IEEE 754 binary64 values ([spec_float] at precision 53), rounded to
    nearest with ties to even; integers that stay below 2^53 are in [Z].  A JavaScript [Map] keyed by strings is a [gmap string _];
    an object fetched from a [Map] and mutated in place is written back to
    the map at the point of the mutation.  The [users] collection is the
    list of its documents; handlers take the collection and return the
    HTTP response next to the new collection.  A rejected promise or a
    thrown error is a [Throw] result, caught where the source has its
    [catch]. *)

From Stdlib Require Import ZArith Lia Ascii SpecFloat.
From stdpp Require Import base option list strings gmap.

Local Open Scope Z_scope.

(** ** JavaScript helpers *)
Module Js.

(** Truthiness of a string-valued expression that may be [undefined]:
    [!s] holds for [undefined] and for the empty string. *)
Definition falsy (s : option string) : bool :=
  match s with
  | None => true
  | Some s => bool_decide (s = "")
  end.

Definition digit_char (d : Z) : Ascii.ascii :=
  Ascii.ascii_of_nat (48 + Z.to_nat d).

(** Decimal digits of a non-negative integer, most significant first. *)
Fixpoint digits_go (fuel : nat) (n : Z) (acc : string) : string :=
  match fuel with
  | O => acc
  | S fuel' =>
      let acc' := String (digit_char (n mod 10)) acc in
      if n / 10 =? 0 then acc' else digits_go fuel' (n / 10) acc'
  end.

(** [Number.prototype.toString] on an integer-valued number. *)
Definition toString (n : Z) : string :=
  if n <? 0 then String "-"%char (digits_go (S (Z.to_nat (Z.log2 (- n)))) (- n) "")
  else digits_go (S (Z.to_nat (Z.log2 n))) n "".

Definition lower_ascii (c : Ascii.ascii) : Ascii.ascii :=
  let n := Ascii.nat_of_ascii c in
  if ((65 <=? n) && (n <=? 90))%nat then Ascii.ascii_of_nat (n + 32) else c.

(** [String.prototype.toLowerCase], on the ASCII range. *)
Fixpoint toLowerCase (s : string) : string :=
  match s with
  | EmptyString => EmptyString
  | String c s' => String (lower_ascii c) (toLowerCase s')
  end.

(** A value that may be [undefined] or [null]. *)
Inductive Nullable (A : Type) : Type :=
| Undefined
| Null
| Val (a : A).
Arguments Undefined {A}.
Arguments Null {A}.
Arguments Val {A} a.

#[global] Instance Nullable_eq_dec `{EqDecision A} : EqDecision (Nullable A).
Proof. solve_decision. Defined.

(** The outcome of a call that may throw (or of a promise that may
    reject): the value, or the message of the error. *)
Inductive Result (A : Type) : Type :=
| Ok (a : A)
| Throw (msg : string).
Arguments Ok {A} a.
Arguments Throw {A} msg.

End Js.

(** ** The [jsonwebtoken] library

    The library is not part of the repository.  Its tokens are modelled
    symbolically: a token string is either text that does not parse as a
    signed token, or the serialisation of a set of claims signed under a
    key.  Two tokens are the same string exactly when they are equal
    here. *)
Module Jsonwebtoken.

Definition ObjectId := N.

(** The payload objects the service signs: [generateToken] fills
    [email], [isVerified] and [googleId]; [generateShortToken] and
    [generateRefreshToken] fill [type]. *)
Record Payload := mkPayload {
  userId : ObjectId;
  email : option string;
  isVerified : option bool;
  googleId : option string;
  type : option string
}.

Record Claims := mkClaims {
  payload : Payload;
  iat : Z;
  exp : Z;
  iss : string;
  aud : string
}.

Inductive Token :=
| Malformed (raw : string)
| Jws (key : string) (claims : Claims).

#[global] Instance Payload_eq_dec : EqDecision Payload.
Proof. solve_decision. Defined.
#[global] Instance Claims_eq_dec : EqDecision Claims.
Proof. solve_decision. Defined.
#[global] Instance Token_eq_dec : EqDecision Token.
Proof. solve_decision. Defined.

(** [!token] for a token-valued expression that may be [undefined]. *)
Definition falsy_token (token : option Token) : bool :=
  match token with
  | None => true
  | Some (Malformed raw) => bool_decide (raw = "")
  | Some (Jws _ _) => false
  end.

(** [jwt.sign(payload, secret, { expiresIn, issuer, audience })], with
    [expiresIn] in seconds and the clock in milliseconds. *)
Definition sign (payload : Payload) (secret : string)
    (expiresIn : Z) (issuer audience : string) (now : Z) : Token :=
  let iat := now / 1000 in
  Jws secret (mkClaims payload iat (iat + expiresIn) issuer audience).

(** The number of parts of [s.split('.')]. *)
Fixpoint parts (s : string) : nat :=
  match s with
  | EmptyString => 1
  | String c s' => if Ascii.eqb c "."%char then S (parts s') else parts s'
  end.

(** The message of [jwt.verify] for text that does not decode as a
    token: no text at all, text that is not made of three parts, and
    three parts that do not decode. *)
Definition malformed_message (raw : string) : string :=
  if bool_decide (raw = "") then "jwt must be provided"
  else if negb (parts raw =? 3)%nat then "jwt malformed"
  else "invalid token".

(** [jwt.verify(token, secret, { issuer, audience })]: the decoded claims,
    or the message of the error it throws. *)
Definition verify (token : Token) (secret : string)
    (issuer audience : string) (now : Z) : Js.Result Claims :=
  match token with
  | Malformed raw => Js.Throw (malformed_message raw)
  | Jws key claims =>
      if negb (bool_decide (key = secret)) then Js.Throw "invalid signature"
      else if now / 1000 >=? exp claims then Js.Throw "jwt expired"
      else if negb (bool_decide (aud claims = audience))
      then Js.Throw ("jwt audience invalid. expected: " +:+ audience)
      else if negb (bool_decide (iss claims = issuer))
      then Js.Throw ("jwt issuer invalid. expected: " +:+ issuer)
      else Js.Ok claims
  end.

(** The time spans the service passes as [expiresIn], in seconds. *)
Definition span_7d : Z := 7 * 24 * 60 * 60.
Definition span_1h : Z := 60 * 60.
Definition span_30d : Z := 30 * 24 * 60 * 60.

End Jsonwebtoken.

(** ** The [bcryptjs] library

    The library is not part of the repository; only the argument check at
    the head of [bcrypt.compare] is written out.  The comparison proper is
    the parameter [core]. *)
Module Bcryptjs.

(** [bcrypt.compare(s, hash)] as a promise: it rejects when [hash] is not
    a string, resolves to [false] when [hash] does not have 60 characters,
    and otherwise hashes [s] with the salt that [hash] begins with and
    compares; [core] is that last step, which rejects when [hash] does
    not begin with a salt of the library. *)
Definition compare (core : string → string → string + bool)
    (s : string) (hash : option string) : string + bool :=
  match hash with
  | None => inl "Illegal arguments: string, undefined"
  | Some h =>
      if negb (bool_decide (String.length h = 60%nat)) then inr false
      else core s h
  end.

End Bcryptjs.

(** ** models/User.js *)
Module UserModel.
Export Js.
Import Jsonwebtoken.

Record Profile := mkProfile {
  name : option string;
  picture : option string
}.

Record User := mkUser {
  _id : ObjectId;
  email : string;
  password : option string;
  googleId : option string;
  isVerified : bool;
  verificationToken : option string;
  resetPasswordToken : option Token;
  resetPasswordExpires : Nullable Z;
  profile : Profile;
  lastLogin : Z;
  createdAt : Z;
  updatedAt : Z
}.

#[global] Instance Profile_eq_dec : EqDecision Profile.
Proof. solve_decision. Defined.
#[global] Instance User_eq_dec : EqDecision User.
Proof. solve_decision. Defined.

(** Field assignments [user.f = v]. *)
Definition set_password (v : option string) (u : User) : User :=
  mkUser (_id u) (email u) v (googleId u) (isVerified u)
    (verificationToken u) (resetPasswordToken u) (resetPasswordExpires u)
    (profile u) (lastLogin u) (createdAt u) (updatedAt u).
Definition set_googleId (v : option string) (u : User) : User :=
  mkUser (_id u) (email u) (password u) v (isVerified u)
    (verificationToken u) (resetPasswordToken u) (resetPasswordExpires u)
    (profile u) (lastLogin u) (createdAt u) (updatedAt u).
Definition set_isVerified (v : bool) (u : User) : User :=
  mkUser (_id u) (email u) (password u) (googleId u) v
    (verificationToken u) (resetPasswordToken u) (resetPasswordExpires u)
    (profile u) (lastLogin u) (createdAt u) (updatedAt u).
Definition set_resetPasswordToken (v : option Token) (u : User) : User :=
  mkUser (_id u) (email u) (password u) (googleId u) (isVerified u)
    (verificationToken u) v (resetPasswordExpires u)
    (profile u) (lastLogin u) (createdAt u) (updatedAt u).
Definition set_resetPasswordExpires (v : Nullable Z) (u : User) : User :=
  mkUser (_id u) (email u) (password u) (googleId u) (isVerified u)
    (verificationToken u) (resetPasswordToken u) v
    (profile u) (lastLogin u) (createdAt u) (updatedAt u).
Definition set_lastLogin (v : Z) (u : User) : User :=
  mkUser (_id u) (email u) (password u) (googleId u) (isVerified u)
    (verificationToken u) (resetPasswordToken u) (resetPasswordExpires u)
    (profile u) v (createdAt u) (updatedAt u).
Definition set_updatedAt (v : Z) (u : User) : User :=
  mkUser (_id u) (email u) (password u) (googleId u) (isVerified u)
    (verificationToken u) (resetPasswordToken u) (resetPasswordExpires u)
    (profile u) (lastLogin u) (createdAt u) v.

(** The [users] collection, in insertion order. *)
Abbreviation Collection := (list User).

(** The projection returned by [getPublicProfile]: the document without
    [password], [verificationToken], [resetPasswordToken] and
    [resetPasswordExpires]. *)
Record PublicProfile := mkPublicProfile {
  pub_id : ObjectId;
  pub_email : string;
  pub_googleId : option string;
  pub_isVerified : bool;
  pub_profile : Profile;
  pub_lastLogin : Z;
  pub_createdAt : Z;
  pub_updatedAt : Z
}.

Definition getPublicProfile (u : User) : PublicProfile :=
  mkPublicProfile (_id u) (email u) (googleId u) (isVerified u) (profile u)
    (lastLogin u) (createdAt u) (updatedAt u).

Definition is_space (c : Ascii.ascii) : bool :=
  let n := Ascii.nat_of_ascii c in
  bool_decide (n = 32%nat) || ((9 <=? n) && (n <=? 13))%nat.

Fixpoint trimStart (s : string) : string :=
  match s with
  | String c s' => if is_space c then trimStart s' else s
  | EmptyString => EmptyString
  end.

Fixpoint trimEnd (s : string) : string :=
  match s with
  | EmptyString => EmptyString
  | String c s' =>
      match trimEnd s' with
      | EmptyString => if is_space c then EmptyString else String c EmptyString
      | t => String c t
      end
  end.

(** The setter of a path with [trim: true]. *)
Definition trim (s : string) : string := trimEnd (trimStart s).

(** The setters of the [email] path: [lowercase: true, trim: true]. *)
Definition email_setters (s : string) : string :=
  trimEnd (trimStart (toLowerCase s)).

Definition findOne (p : User → bool) (db : Collection) : option User :=
  List.find p db.

(** [findByEmail]: the filter [{ email: email.toLowerCase() }] is cast by
    the schema, which applies the setters of the path to the value. *)
Definition findByEmail (email_ : string) (db : Collection) : option User :=
  findOne (λ u, bool_decide (email u = email_setters (toLowerCase email_))) db.

Definition findByGoogleId (googleId_ : string) (db : Collection) : option User :=
  findOne (λ u, bool_decide (googleId u = Some googleId_)) db.

Definition findById (id : ObjectId) (db : Collection) : option User :=
  findOne (λ u, bool_decide (_id u = id)) db.

(** The profile handed over by the identity provider.  An absent
    [emails] or [photos] array is the empty list: the code treats both
    alike ([emails && emails.length > 0]). *)
Record GoogleProfile := mkGoogleProfile {
  id : string;
  emails : list string;
  displayName : option string;
  photos : list string
}.

Section Persistence.
(** [bcrypt.hash(plain, salt)] of the [bcryptjs] library. *)
Variable bcrypt_hash : string → string → string.
(** [bcrypt.compare(candidate, hash)]: the promise resolves to a
    boolean ([inr]) or rejects with a message ([inl]). *)
Variable bcrypt_compare : string → option string → string + bool.
(** The [match] validator of the [email] path, i.e. the test of the
    regular expression of the schema. *)
Variable email_match : string → bool.

(** [this.isModified('password')]: for a new document the path is
    modified when it was given a value; for a loaded one when the value
    differs from the loaded value. *)
Definition isModified_password (orig : option User) (u : User) : bool :=
  match orig with
  | None => bool_decide (password u ≠ None)
  | Some o => bool_decide (password u ≠ password o)
  end.

(** Schema validation, run before the [pre('save')] hook: [password] is
    required unless [googleId] is set, and a modified password has at
    least 6 characters. *)
Definition validate (orig : option User) (u : User) : Result unit :=
  if falsy (googleId u) && falsy (password u)
  then Throw "User validation failed: password: Path `password` is required."
  else if isModified_password orig u
          && match password u with
             | Some p => (String.length p <? 6)%nat
             | None => false
             end
  then Throw "User validation failed: password: Password must be at least 6 characters long"
  else Ok ().

(** [userSchema.pre('save', ...)]: hash the password when it was
    modified. *)
Definition preSave (orig : option User) (salt : string) (u : User) : Result User :=
  if negb (isModified_password orig u) then Ok u
  else match password u with
       | Some p => Ok (set_password (Some (bcrypt_hash p salt)) u)
       | None => Throw "Illegal arguments: undefined, string"
       end.

(** [b] carries the Google identifier of [a] (a collision on the
    unique index of [googleId]). *)
Definition same_googleId (a b : User) : bool :=
  match googleId a with
  | Some g => bool_decide (googleId b = Some g)
  | None => false
  end.

Definition replaceOne (u : User) (db : Collection) : Collection :=
  map (λ x, if bool_decide (_id x = _id u) then u else x) db.

(** [await user.save()] on a document loaded from the collection
    ([orig] is the document as loaded). *)
Definition save (orig u : User) (salt : string) (now : Z) (db : Collection)
  : Result User * Collection :=
  match validate (Some orig) u with
  | Throw e => (Throw e, db)
  | Ok _ =>
      match preSave (Some orig) salt u with
      | Throw e => (Throw e, db)
      | Ok u1 =>
          let u2 := if bool_decide (u = orig) then u1 else set_updatedAt now u1 in
          if (negb (bool_decide (googleId u2 = googleId orig))
              && existsb (λ x, negb (bool_decide (_id x = _id u2)) && same_googleId u2 x) db)
             || (negb (bool_decide (email u2 = email orig))
              && existsb (λ x, negb (bool_decide (_id x = _id u2))
                               && bool_decide (email x = email u2)) db)
          then (Throw "E11000 duplicate key error", db)
          else (Ok u2, replaceOne u2 db)
      end
  end.

(** The document a save stores when the hook leaves the password
    alone: [updatedAt] is renewed when the document was modified. *)
Definition stamped (orig u : User) (now : Z) : User :=
  if bool_decide (u = orig) then u else set_updatedAt now u.

(** The password a successful save stores. *)
Definition stored_password (orig u : User) (salt : string) : option string :=
  if isModified_password (Some orig) u
  then (λ p, bcrypt_hash p salt) <$> password u
  else password u.

(** [user = new this({...}); await user.save()] for a new document with
    identifier [oid]; [email_] is the value given for the [email] path
    ([None] for [null]). *)
Definition create (oid : ObjectId) (email_ : option string)
    (password_ : option string) (googleId_ : option string)
    (isVerified_ : bool) (profile_ : Profile)
    (salt : string) (now : Z) (db : Collection)
  : Result User * Collection :=
  match email_ with
  | None => (Throw "User validation failed: email: Path `email` is required.", db)
  | Some e =>
      let e' := email_setters e in
      if bool_decide (e' = "")
      then (Throw "User validation failed: email: Path `email` is required.", db)
      else if negb (email_match e')
      then (Throw "User validation failed: email: Please enter a valid email", db)
      else
        let u := mkUser oid e' password_ googleId_ isVerified_ None None
                   Undefined profile_ now now now in
        match validate None u with
        | Throw e => (Throw e, db)
        | Ok _ =>
            match preSave None salt u with
            | Throw e => (Throw e, db)
            | Ok u1 =>
                if existsb (λ x, bool_decide (_id x = _id u1)
                                 || bool_decide (email x = email u1)
                                 || same_googleId u1 x) db
                then (Throw "E11000 duplicate key error", db)
                else (Ok u1, db ++ [u1])
            end
        end
  end.

(** [userSchema.methods.comparePassword] *)
Definition comparePassword (this : User) (candidatePassword : string)
  : Result bool :=
  match bcrypt_compare candidatePassword (password this) with
  | inr b => Ok b
  | inl _ => Throw "Password comparison failed"
  end.

(** [userSchema.statics.findOrCreateGoogleUser]; [oid] is the
    identifier a new document would get. *)
Definition findOrCreateGoogleUser (googleProfile : GoogleProfile)
    (oid : ObjectId) (salt : string) (now : Z) (db : Collection)
  : Result User * Collection :=
  match findByGoogleId (id googleProfile) db with
  | Some user =>
      (* Update last login *)
      save user (set_lastLogin now user) salt now db
  | None =>
      let byEmail :=
        match emails googleProfile with
        | e :: _ => findByEmail e db
        | [] => None
        end in
      match byEmail with
      | Some user =>
          (* Link Google account to existing email account *)
          save user
            (set_lastLogin now
               (set_isVerified true
                  (set_googleId (Some (id googleProfile)) user)))
            salt now db
      | None =>
          (* Create new user *)
          create oid (head (emails googleProfile)) None
            (Some (id googleProfile)) true
            (mkProfile (trim <$> displayName googleProfile)
               (head (photos googleProfile)))
            salt now db
      end
  end.

End Persistence.

End UserModel.

(** ** services/jwtService.js *)
Module JWT.
Import Js Jsonwebtoken.

Record Verification := mkVerification {
  valid : bool;
  payload : option Claims;
  error : option string
}.

(** The value of the [Authorization] header: plain text, or the text
    ["Bearer "] followed by the serialisation of a signed token. *)
Inductive AuthHeader :=
| HeaderText (text : string)
| Bearer (token : Token).

Section Service.
(** [this.secret = process.env.JWT_SECRET] *)
Variable secret : string.

Definition generateToken (user : UserModel.User) (now : Z) : Token :=
  let payload :=
    mkPayload (UserModel._id user) (Some (UserModel.email user))
      (Some (UserModel.isVerified user))
      (* user.googleId || null *)
      (if falsy (UserModel.googleId user) then None else UserModel.googleId user)
      None in
  sign payload secret span_7d "talkai-backend" "talkai-users" now.

Definition verifyToken (token : Token) (now : Z) : Verification :=
  match verify token secret "talkai-backend" "talkai-users" now with
  | Ok decoded => mkVerification true (Some decoded) None
  | Throw msg => mkVerification false None (Some msg)
  end.

Definition extractTokenFromHeader (authHeader : option AuthHeader) : option Token :=
  match authHeader with
  | None => None
  | Some (HeaderText text) =>
      if bool_decide (text = "") || negb (String.prefix "Bearer " text)
      then None
      else (* Remove 'Bearer ' prefix *)
        Some (Malformed (String.substring 7 (String.length text - 7) text))
  | Some (Bearer token) => Some token
  end.

Definition generateRefreshToken (user : UserModel.User) (now : Z) : Token :=
  let payload := mkPayload (UserModel._id user) None None None (Some "refresh") in
  sign payload secret span_30d "talkai-backend" "talkai-users" now.

Definition generateShortToken (payload : Payload) (expiresIn : Z) (now : Z) : Token :=
  sign payload secret expiresIn "talkai-backend" "talkai-users" now.

End Service.

End JWT.

(** ** JavaScript numbers *)
Module Number.

(** A number is a binary64 value: 53 bits of precision, exponents of
    finite values below 1024. *)
Definition prec : Z := 53.
Definition emax : Z := 1024.

(** [x * y] and [x + y] *)
Definition mul (x y : spec_float) : spec_float := SFmul prec emax x y.
Definition add (x y : spec_float) : spec_float := SFadd prec emax x y.

(** The number denoted by an integer literal. *)
Definition of_Z (n : Z) : spec_float := binary_normalize prec emax n 0 false.

(** What [Math.random()] returns: a number with positive sign, at least
    0 and less than 1. *)
Definition unit_interval (x : spec_float) : bool :=
  match x with
  | S754_zero s => negb s
  | S754_finite s m e =>
      negb s && bounded prec emax m e && (Z.pos (digits2_pos m) + e <=? 0)
  | _ => false
  end.

Record Random := mkRandom {
  value : spec_float;
  value_unit : unit_interval value = true
}.

(** The least and the greatest value of [Math.random()]: 0 and
    1 - 2^-53. *)
Definition least : Random := mkRandom (S754_zero false) eq_refl.
Definition greatest : Random :=
  mkRandom (S754_finite false 9007199254740991 (-53)) eq_refl.

(** [Math.floor(x).toString()]: the integer is written with its decimal
    digits, the form of every integer below 10^21. *)
Definition floor_toString (x : spec_float) : string :=
  match x with
  | S754_nan => "NaN"
  | S754_infinity s => if s then "-Infinity" else "Infinity"
  | S754_zero _ => "0"
  | S754_finite s m e => Js.toString (Z.shiftl (cond_Zopp s (Z.pos m)) e)
  end.

End Number.

(** ** Notions used to state how binary64 arithmetic rounds *)
Module Rounding.
Import Number.

(** [q] is an integer nearest to [M / 2 ^ n]. *)
Definition nearest (M n q : Z) : Prop :=
  2 * M - 2 ^ n <= 2 * q * 2 ^ n <= 2 * M + 2 ^ n.

(** The second pass of [binary_round_aux], which makes room for a carry
    of the rounding. *)
Definition finish (q u : Z) : spec_float :=
  let '(mrs, e) := shr_fexp prec emax q u loc_Exact in
  match shr_m mrs with
  | Z0 => S754_zero false
  | Zpos m => if e <=? emax - prec then S754_finite false m e else S754_infinity false
  | Zneg _ => S754_nan
  end.

(** Values are compared as integers, scaled by a power of 2 below which
    no exponent of a binary64 computation of this development falls. *)
Definition bias : Z := 1200.
Definition scaled (m e : Z) : Z := m * 2 ^ (e + bias).

(** A number that is [+0] or positive and at most [b * 2 ^ k]. *)
Definition below (x : spec_float) (b k : Z) : Prop :=
  match x with
  | S754_zero false => True
  | S754_finite false m e => - bias <= e ∧ scaled (Z.pos m) e <= scaled b k
  | _ => False
  end.

End Rounding.

(** ** services/otpService.js *)
Module OTP.

Record Challenge := mkChallenge {
  otp : string;
  expiresAt : Z;
  attempts : Z
}.

(** [this.otpStore = new Map()] *)
Abbreviation Store := (gmap string Challenge).

Record Verdict := mkVerdict {
  valid : bool;
  message : string
}.

Definition NotFound  := mkVerdict false "OTP not found or expired".
Definition Expired   := mkVerdict false "OTP has expired".
Definition Exhausted := mkVerdict false "Too many failed attempts. Please request a new OTP.".
Definition Verified  := mkVerdict true "OTP verified successfully".
Definition Mismatch  := mkVerdict false "Invalid OTP".

(** [generateOTP]: [random] is the value returned by [Math.random()];
    the product and the sum are rounded as the numbers of the code
    are. *)
Definition generateOTP (random : Number.Random) : string :=
  Number.floor_toString
    (Number.add (Number.of_Z 100000)
       (Number.mul (Number.value random) (Number.of_Z 900000))).

Definition storeOTP (email otp : string) (now : Z) (st : Store) : Store :=
  let expirationTime := now + 10 * 60 * 1000 in
  <[email := mkChallenge otp expirationTime 0]> st.

Definition verifyOTP (email otp_ : string) (now : Z) (st : Store)
  : Verdict * Store :=
  match st !! email with
  | None => (NotFound, st)
  | Some storedData =>
      if now >? expiresAt storedData then (Expired, delete email st)
      else if attempts storedData >=? 3 then (Exhausted, delete email st)
      else
        (* storedData.attempts++ mutates the object held by the map *)
        let storedData' :=
          mkChallenge (otp storedData) (expiresAt storedData)
                      (attempts storedData + 1) in
        let st' := <[email := storedData']> st in
        if bool_decide (otp storedData' = otp_)
        then (Verified, delete email st')
        else (Mismatch, st')
  end.

Definition hasOTP (email : string) (now : Z) (st : Store) : bool * Store :=
  match st !! email with
  | None => (false, st)
  | Some storedData =>
      if now >? expiresAt storedData then (false, delete email st)
      else (true, st)
  end.

Definition removeOTP (email : string) (st : Store) : Store :=
  delete email st.

Definition getRemainingTime (email : string) (now : Z) (st : Store) : Z :=
  match st !! email with
  | None => 0
  | Some storedData => Z.max 0 ((expiresAt storedData - now) / 1000)
  end.

(** Strings of six decimal digits that do not begin with 0. *)
Definition six_digits (s : string) : Prop :=
  ∃ d1 d2 d3 d4 d5 d6 : Z,
    1 <= d1 <= 9 ∧ 0 <= d2 <= 9 ∧ 0 <= d3 <= 9 ∧
    0 <= d4 <= 9 ∧ 0 <= d5 <= 9 ∧ 0 <= d6 <= 9 ∧
    s = String (Js.digit_char d1) (String (Js.digit_char d2)
          (String (Js.digit_char d3) (String (Js.digit_char d4)
             (String (Js.digit_char d5)
                (String (Js.digit_char d6) EmptyString))))).

(** Attempt counters start at 0 and are only incremented. *)
Definition wf (st : Store) : Prop :=
  ∀ email c, st !! email = Some c → 0 <= attempts c.

End OTP.

(** ** HTTP responses ([res.status(code).json(body)]) *)
Module Http.

Record AuthData := mkAuthData {
  user : UserModel.PublicProfile;
  token : Jsonwebtoken.Token
}.

Record Response := mkResponse {
  status : Z;
  success : bool;
  message : option string;
  error : option string;
  data : option AuthData
}.

(** [res.status(code).json({ success: false, error })] *)
Definition failure (code : Z) (err : string) : Response :=
  mkResponse code false None (Some err) None.

(** [res.json({ success: true, message })]: the status defaults to 200. *)
Definition ok (msg : string) : Response :=
  mkResponse 200 true (Some msg) None None.

Definition ok_with (msg : string) (d : AuthData) : Response :=
  mkResponse 200 true (Some msg) None (Some d).

(** What a middleware does: answer the request, or call [next()] after
    attaching values to the request. *)
Inductive Outcome (A : Type) : Type :=
| Respond (r : Response)
| Next (a : A).
Arguments Respond {A} r.
Arguments Next {A} a.

End Http.

(** ** middleware/auth.js: [rateLimitOTP] *)
Module RateLimit.
Import Http.

Record ClientData := mkClientData {
  count : Z;
  resetTime : Z
}.

(** [global.otpRateLimit], created empty on first use. *)
Abbreviation Store := (gmap string ClientData).

Definition tooMany : Response :=
  failure 429 "Too many OTP requests. Please wait before requesting another OTP.".

Definition rateLimitOTP (clientIP : string) (now : Z) (st : Store)
  : Outcome unit * Store :=
  let stored := st !! clientIP in
  let clientData := default (mkClientData 0 (now + 60 * 1000)) stored in
  (* Reset counter if 1 minute has passed *)
  let clientData :=
    if now >? resetTime clientData
    then mkClientData 0 (now + 60 * 1000)
    else clientData in
  (* the object reset above is the one held by the map when there is one *)
  let st :=
    match stored with
    | Some _ => <[clientIP := clientData]> st
    | None => st
    end in
  (* Check if limit exceeded (3 requests per minute) *)
  if count clientData >=? 3
  then (Respond tooMany, st)
  else
    (* Increment counter *)
    let clientData := mkClientData (count clientData + 1) (resetTime clientData) in
    (Next (), <[clientIP := clientData]> st).

Definition allowed (o : Outcome unit) : bool :=
  match o with
  | Next _ => true
  | Respond _ => false
  end.

(** A run of requests from one client, at the given instants. *)
Fixpoint serve (clientIP : string) (times : list Z) (st : Store)
  : list bool * Store :=
  match times with
  | [] => ([], st)
  | now :: rest =>
      let '(o, st1) := rateLimitOTP clientIP now st in
      let '(os, st2) := serve clientIP rest st1 in
      (allowed o :: os, st2)
  end.

(** The counters stay between 0 and the limit. *)
Definition wf (st : Store) : Prop :=
  ∀ ip d, st !! ip = Some d → 0 <= count d <= 3.

(** A request opens a window at [now] when the client has no entry or
    the reset time of its entry has passed. *)
Definition opens_window (ip : string) (now : Z) (st : Store) : Prop :=
  match st !! ip with
  | None => True
  | Some d => resetTime d < now
  end.

End RateLimit.

(** ** middleware/auth.js: [authenticateToken] *)
Module Auth.
Import Js Jsonwebtoken UserModel Http.

Section Middleware.
Variable secret : string.

(** On [next()] the request carries [req.user] and [req.token]. *)
Definition authenticateToken (authorization : option JWT.AuthHeader)
    (now : Z) (db : Collection) : Outcome (User * Token) :=
  match JWT.extractTokenFromHeader authorization with
  | None => Respond (failure 401 "Access token required")
  | Some token =>
      if falsy_token (Some token)
      then Respond (failure 401 "Access token required")
      else
        let verification := JWT.verifyToken secret token now in
        if negb (JWT.valid verification)
        then Respond (failure 401 "Invalid or expired token")
        else
          match JWT.payload verification with
          | None => Respond (failure 500 "Authentication failed")
          | Some decoded =>
              match findById (userId (payload decoded)) db with
              | None => Respond (failure 401 "User not found")
              | Some user =>
                  if negb (isVerified user)
                  then Respond (failure 403
                         "Email not verified. Please verify your email address.")
                  else Next (user, token)
              end
          end
  end.

End Middleware.

End Auth.

(** ** services/emailService.js *)
Module EmailService.
Import Js Jsonwebtoken.

Section Transport.
(** [this.isInitialized] *)
Variable isInitialized : bool.
(** [this.transporter.sendMail(mailOptions)], by recipient: the promise
    resolves or rejects. *)
Variable sendMail : string → Result unit.

Definition sendPasswordResetEmail (email : string) (resetToken : Token)
  : Result unit :=
  if negb isInitialized then Throw "Email service not initialized"
  else sendMail email.

End Transport.

End EmailService.

(** ** controllers/authController.js *)
Module AuthController.
Import Js Jsonwebtoken UserModel Http.

(** [date < new Date()] for a stored date that may be [undefined]
    (compared as [NaN]) or [null] (compared as 0). *)
Definition before (d : Nullable Z) (now : Z) : bool :=
  match d with
  | Undefined => false
  | Null => 0 <? now
  | Val t => t <? now
  end.

Section Controller.
Variable secret : string.
Variable bcrypt_hash : string → string → string.
Variable bcrypt_compare : string → option string → string + bool.
Variable mailer_initialized : bool.
Variable sendMail : string → Result unit.

Definition signin (email_ password_ : option string)
    (salt : string) (now : Z) (db : Collection) : Response * Collection :=
  match email_, password_ with
  | Some email_, Some password_ =>
      if falsy (Some email_) || falsy (Some password_)
      then (failure 400 "Email and password are required", db)
      else
        (* Find user by email *)
        match findByEmail email_ db with
        | None => (failure 401 "Invalid email or password", db)
        | Some user =>
            (* Check if user has password (not Google OAuth only) *)
            if falsy (password user)
            then (failure 401
                    "This account uses Google OAuth. Please sign in with Google.", db)
            else
              (* Verify password *)
              match comparePassword bcrypt_compare user password_ with
              | Throw _ => (failure 500 "Sign in failed", db)
              | Ok false => (failure 401 "Invalid email or password", db)
              | Ok true =>
                  (* Check if user is verified *)
                  if negb (isVerified user)
                  then (failure 403
                          "Email not verified. Please verify your email address.", db)
                  else
                    (* Update last login *)
                    match save bcrypt_hash user (set_lastLogin now user) salt now db with
                    | (Throw _, db') => (failure 500 "Sign in failed", db')
                    | (Ok user', db') =>
                        (* Generate JWT token *)
                        let token := JWT.generateToken secret user' now in
                        (ok_with "Sign in successful"
                           (mkAuthData (getPublicProfile user') token), db')
                    end
              end
        end
  | _, _ => (failure 400 "Email and password are required", db)
  end.

Definition generic_reset_message : string :=
  "If the email exists, a password reset link has been sent".

Definition requestPasswordReset (email_ : option string)
    (salt : string) (now : Z) (db : Collection) : Response * Collection :=
  match email_ with
  | None => (failure 400 "Email is required", db)
  | Some email_ =>
      if falsy (Some email_) then (failure 400 "Email is required", db)
      else
        (* Find user *)
        match findByEmail email_ db with
        | None =>
            (* Don't reveal if user exists or not *)
            (ok generic_reset_message, db)
        | Some user =>
            (* Check if user has password (not Google OAuth only) *)
            if falsy (password user) then (ok generic_reset_message, db)
            else
              (* Generate reset token *)
              let resetToken :=
                JWT.generateShortToken secret
                  (mkPayload (_id user) None None None (Some "password-reset"))
                  span_1h now in
              (* Save reset token to user *)
              let user1 :=
                set_resetPasswordExpires (Val (now + 60 * 60 * 1000))
                  (set_resetPasswordToken (Some resetToken) user) in
              match save bcrypt_hash user user1 salt now db with
              | (Throw _, db') =>
                  (failure 500 "Failed to request password reset", db')
              | (Ok _, db') =>
                  (* Send reset email *)
                  match EmailService.sendPasswordResetEmail
                          mailer_initialized sendMail email_ resetToken with
                  | Throw _ =>
                      (failure 500 "Failed to request password reset", db')
                  | Ok _ => (ok generic_reset_message, db')
                  end
              end
        end
  end.

Definition resetPassword (token_ : option Token) (newPassword : option string)
    (salt : string) (now : Z) (db : Collection) : Response * Collection :=
  match token_, newPassword with
  | Some token, Some newPassword =>
      if falsy_token (Some token) || falsy (Some newPassword)
      then (failure 400 "Token and new password are required", db)
      else if (String.length newPassword <? 6)%nat
      then (failure 400 "New password must be at least 6 characters long", db)
      else
        (* Verify token *)
        let verification := JWT.verifyToken secret token now in
        match JWT.valid verification, JWT.payload verification with
        | true, Some decoded =>
            if negb (bool_decide (type (payload decoded) = Some "password-reset"))
            then (failure 400 "Invalid or expired reset token", db)
            else
              (* Find user *)
              match findById (userId (payload decoded)) db with
              | None => (failure 400 "Invalid or expired reset token", db)
              | Some user =>
                  if negb (bool_decide (resetPasswordToken user = Some token))
                  then (failure 400 "Invalid or expired reset token", db)
                  (* Check if token has expired *)
                  else if before (resetPasswordExpires user) now
                  then (failure 400 "Reset token has expired", db)
                  else
                    (* Update password and clear reset token *)
                    let user1 :=
                      set_resetPasswordExpires Null
                        (set_resetPasswordToken None
                           (set_password (Some newPassword) user)) in
                    match save bcrypt_hash user user1 salt now db with
                    | (Throw _, db') => (failure 500 "Failed to reset password", db')
                    | (Ok _, db') => (ok "Password reset successfully", db')
                    end
              end
        | true, None => (failure 500 "Failed to reset password", db)
        | false, _ => (failure 400 "Invalid or expired reset token", db)
        end
  | _, _ => (failure 400 "Token and new password are required", db)
  end.

End Controller.

End AuthController.

(** ** Sample data for the examples *)
Module Samples.
Import Js Jsonwebtoken UserModel.

Definition secret : string := "test-secret".

(** The value 1/2 of [Math.random()]. *)
Definition half : Number.Random :=
  Number.mkRandom (S754_finite false 4503599627370496 (-53)) eq_refl.

(** A stand-in for [bcrypt.hash] in the examples. *)
Definition toy_hash (plain salt : string) : string := salt +:+ plain.

(** A stand-in for the comparison proper of [bcrypt.compare]. *)
Definition toy_core (plain hash : string) : string + bool :=
  if String.prefix "$2" hash then inr false
  else inl "Invalid salt version".

(** An account with a password. *)
Definition alice : User :=
  mkUser 1%N "alice@x.com" (Some "$2a$12$alice") None true None None Undefined
    (mkProfile (Some "Alice") None) 0 0 0.

(** An account that has a Google identifier and no password. *)
Definition bob : User :=
  mkUser 2%N "bob@x.com" None (Some "g-bob") true None None Undefined
    (mkProfile (Some "Bob") None) 0 0 0.

Definition users : Collection := [alice; bob].

Definition mail_ok (recipient : string) : Result unit := Ok ().

(** A mail transport whose server cannot be reached. *)
Definition mail_down (recipient : string) : Result unit :=
  Throw "connect ECONNREFUSED".

(** The token [requestPasswordReset] issues for [alice] at instant [t0]. *)
Definition reset_token (t0 : Z) : Token :=
  JWT.generateShortToken secret
    (mkPayload 1%N None None None (Some "password-reset")) span_1h t0.

Definition alice_google : GoogleProfile :=
  mkGoogleProfile "g-alice" ["Alice@X.com"] (Some "Alice A.") [].

(** A challenge issued at instant 0 and the stores after one, two and
    three wrong attempts. *)
Definition issued : OTP.Store := OTP.storeOTP "a@b.com" "123456" 0 ∅.
Definition after1 : OTP.Store := (OTP.verifyOTP "a@b.com" "000000" 1000 issued).2.
Definition after2 : OTP.Store := (OTP.verifyOTP "a@b.com" "000000" 2000 after1).2.
Definition after3 : OTP.Store := (OTP.verifyOTP "a@b.com" "000000" 3000 after2).2.

(** The collection after [alice] asked for a password reset at 5000. *)
Definition requested : Collection :=
  (AuthController.requestPasswordReset secret toy_hash true mail_ok
     (Some "alice@x.com") "salt" 5000 users).2.

(** [alice] after her Google profile was linked at 7000. *)
Definition alice_linked : User :=
  mkUser 1%N "alice@x.com" (Some "$2a$12$alice") (Some "g-alice") true None None
    Undefined (mkProfile (Some "Alice") None) 7000 0 7000.

End Samples.

(** ** services/otpService.js: maintenance *)
Module OTPMaintenance.
Import OTP.

(** One turn of the loop of [startCleanup]: delete the entry when it has
    expired, and count it. *)
Definition cleanup_step (now : Z) (acc : Store * Z)
    (entry : string * Challenge) : Store * Z :=
  if now >? expiresAt entry.2
  then (delete entry.1 acc.1, acc.2 + 1)
  else acc.

(** The callback of [startCleanup], run every 5 minutes: the store after
    the pass and [cleanedCount]. *)
Definition cleanup (now : Z) (st : Store) : Store * Z :=
  foldl (cleanup_step now) (st, 0) (map_to_list st).

Record Stats := mkStats {
  total : Z;
  valid_count : Z;
  expired_count : Z
}.

Definition stats_step (now : Z) (acc : Stats)
    (entry : string * Challenge) : Stats :=
  if now >? expiresAt entry.2
  then mkStats (total acc + 1) (valid_count acc) (expired_count acc + 1)
  else mkStats (total acc + 1) (valid_count acc + 1) (expired_count acc).

Definition getStats (now : Z) (st : Store) : Stats :=
  foldl (stats_step now) (mkStats 0 0 0) (map_to_list st).

(** [clearAll]: the store after the call and the count it logs. *)
Definition clearAll (st : Store) : Store * nat := (∅, size st).

(** The number of entries of a list that have expired at [now]. *)
Definition expired_entries (now : Z) (l : list (string * Challenge)) : Z :=
  Z.of_nat (length (List.filter (λ e, now >? expiresAt e.2) l)).

End OTPMaintenance.

(** ** services/jwtService.js: inspection without verification *)
Module JWTInspect.
Import Js Jsonwebtoken.

(** [jwt.decode(token)]: the claims without any check of the signature,
    [null] for text that is not a token. *)
Definition decode (token : Token) : option Claims :=
  match token with
  | Malformed _ => None
  | Jws _ claims => Some claims
  end.

Definition decodeToken (token : Token) : option Claims := decode token.

(** A [Date] object: its time value in milliseconds, or [NaN] when the
    date is invalid. *)
Inductive Date :=
| TimeValue (t : Z)
| InvalidDate.

(** The largest time value of a [Date], 100 000 000 days from the epoch. *)
Definition maxTime : Z := 8640000000000000.

(** [new Date(value)] for an integer [value]: [TimeClip] makes the date
    invalid beyond [maxTime].  The integers up to [maxTime] and their
    products by 1000 up to it are exact as numbers, and a product beyond
    it stays beyond it when rounded. *)
Definition newDate (value : Z) : Date :=
  if Z.abs value >? maxTime then InvalidDate else TimeValue value.

(** [getTokenExpiration]: the expiry as a date; [decoded && decoded.exp]
    fails for an expiry of 0. *)
Definition getTokenExpiration (token : Token) : option Date :=
  match decode token with
  | Some decoded =>
      if exp decoded =? 0 then None else Some (newDate (exp decoded * 1000))
  | None => None
  end.

(** [isTokenExpired]: a date is an object and never falsy, also when
    invalid; its [getTime()] is then [NaN], to which every comparison
    answers [false]. *)
Definition isTokenExpired (token : Token) (now : Z) : bool :=
  match getTokenExpiration token with
  | None => true
  | Some expiration =>
      match expiration with
      | TimeValue t => now >=? t
      | InvalidDate => false
      end
  end.

End JWTInspect.

(** ** middleware/auth.js: the other guards *)
Module AuthGuards.
Import Js Jsonwebtoken UserModel Http.

Section Middleware.
Variable secret : string.

(** [optionalAuth] always calls [next()]; the result is what it
    attached to the request ([req.user], [req.token]), if anything. *)
Definition optionalAuth (authorization : option JWT.AuthHeader)
    (now : Z) (db : Collection) : option (User * Token) :=
  match JWT.extractTokenFromHeader authorization with
  | None => None
  | Some token =>
      if falsy_token (Some token) then None
      else
        let verification := JWT.verifyToken secret token now in
        if JWT.valid verification then
          match JWT.payload verification with
          | None => None
          | Some decoded =>
              match findById (userId (payload decoded)) db with
              | Some user => Some (user, token)
              | None => None
              end
          end
        else None
  end.

End Middleware.

Definition requireVerification (req_user : option User) : Outcome unit :=
  match req_user with
  | None => Respond (failure 401 "Authentication required")
  | Some user =>
      if negb (isVerified user)
      then Respond (failure 403 "Email verification required")
      else Next ()
  end.

Definition requireGoogleAuth (req_user : option User) : Outcome unit :=
  match req_user with
  | None => Respond (failure 401 "Authentication required")
  | Some user =>
      if falsy (googleId user)
      then Respond (failure 403 "Google OAuth account required")
      else Next ()
  end.

Definition requireEmailAuth (req_user : option User) : Outcome unit :=
  match req_user with
  | None => Respond (failure 401 "Authentication required")
  | Some user =>
      if negb (falsy (googleId user)) && falsy (password user)
      then Respond (failure 403 "Email/password account required")
      else Next ()
  end.

End AuthGuards.

(** ** services/emailService.js: the other messages *)
Module EmailMessages.
Import Js.

Section Transport.
Variable isInitialized : bool.
Variable sendMail : string → Result unit.

Definition sendOTP (email otp : string) : Result unit :=
  if negb isInitialized then Throw "Email service not initialized"
  else sendMail email.

Definition sendWelcomeEmail (email name : string) : Result unit :=
  if negb isInitialized then Throw "Email service not initialized"
  else sendMail email.

End Transport.

End EmailMessages.

(** ** controllers/authController.js: registration and password change *)
Module Registration.
Import Js Jsonwebtoken UserModel Http.

Definition set_verificationToken (v : option string) (u : User) : User :=
  mkUser (_id u) (email u) (password u) (googleId u) (isVerified u)
    v (resetPasswordToken u) (resetPasswordExpires u)
    (profile u) (lastLogin u) (createdAt u) (updatedAt u).
Definition set_profile (v : Profile) (u : User) : User :=
  mkUser (_id u) (email u) (password u) (googleId u) (isVerified u)
    (verificationToken u) (resetPasswordToken u) (resetPasswordExpires u)
    v (lastLogin u) (createdAt u) (updatedAt u).

(** The setter of [profile.name]: [trim: true]. *)
Definition name_setter (s : string) : string := trimEnd (trimStart s).

(** The body of the answer of [sendOTP]. *)
Record SendOtpData := mkSendOtpData {
  sent_to : string;
  expiresIn : Z
}.

Record SendOtpResponse := mkSendOtpResponse {
  otp_status : Z;
  otp_success : bool;
  otp_message : option string;
  otp_error : option string;
  otp_data : option SendOtpData
}.

Definition otp_failure (code : Z) (err : string) : SendOtpResponse :=
  mkSendOtpResponse code false None (Some err) None.

(** A field of the body of a request as [sendOTP] tells values apart:
    absent, a string, or another JSON value (a number, a boolean,
    [null], an array, an object), of which it matters only whether it
    is truthy. *)
Inductive Field :=
| Missing
| Text (s : string)
| Other (truthy : bool).

(** The error of the data base that carries [code === 11000]. *)
Definition duplicate_key (msg : string) : bool :=
  bool_decide (msg = "E11000 duplicate key error").

Section Controller.
Variable secret : string.
Variable bcrypt_hash : string → string → string.
Variable bcrypt_compare : string → option string → string + bool.
(** The test [email.match(/^\w+([.-]?\w+)*@\w+([.-]?\w+)*(\.\w{2,3})+$/)],
    which is also the [match] validator of the schema. *)
Variable email_match : string → bool.
Variable mailer_initialized : bool.
Variable sendMail : string → Result unit.

(** [sendOTP]; [random] is the value of [Math.random()] that
    [generateOTP] draws.  A truthy value that is not a string has no
    method [match]: the call throws, and the [catch] answers. *)
Definition sendOTP (email_ : Field) (random : Number.Random) (now : Z)
    (db : Collection) (otps : OTP.Store) : SendOtpResponse * OTP.Store :=
  match email_ with
  | Missing | Other false =>
      (otp_failure 400 "Valid email address is required", otps)
  | Other true => (otp_failure 500 "Failed to send OTP", otps)
  | Text email_ =>
      (* Validate email *)
      if falsy (Some email_) || negb (email_match email_)
      then (otp_failure 400 "Valid email address is required", otps)
      else
        (* Check if user already exists *)
        let existingUser := findByEmail email_ db in
        if match existingUser with
           | Some user => isVerified user
           | None => false
           end
        then (otp_failure 400
                "User with this email already exists and is verified", otps)
        else
          (* Generate and store OTP *)
          let otp := OTP.generateOTP random in
          let otps := OTP.storeOTP email_ otp now otps in
          (* Send OTP email *)
          match EmailMessages.sendOTP mailer_initialized sendMail email_ otp with
          | Throw _ => (otp_failure 500 "Failed to send OTP", otps)
          | Ok _ =>
              (mkSendOtpResponse 200 true (Some "OTP sent successfully") None
                 (Some (mkSendOtpData email_ 600)), otps)
          end
  end.

(** [verifyOTPAndRegister]; [oid] is the identifier a new document
    would get. *)
Definition verifyOTPAndRegister (email_ otp_ password_ name_ : option string)
    (oid : ObjectId) (salt : string) (now : Z)
    (db : Collection) (otps : OTP.Store)
  : Response * Collection * OTP.Store :=
  match email_, otp_, password_ with
  | Some email_, Some otp_, Some password_ =>
      (* Validate input *)
      if falsy (Some email_) || falsy (Some otp_) || falsy (Some password_)
      then (failure 400 "Email, OTP, and password are required", db, otps)
      else if (String.length password_ <? 6)%nat
      then (failure 400 "Password must be at least 6 characters long", db, otps)
      else
        (* Verify OTP *)
        let '(verification, otps) := OTP.verifyOTP email_ otp_ now otps in
        if negb (OTP.valid verification)
        then (failure 400 (OTP.message verification), db, otps)
        else
          (* Check if user already exists *)
          let saved :=
            match findByEmail email_ db with
            | Some user =>
                (* Update existing user *)
                let user1 :=
                  set_verificationToken None
                    (set_isVerified true
                       (set_password (Some password_) user)) in
                let user2 :=
                  if falsy name_ then user1
                  else set_profile
                         (mkProfile (name_setter <$> name_)
                            (picture (profile user1))) user1 in
                save bcrypt_hash user user2 salt now db
            | None =>
                (* Create new user *)
                create bcrypt_hash email_match oid (Some email_)
                  (Some password_) None true
                  (mkProfile
                     (Some (name_setter (if falsy name_ then ""
                                         else default "" name_)))
                     None)
                  salt now db
            end in
          match saved with
          | (Throw msg, db') =>
              if duplicate_key msg
              then (failure 400 "User with this email already exists", db', otps)
              else (failure 500 "Registration failed", db', otps)
          | (Ok user, db') =>
              (* Generate JWT token *)
              let token := JWT.generateToken secret user now in
              (* Send welcome email *)
              let answer :=
                (ok_with "Registration completed successfully"
                   (mkAuthData (getPublicProfile user) token), db', otps) in
              match EmailMessages.sendWelcomeEmail mailer_initialized sendMail
                      email_
                      (if falsy (name (profile user)) then "User"
                       else default "User" (name (profile user))) with
              | Ok _ => answer
              | Throw _ =>
                  (* Don't fail the registration if welcome email fails *)
                  answer
              end
          end
  | _, _, _ => (failure 400 "Email, OTP, and password are required", db, otps)
  end.

(** [changePassword]; [req_user] is the document [authenticateToken]
    attached to the request. *)
Definition changePassword (req_user : User)
    (currentPassword newPassword : option string)
    (salt : string) (now : Z) (db : Collection) : Response * Collection :=
  match currentPassword, newPassword with
  | Some currentPassword, Some newPassword =>
      if falsy (Some currentPassword) || falsy (Some newPassword)
      then (failure 400 "Current password and new password are required", db)
      else if (String.length newPassword <? 6)%nat
      then (failure 400 "New password must be at least 6 characters long", db)
      (* Check if user has password (not Google OAuth only) *)
      else if falsy (password req_user)
      then (failure 400
              "Password change not available for Google OAuth accounts", db)
      else
        (* Verify current password *)
        match comparePassword bcrypt_compare req_user currentPassword with
        | Throw _ => (failure 500 "Failed to change password", db)
        | Ok false => (failure 400 "Current password is incorrect", db)
        | Ok true =>
            (* Update password *)
            match save bcrypt_hash req_user
                    (set_password (Some newPassword) req_user) salt now db with
            | (Throw _, db') => (failure 500 "Failed to change password", db')
            | (Ok _, db') => (ok "Password changed successfully", db')
            end
        end
  | _, _ => (failure 400 "Current password and new password are required", db)
  end.

(** config/passport.js, [handleOAuthSuccess]: the answer to a Google
    login for the user [findOrCreateGoogleUser] returned. *)
Definition handleOAuthSuccess (user : User) (now : Z) : Response :=
  let token := JWT.generateToken secret user now in
  ok_with "Google OAuth authentication successful"
    (mkAuthData (getPublicProfile user) token).

End Controller.

End Registration.

(** ** The unique indexes of the [users] collection *)
Module Indexes.
Import UserModel.

(** [_id], [email] (index [unique: true]) and, where present, [googleId]
    (index [unique: true, sparse: true]) identify a document. *)
Definition unique_keys (db : Collection) : Prop :=
  NoDup (map _id db) ∧ NoDup (map email db) ∧ NoDup (omap googleId db).

End Indexes.

(** ** models/Chat.js *)
Module Chat.
Import Js.

(** A [ChatMessage]; its [metadata] object is never inspected by the
    functions below and is left out. *)
Record ChatMessage := mkChatMessage {
  msg_id : string;
  role : string;
  content : string;
  timestamp : Z
}.

(** A [ChatSession]; instants stand for the ISO strings of
    [new Date().toISOString()]. *)
Record ChatSession := mkChatSession {
  id : string;
  userId : option string;
  messages : list ChatMessage;
  createdAt : Z;
  updatedAt : Z
}.

(** [Array.prototype.slice(start)] for an integer [start]: a negative
    [start] counts from the end, and both ends are clamped. *)
Definition slice {A} (start : Z) (l : list A) : list A :=
  let len := Z.of_nat (length l) in
  let k := if start <? 0 then Z.max (len + start) 0 else Z.min start len in
  drop (Z.to_nat k) l.

(** [Array.prototype.join(sep)] *)
Fixpoint join (sep : string) (l : list string) : string :=
  match l with
  | [] => ""
  | [x] => x
  | x :: rest => x +:+ sep +:+ join sep rest
  end.

Definition newline : string := String "010"%char EmptyString.

(** [new ChatSession(id, userId)] *)
Definition newSession (id_ : string) (userId_ : option string) (now : Z)
  : ChatSession :=
  mkChatSession id_ userId_ [] now now.

Definition addMessage (message : ChatMessage) (now : Z) (s : ChatSession)
  : ChatSession :=
  mkChatSession (id s) (userId s) (messages s ++ [message]) (createdAt s) now.

(** [getLastMessages(count = 10)]: [this.messages.slice(-count)]. *)
Definition getLastMessages (count : option Z) (s : ChatSession)
  : list ChatMessage :=
  slice (- default 10 count) (messages s).

Definition getConversationHistory (maxMessages : option Z) (s : ChatSession)
  : string :=
  let recentMessages := getLastMessages (Some (default 20 maxMessages)) s in
  join newline (map (λ msg, role msg +:+ ": " +:+ content msg) recentMessages).

(** [chatSessions], a [Map]: the entries in the order of their first
    insertion. *)
Abbreviation Sessions := (list (string * ChatSession)).

Definition has_key (k : string) (m : Sessions) : bool :=
  existsb (λ e, bool_decide (e.1 = k)) m.

(** [Map.prototype.set]: the value of a present key is replaced where it
    stands, a new key is appended. *)
Definition map_set (k : string) (v : ChatSession) (m : Sessions) : Sessions :=
  if has_key k m
  then map (λ e, if bool_decide (e.1 = k) then (k, v) else e) m
  else m ++ [(k, v)].

Definition map_get (k : string) (m : Sessions) : option ChatSession :=
  snd <$> List.find (λ e, bool_decide (e.1 = k)) m.

(** [Map.prototype.delete] answers whether the key was present. *)
Definition map_delete (k : string) (m : Sessions) : bool * Sessions :=
  (has_key k m, List.filter (λ e, negb (bool_decide (e.1 = k))) m).

(** [ChatSessionManager.createSession]; [sessionId] is the identifier
    drawn from the clock and [Math.random()]. *)
Definition createSession (userId_ : option string) (sessionId : string)
    (now : Z) (m : Sessions) : ChatSession * Sessions :=
  let session := newSession sessionId userId_ now in
  (session, map_set sessionId session m).

Definition getSession (sessionId : string) (m : Sessions) : option ChatSession :=
  map_get sessionId m.

(** [addMessageToSession]: the session held by the map is the object
    that [addMessage] changes. *)
Definition addMessageToSession (sessionId : string) (message : ChatMessage)
    (now : Z) (m : Sessions) : Result ChatSession * Sessions :=
  match getSession sessionId m with
  | Some session =>
      let session := addMessage message now session in
      (Ok session, map_set sessionId session m)
  | None => (Throw ("Session " +:+ sessionId +:+ " not found"), m)
  end.

Definition getUserSessions (userId_ : option string) (m : Sessions)
  : list ChatSession :=
  List.filter (λ session, bool_decide (userId session = userId_)) (map snd m).

Definition deleteSession (sessionId : string) (m : Sessions) : bool * Sessions :=
  map_delete sessionId m.

(** The keys of a [Map] are distinct. *)
Definition keys_distinct (m : Sessions) : Prop := NoDup (map fst m).

End Chat.

(** ** More sample data for the examples *)
Module MoreSamples.
Import Js Jsonwebtoken UserModel Samples.

(** A stand-in for [bcrypt.compare] that recognises the hashes
    [toy_hash] makes with the salt ["salt"]. *)
Definition toy_compare (plain : string) (hash : option string) : string + bool :=
  match hash with
  | None => inl "Illegal arguments: string, undefined"
  | Some h => inr (bool_decide (h = toy_hash plain "salt"))
  end.

(** A stand-in for the regular expression of the schema. *)
Definition any_address (s : string) : bool := true.

(** An account whose password is ["secret1"]. *)
Definition dave : User :=
  mkUser 4%N "dave@x.com" (Some "saltsecret1") None true None None Undefined
    (mkProfile (Some "Dave") None) 0 0 0.

Definition members : Collection := [alice; bob; dave].

(** The session token of [alice], issued at instant 0. *)
Definition alice_session : Token := JWT.generateToken secret alice 0.

(** The document of [alice] after she asked for a password reset. *)
Definition alice_requested : User := default alice (findById 1%N requested).

Definition hello : Chat.ChatMessage := Chat.mkChatMessage "msg_1" "user" "hello" 10.

(** A session with three messages. *)
Definition chatty : Chat.ChatSession :=
  Chat.mkChatSession "session_1_xyz" None
    [Chat.mkChatMessage "msg_1" "user" "hi" 1;
     Chat.mkChatMessage "msg_2" "assistant" "hello" 2;
     Chat.mkChatMessage "msg_3" "user" "bye" 3] 0 3.

(** The limiter after three requests of one client within a second. *)
Definition blocked : RateLimit.Store :=
  (RateLimit.serve "10.0.0.1" [0; 10; 20] ∅).2.

(** A store with one session, created at instant 5. *)
Definition one_session : Chat.Sessions :=
  (Chat.createSession (Some "u1") "session_5_abc" 5 []).2.

End MoreSamples.

(** * Properties *)

(** ** Number formatting *)
Module JsFacts.
Import Js.

Local Ltac zdiv := Z.div_mod_to_equations; lia.

Lemma digits_go_six (k : nat) (n : Z) (acc : string) :
  100000 <= n <= 999999 →
  digits_go (6 + k) n acc =
    String (digit_char (n / 100000))
      (String (digit_char (n / 10000 mod 10))
         (String (digit_char (n / 1000 mod 10))
            (String (digit_char (n / 100 mod 10))
               (String (digit_char (n / 10 mod 10))
                  (String (digit_char (n mod 10)) acc))))).
Proof.
  intros Hn.
  assert (E1 : n / 10 / 10 = n / 100) by zdiv.
  assert (E2 : n / 100 / 10 = n / 1000) by zdiv.
  assert (E3 : n / 1000 / 10 = n / 10000) by zdiv.
  assert (E4 : n / 10000 / 10 = n / 100000) by zdiv.
  assert (E5 : n / 100000 / 10 = 0) by zdiv.
  assert (E6 : n / 100000 mod 10 = n / 100000) by zdiv.
  assert (N1 : (n / 10 =? 0) = false) by (apply Z.eqb_neq; zdiv).
  assert (N2 : (n / 100 =? 0) = false) by (apply Z.eqb_neq; zdiv).
  assert (N3 : (n / 1000 =? 0) = false) by (apply Z.eqb_neq; zdiv).
  assert (N4 : (n / 10000 =? 0) = false) by (apply Z.eqb_neq; zdiv).
  assert (N5 : (n / 100000 =? 0) = false) by (apply Z.eqb_neq; zdiv).
  change (6 + k)%nat with (S (S (S (S (S (S k)))))).
  cbn [digits_go].
  rewrite N1, E1, N2, E2, N3, E3, N4, E4, N5, E5, E6. reflexivity.
Qed.

Lemma toString_six (n : Z) :
  100000 <= n <= 999999 →
  toString n =
    String (digit_char (n / 100000))
      (String (digit_char (n / 10000 mod 10))
         (String (digit_char (n / 1000 mod 10))
            (String (digit_char (n / 100 mod 10))
               (String (digit_char (n / 10 mod 10))
                  (String (digit_char (n mod 10)) EmptyString))))).
Proof.
  intros Hn. unfold toString.
  replace (n <? 0) with false by lia.
  assert (Hlog : 16 <= Z.log2 n).
  { change 16 with (Z.log2 65536). apply Z.log2_le_mono. lia. }
  assert (Hfuel : ∃ k, S (Z.to_nat (Z.log2 n)) = (6 + k)%nat).
  { exists (Z.to_nat (Z.log2 n) - 5)%nat. lia. }
  destruct Hfuel as [k ->]. by apply digits_go_six.
Qed.

Lemma digit_char_zero (d : Z) :
  0 <= d <= 9 → digit_char d = "0"%char → d = 0.
Proof.
  intros Hd H. unfold digit_char in H.
  assert (Hnat : (48 + Z.to_nat d)%nat = 48%nat).
  { rewrite <- (Ascii.nat_ascii_embedding (48 + Z.to_nat d)) by lia.
    rewrite H. reflexivity. }
  lia.
Qed.

Lemma digit_char_inj (a b : Z) :
  0 <= a <= 9 → 0 <= b <= 9 → digit_char a = digit_char b → a = b.
Proof.
  intros Ha Hb H. unfold digit_char in H.
  assert (Hnat : (48 + Z.to_nat a)%nat = (48 + Z.to_nat b)%nat).
  { rewrite <- (Ascii.nat_ascii_embedding (48 + Z.to_nat a)) by lia.
    rewrite <- (Ascii.nat_ascii_embedding (48 + Z.to_nat b)) by lia.
    by rewrite H. }
  lia.
Qed.

(** Six-digit numbers with the same decimal form are equal. *)
Lemma toString_six_inj (n m : Z) :
  100000 <= n <= 999999 → 100000 <= m <= 999999 →
  toString n = toString m → n = m.
Proof.
  intros Hn Hm. rewrite (toString_six n Hn), (toString_six m Hm).
  intros [= H5 H4 H3 H2 H1 H0].
  apply digit_char_inj in H5; [|zdiv..].
  apply digit_char_inj in H4; [|zdiv..].
  apply digit_char_inj in H3; [|zdiv..].
  apply digit_char_inj in H2; [|zdiv..].
  apply digit_char_inj in H1; [|zdiv..].
  apply digit_char_inj in H0; [|zdiv..].
  zdiv.
Qed.

End JsFacts.

(** ** The challenge store *)
Module OTPFacts.
Import OTP.

Lemma wf_empty : wf ∅.
Proof. intros e c H. rewrite lookup_empty in H. discriminate. Qed.

Lemma wf_storeOTP email code now st : wf st → wf (storeOTP email code now st).
Proof.
  intros Hwf e c. unfold storeOTP.
  destruct (decide (email = e)) as [->|Hne].
  - rewrite lookup_insert_eq. intros [= <-]. simpl. lia.
  - rewrite lookup_insert_ne by done. apply Hwf.
Qed.

Lemma wf_delete email st : wf st → wf (delete email st).
Proof.
  intros Hwf e c. destruct (decide (email = e)) as [->|Hne].
  - rewrite lookup_delete_eq. discriminate.
  - rewrite lookup_delete_ne by done. apply Hwf.
Qed.

Lemma wf_verifyOTP email cand now st :
  wf st → wf (verifyOTP email cand now st).2.
Proof.
  intros Hwf. unfold verifyOTP.
  destruct (st !! email) as [c|] eqn:Hc; simpl; [|done].
  destruct (now >? expiresAt c); simpl; [by apply wf_delete|].
  destruct (attempts c >=? 3); simpl; [by apply wf_delete|].
  assert (Hins : wf (<[email := mkChallenge (otp c) (expiresAt c) (attempts c + 1)]> st)).
  { intros e c'. destruct (decide (email = e)) as [->|Hne].
    - rewrite lookup_insert_eq. intros [= <-]. simpl.
      specialize (Hwf _ _ Hc). lia.
    - rewrite lookup_insert_ne by done. apply Hwf. }
  case_bool_decide; simpl; [by apply wf_delete | done].
Qed.

(** A call that answers [Mismatch] found a live challenge below the
    attempt limit and left it in the store with one more attempt. *)
Lemma verifyOTP_Mismatch_inv email cand now st st' :
  verifyOTP email cand now st = (Mismatch, st') →
  ∃ c, st !! email = Some c ∧ now <= expiresAt c ∧ attempts c < 3
       ∧ otp c ≠ cand
       ∧ st' = <[email := mkChallenge (otp c) (expiresAt c) (attempts c + 1)]> st.
Proof.
  unfold verifyOTP. destruct (st !! email) as [c|] eqn:Hc; [|discriminate].
  destruct (now >? expiresAt c) eqn:Hexp; [discriminate|].
  destruct (attempts c >=? 3) eqn:Hatt; [discriminate|].
  simpl. case_bool_decide as Heq; [discriminate|].
  intros [= <-]. exists c. repeat split; try done; lia.
Qed.

Lemma verifyOTP_absent email cand now st :
  st !! email = None → verifyOTP email cand now st = (NotFound, st).
Proof. intros H. unfold verifyOTP. by rewrite H. Qed.

Lemma verifyOTP_expired email cand now st c :
  st !! email = Some c → expiresAt c < now →
  verifyOTP email cand now st = (Expired, delete email st).
Proof.
  intros H Hlt. unfold verifyOTP. rewrite H.
  by replace (now >? expiresAt c) with true by lia.
Qed.

Lemma verifyOTP_exhausted email cand now st c :
  st !! email = Some c → now <= expiresAt c → 3 <= attempts c →
  verifyOTP email cand now st = (Exhausted, delete email st).
Proof.
  intros H Hle Hatt. unfold verifyOTP. rewrite H.
  replace (now >? expiresAt c) with false by lia.
  by replace (attempts c >=? 3) with true by lia.
Qed.

Lemma verifyOTP_correct email now st c :
  st !! email = Some c → now <= expiresAt c → attempts c < 3 →
  verifyOTP email (otp c) now st = (Verified, delete email st).
Proof.
  intros H Hle Hatt. unfold verifyOTP. rewrite H.
  replace (now >? expiresAt c) with false by lia.
  replace (attempts c >=? 3) with false by lia.
  simpl. rewrite bool_decide_eq_true_2 by done.
  by rewrite delete_insert_eq.
Qed.

End OTPFacts.

(** ** Rounding of binary64 numbers *)
Module FloatFacts.
Import Number Rounding.

Lemma iter_pos_nat {A} (f : A → A) p x :
  SpecFloat.iter_pos f p x = Nat.iter (Pos.to_nat p) f x.
Proof.
  revert x. induction p as [p IH|p IH|]; intros x.
  - rewrite Pos2Nat.inj_xI. cbn [SpecFloat.iter_pos]. rewrite !IH.
    replace (S (2 * Pos.to_nat p)) with (Pos.to_nat p + (Pos.to_nat p + 1))%nat by lia.
    rewrite !Nat.iter_add. done.
  - rewrite Pos2Nat.inj_xO. cbn [SpecFloat.iter_pos]. rewrite !IH.
    replace (2 * Pos.to_nat p)%nat with (Pos.to_nat p + Pos.to_nat p)%nat by lia.
    by rewrite Nat.iter_add.
  - done.
Qed.

Lemma shr_1_spec m r s :
  0 <= m →
  shr_1 (Build_shr_record m r s) = Build_shr_record (m / 2) (Z.odd m) (r || s).
Proof.
  intros Hm. destruct m as [|p|p]; [done| |lia].
  destruct p as [p|p|]; simpl; f_equal.
  - rewrite Pos2Z.inj_xI. Z.div_mod_to_equations. lia.
  - rewrite Pos2Z.inj_xO. Z.div_mod_to_equations. lia.
Qed.

(** The state of the shifter after [j + 1] steps. *)
Lemma shr_iter M j :
  0 <= M →
  ∃ q r s t,
    Nat.iter (S j) shr_1 (Build_shr_record M false false)
      = Build_shr_record q r s ∧
    0 <= q ∧
    M = q * 2 ^ (Z.of_nat j + 1) + (if r then 2 ^ Z.of_nat j else 0) + t ∧
    0 <= t < 2 ^ Z.of_nat j ∧
    s = negb (t =? 0).
Proof.
  intros HM. induction j as [|j IH].
  - exists (M / 2), (Z.odd M), false, 0.
    change (Nat.iter 1 shr_1 ?x) with (shr_1 x).
    rewrite shr_1_spec by done. split; [done|].
    split; [Z.div_mod_to_equations; lia|]. split; [|done].
    change (2 ^ (Z.of_nat 0 + 1)) with 2. change (2 ^ Z.of_nat 0) with 1.
    rewrite (Zodd_mod M). destruct (Z.eqb_spec (M mod 2) 1);
      Z.div_mod_to_equations; lia.
  - destruct IH as (q & r & s & t & Hit & Hq & HMeq & Ht & Hs).
    exists (q / 2), (Z.odd q), (r || s), ((if r then 2 ^ Z.of_nat j else 0) + t).
    change (Nat.iter (S (S j)) shr_1 ?x) with (shr_1 (Nat.iter (S j) shr_1 x)).
    rewrite Hit, shr_1_spec by done.
    split; [done|]. split; [Z.div_mod_to_equations; lia|].
    assert (Hp : 0 < 2 ^ Z.of_nat j) by (apply Z.pow_pos_nonneg; lia).
    replace (Z.of_nat (S j)) with (Z.of_nat j + 1) by lia.
    rewrite (Z.pow_add_r 2 (Z.of_nat j + 1) 1) by lia.
    rewrite (Z.pow_add_r 2 (Z.of_nat j) 1) in * by lia.
    change (2 ^ 1) with 2 in *.
    assert (Hq2 : q = 2 * (q / 2) + (if Z.odd q then 1 else 0)).
    { rewrite (Zodd_mod q). destruct (Z.eqb_spec (q mod 2) 1);
        Z.div_mod_to_equations; lia. }
    split; [|split].
    + destruct (Z.odd q), r; nia.
    + destruct r; lia.
    + subst s. destruct r; simpl.
      * symmetry. apply negb_true_iff, Z.eqb_neq. lia.
      * done.
Qed.

Lemma shr_round M E n :
  0 <= M →
  ∃ q,
    0 <= q ∧ nearest M (Z.max 0 n) q ∧
    ∃ mrs, shr (Build_shr_record M false false) E n = (mrs, E + Z.max 0 n) ∧
           round_nearest_even (shr_m mrs) (loc_of_shr_record mrs) = q.
Proof.
  intros HM. destruct n as [|p|p].
  - exists M. split; [done|].
    split; [unfold nearest; change (2 ^ Z.max 0 0) with 1; lia|].
    eexists. split; [simpl; by rewrite Z.add_0_r|done].
  - destruct (shr_iter M (Pos.to_nat p - 1) HM)
      as (q & r & s & t & Hit & Hq & HMeq & Ht & Hs).
    replace (S (Pos.to_nat p - 1)) with (Pos.to_nat p) in Hit by lia.
    replace (Z.of_nat (Pos.to_nat p - 1)) with (Z.pos p - 1) in * by lia.
    replace (Z.pos p - 1 + 1) with (Z.pos p) in HMeq by lia.
    assert (Hpow : 2 ^ Z.pos p = 2 * 2 ^ (Z.pos p - 1)).
    { rewrite <- (Z.pow_succ_r 2 (Z.pos p - 1)) by lia. f_equal. lia. }
    assert (Hpos : 0 < 2 ^ (Z.pos p - 1)) by (apply Z.pow_pos_nonneg; lia).
    rewrite Z.max_r by lia.
    exists (round_nearest_even q (loc_of_shr_record (Build_shr_record q r s))).
    split; [|split].
    + destruct r, s; simpl; try lia. destruct (Z.even q); lia.
    + unfold nearest. rewrite Hpow.
      destruct r; subst s; simpl.
      * destruct (Z.eqb_spec t 0); simpl.
        -- destruct (Z.even q); nia.
        -- nia.
      * destruct (Z.eqb_spec t 0); simpl; nia.
    + exists (Build_shr_record q r s). split; [|reflexivity].
      simpl. by rewrite iter_pos_nat, Hit.
  - exists M. split; [done|].
    split; [unfold nearest; change (2 ^ Z.max 0 (Z.neg p)) with 1; lia|].
    eexists. split; [simpl; by rewrite Z.add_0_r|done].
Qed.

Lemma digits2_pos_bounds p :
  2 ^ (Z.pos (digits2_pos p) - 1) <= Z.pos p < 2 ^ Z.pos (digits2_pos p).
Proof.
  induction p as [p IH|p IH|]; simpl digits2_pos; [| |simpl; lia].
  - rewrite Pos2Z.inj_succ, (Pos2Z.inj_xI p).
    replace (Z.succ (Z.pos (digits2_pos p)) - 1) with (Z.pos (digits2_pos p)) by lia.
    rewrite Z.pow_succ_r by lia.
    assert (H1 : 2 ^ Z.pos (digits2_pos p) = 2 * 2 ^ (Z.pos (digits2_pos p) - 1)).
    { rewrite <- (Z.pow_succ_r 2 (Z.pos (digits2_pos p) - 1)) by lia. f_equal. lia. }
    lia.
  - rewrite Pos2Z.inj_succ, (Pos2Z.inj_xO p).
    replace (Z.succ (Z.pos (digits2_pos p)) - 1) with (Z.pos (digits2_pos p)) by lia.
    rewrite Z.pow_succ_r by lia.
    assert (H1 : 2 ^ Z.pos (digits2_pos p) = 2 * 2 ^ (Z.pos (digits2_pos p) - 1)).
    { rewrite <- (Z.pow_succ_r 2 (Z.pos (digits2_pos p) - 1)) by lia. f_equal. lia. }
    lia.
Qed.

Lemma digits2_pos_le p n :
  0 <= n → Z.pos p < 2 ^ n → Z.pos (digits2_pos p) <= n.
Proof.
  intros Hn Hlt. pose proof (digits2_pos_bounds p) as [Hlo _].
  destruct (Z.le_gt_cases (Z.pos (digits2_pos p)) n) as [|Hgt]; [done|].
  assert (2 ^ n <= 2 ^ (Z.pos (digits2_pos p) - 1))
    by (apply Z.pow_le_mono_r; lia).
  lia.
Qed.

Lemma finish_spec q u :
  0 < q <= 2 ^ 53 → -1074 <= u <= 970 →
  ∃ m e, finish q u = S754_finite false m e ∧ u <= e <= u + 1
         ∧ Z.pos m * 2 ^ (e - u) = q.
Proof.
  intros [Hq0 Hq] Hu. unfold finish, shr_fexp.
  destruct (Z.eq_dec q (2 ^ 53)) as [->|Hne].
  - replace (fexp prec emax (Zdigits2 (2 ^ 53) + u) - u) with 1
      by (unfold fexp, SpecFloat.emin, prec, emax; simpl Zdigits2; lia).
    simpl. replace (u + 1 <=? emax - prec) with true
      by (unfold emax, prec; lia).
    eexists _, _. split; [reflexivity|]. split; [lia|].
    replace (u + 1 - u) with 1 by lia. reflexivity.
  - destruct q as [|p|p]; [lia| |lia]. simpl Zdigits2.
    assert (Hd : Z.pos (digits2_pos p) <= 53) by (apply digits2_pos_le; lia).
    assert (Hn : fexp prec emax (Z.pos (digits2_pos p) + u) - u <= 0)
      by (unfold fexp, SpecFloat.emin, prec, emax; lia).
    destruct (fexp prec emax (Z.pos (digits2_pos p) + u) - u) as [|n|n] eqn:Hshift;
      [|lia|]; simpl;
      (replace (u <=? emax - prec) with true by (unfold emax, prec; lia));
      exists p, u; (split; [reflexivity|]); (split; [lia|]);
      rewrite Z.sub_diag; simpl; lia.
Qed.

Lemma binary_round_aux_spec M E :
  0 < M →
  ∃ q,
    0 <= q ∧
    nearest M (Z.max E (fexp prec emax (Zdigits2 M + E)) - E) q ∧
    binary_round_aux prec emax false M E loc_Exact
      = finish q (Z.max E (fexp prec emax (Zdigits2 M + E))).
Proof.
  intros HM.
  destruct (shr_round M E (fexp prec emax (Zdigits2 M + E) - E)) as
    (q & Hq & Hnear & mrs & Hshr & Hround); [lia|].
  exists q. split; [done|].
  replace (Z.max E (fexp prec emax (Zdigits2 M + E)) - E)
    with (Z.max 0 (fexp prec emax (Zdigits2 M + E) - E)) by lia.
  split; [done|].
  unfold binary_round_aux, finish. unfold shr_fexp at 1. simpl shr_record_of_loc.
  rewrite Hshr, Hround.
  replace (E + Z.max 0 (fexp prec emax (Zdigits2 M + E) - E))
    with (Z.max E (fexp prec emax (Zdigits2 M + E))) by lia.
  reflexivity.
Qed.

Lemma finish_zero u : -1074 <= u → finish 0 u = S754_zero false.
Proof.
  intros Hu. unfold finish, shr_fexp. simpl Zdigits2.
  assert (Hn : fexp prec emax (0 + u) - u <= 0)
    by (unfold fexp, SpecFloat.emin, prec, emax; lia).
  by destruct (fexp prec emax (0 + u) - u) as [|n|n]; [|lia|].
Qed.

Lemma pow2_pos x : 0 <= x → 0 < 2 ^ x.
Proof. intros. apply Z.pow_pos_nonneg; lia. Qed.

Lemma pow2_add x y : 0 <= x → 0 <= y → 2 ^ (x + y) = 2 ^ x * 2 ^ y.
Proof. intros. by apply Z.pow_add_r. Qed.

Lemma pow2_le x y : 0 <= x <= y → 2 ^ x <= 2 ^ y.
Proof. intros. apply Z.pow_le_mono_r; lia. Qed.

Lemma fexp_eq x : fexp prec emax x = Z.max (x - 53) (-1074).
Proof. reflexivity. Qed.

Lemma half_cancel_lower c q n :
  0 < n → 2 * (c * n) - n <= 2 * q * n → c <= q.
Proof. intros Hn H. nia. Qed.

Lemma half_cancel_upper c q n :
  0 < n → 2 * q * n < (2 * c + 2) * n → q <= c.
Proof. intros Hn H. nia. Qed.

(** What rounding does to a positive value that is less than half a unit
    in the last place above the binary64 number [b * 2 ^ k]. *)
Lemma round_core M E b k :
  0 < M → - bias <= E →
  2 ^ 52 <= b < 2 ^ 53 → -1074 <= k <= 900 →
  2 * scaled M E < (2 * b + 1) * 2 ^ (k + bias) →
  ∃ q u,
    binary_round_aux prec emax false M E loc_Exact = finish q u ∧
    0 <= q <= 2 ^ 53 ∧ -1074 <= u <= 970 ∧ E <= u ∧
    u = Z.max E (Z.max (Zdigits2 M + E - 53) (-1074)) ∧
    nearest M (u - E) q ∧
    scaled q u <= scaled b k.
Proof.
  intros HM HE Hb Hk Hup.
  destruct (binary_round_aux_spec M E HM) as (q & Hq & Hnear & Hbra).
  rewrite fexp_eq in Hnear, Hbra.
  set (u := Z.max E (Z.max (Zdigits2 M + E - 53) (-1074))) in *.
  destruct M as [|p|p]; [lia| |lia]. simpl Zdigits2 in *.
  pose proof (digits2_pos_bounds p) as [HDlo HDhi].
  set (D := Z.pos (digits2_pos p)) in *.
  assert (HD : 1 <= D) by (unfold D; lia).
  unfold scaled in *.
  (* the exponent of the result is small *)
  assert (HDE : D + E < 54 + k).
  { destruct (Z.lt_ge_cases (D + E) (54 + k)) as [|Hge]; [done|].
    assert (H1 : 2 ^ (54 + k + bias) <= 2 ^ (D + E + bias))
      by (apply pow2_le; unfold bias; lia).
    assert (H2 : 2 ^ (D + E + bias) = 2 * 2 ^ (D - 1) * 2 ^ (E + bias)).
    { replace (D + E + bias) with (1 + (D - 1) + (E + bias)) by lia.
      rewrite !pow2_add by (unfold bias in *; lia). reflexivity. }
    assert (H3 : 2 ^ (54 + k + bias) = 2 ^ 54 * 2 ^ (k + bias)).
    { replace (54 + k + bias) with (54 + (k + bias)) by lia.
      rewrite pow2_add by (unfold bias; lia). reflexivity. }
    pose proof (pow2_pos (E + bias)) as P1.
    pose proof (pow2_pos (k + bias)) as P2.
    specialize (P1 ltac:(unfold bias in *; lia)).
    specialize (P2 ltac:(unfold bias in *; lia)).
    change (2 ^ 53) with 9007199254740992 in *.
    change (2 ^ 54) with 18014398509481984 in *.
    nia. }
  assert (Hu : -1074 <= u <= 970) by (unfold u; lia).
  assert (HEu : E <= u) by (unfold u; lia).
  assert (Hn : D - 53 <= u - E) by (unfold u; lia).
  (* the rounded mantissa has at most 53 bits, or is 2 ^ 53 *)
  assert (Hq53 : q <= 2 ^ 53).
  { unfold nearest in Hnear.
    assert (H1 : 2 ^ D <= 2 ^ (53 + (u - E))) by (apply pow2_le; lia).
    rewrite pow2_add in H1 by lia.
    pose proof (pow2_pos (u - E) ltac:(lia)) as P.
    change (2 ^ 53) with 9007199254740992 in *. nia. }
  exists q, u. do 5 (split; [done || lia|]). split; [done|].
  pose proof (pow2_pos (E + bias) ltac:(unfold bias in *; lia)) as PE.
  pose proof (pow2_pos (k + bias) ltac:(unfold bias in *; lia)) as Pk.
  pose proof (pow2_pos (u - E) ltac:(lia)) as Pn.
  assert (HuE : 2 ^ (u + bias) = 2 ^ (u - E) * 2 ^ (E + bias)).
  { replace (u + bias) with ((u - E) + (E + bias)) by lia.
    apply pow2_add; unfold bias in *; lia. }
  destruct (Z.lt_trichotomy u k) as [Hlt|[Heq|Hgt]].
  - (* the result lies in a lower binade than the bound *)
    assert (H1 : 2 ^ (u + bias) * 2 <= 2 ^ (k + bias)).
    { replace (k + bias) with ((u + bias) + (k - u)) by lia.
      rewrite (pow2_add (u + bias) (k - u)) by (unfold bias in *; lia).
      pose proof (pow2_le 1 (k - u) ltac:(lia)) as H1.
      change (2 ^ 1) with 2 in H1.
      pose proof (pow2_pos (u + bias) ltac:(unfold bias in *; lia)). nia. }
    pose proof (pow2_pos (u + bias) ltac:(unfold bias in *; lia)) as Pu.
    change (2 ^ 53) with 9007199254740992 in *.
    change (2 ^ 52) with 4503599627370496 in *. nia.
  - (* the same binade *)
    subst k. unfold nearest in Hnear. rewrite HuE in *.
    assert (q <= b) by nia. nia.
  - (* a higher binade *)
    destruct (Z.eq_dec u E) as [HuEq|HuNe].
    + unfold nearest in Hnear. rewrite HuEq, Z.sub_diag in Hnear.
      change (2 ^ 0) with 1 in Hnear.
      assert (q = Z.pos p) by lia. subst q. rewrite HuEq.
      assert (H1 : 2 ^ (E + bias) = 2 ^ (E - k) * 2 ^ (k + bias)).
      { replace (E + bias) with ((E - k) + (k + bias)) by lia.
        apply pow2_add; unfold bias in *; lia. }
      pose proof (pow2_pos (E - k) ltac:(lia)) as P1.
      rewrite H1 in *.
      assert (Z.pos p * 2 ^ (E - k) <= b) by nia. nia.
    + exfalso. assert (Hu' : u = D + E - 53) by (unfold u in *; lia).
      assert (H1 : 2 ^ 54 * 2 ^ (k + bias) <= 2 ^ (D + E + bias)).
      { rewrite <- pow2_add by (unfold bias in *; lia).
        apply pow2_le. unfold bias in *. lia. }
      assert (H2 : 2 ^ (D + E + bias) = 2 * 2 ^ (D - 1) * 2 ^ (E + bias)).
      { replace (D + E + bias) with (1 + (D - 1) + (E + bias)) by lia.
        rewrite !pow2_add by (unfold bias in *; lia). reflexivity. }
      change (2 ^ 53) with 9007199254740992 in *.
      change (2 ^ 54) with 18014398509481984 in *. nia.
Qed.

Lemma finish_scaled q u :
  0 < q <= 2 ^ 53 → -1074 <= u <= 970 →
  ∃ m e, finish q u = S754_finite false m e ∧ - bias <= e
         ∧ scaled (Z.pos m) e = scaled q u.
Proof.
  intros Hq Hu. destruct (finish_spec q u Hq Hu) as (m & e & Hf & He & Hm).
  exists m, e. split; [done|]. split; [unfold bias; lia|].
  unfold scaled. rewrite <- Hm.
  replace (e + bias) with ((e - u) + (u + bias)) by lia.
  rewrite (pow2_add (e - u) (u + bias)) by (unfold bias; lia). lia.
Qed.

Lemma round_upper M E b k :
  0 < M → - bias <= E →
  2 ^ 52 <= b < 2 ^ 53 → -1074 <= k <= 900 →
  2 * scaled M E < (2 * b + 1) * 2 ^ (k + bias) →
  below (binary_round_aux prec emax false M E loc_Exact) b k.
Proof.
  intros HM HE Hb Hk Hup.
  destruct (round_core M E b k HM HE Hb Hk Hup)
    as (q & u & -> & Hq & Hu & _ & _ & _ & Hle).
  destruct (Z.eq_dec q 0) as [->|Hq0].
  - by rewrite finish_zero by lia.
  - destruct (finish_scaled q u) as (m & e & -> & He & Hs); [lia|done|].
    simpl. by rewrite Hs.
Qed.

(** Rounding keeps a value between two binary64 numbers. *)
Lemma round_between M E a ka b k :
  0 < M → - bias <= E →
  2 ^ 52 <= a < 2 ^ 53 → -1074 <= ka →
  2 ^ 52 <= b < 2 ^ 53 → -1074 <= k <= 900 →
  scaled a ka <= scaled M E →
  2 * scaled M E < (2 * b + 1) * 2 ^ (k + bias) →
  ∃ m e,
    binary_round_aux prec emax false M E loc_Exact = S754_finite false m e ∧
    - bias <= e ∧
    scaled a ka <= scaled (Z.pos m) e <= scaled b k.
Proof.
  intros HM HE Ha Hka Hb Hk Hlo Hup.
  destruct (round_core M E b k HM HE Hb Hk Hup)
    as (q & u & -> & Hq & Hu & HEu & Hudef & Hnear & Hle).
  assert (Hqa : scaled a ka <= scaled q u).
  { unfold scaled in *. unfold nearest in Hnear.
    destruct M as [|p|p]; [lia| |lia]. simpl Zdigits2 in Hudef.
    pose proof (digits2_pos_bounds p) as [HDlo HDhi].
    set (D := Z.pos (digits2_pos p)) in *.
    pose proof (pow2_pos (E + bias) ltac:(unfold bias in *; lia)) as PE.
    pose proof (pow2_pos (u - E) ltac:(lia)) as Pn.
    pose proof (pow2_pos (ka + bias) ltac:(unfold bias in *; lia)) as Pka.
    assert (HuE : 2 ^ (u + bias) = 2 ^ (u - E) * 2 ^ (E + bias)).
    { replace (u + bias) with ((u - E) + (E + bias)) by lia.
      apply pow2_add; unfold bias in *; lia. }
    destruct (Z.eq_dec u E) as [HuEq|HuNe].
    { rewrite HuEq, Z.sub_diag in Hnear. change (2 ^ 0) with 1 in Hnear.
      assert (q = Z.pos p) by lia. subst q. by rewrite HuEq. }
    destruct (Z.le_gt_cases u ka) as [Hle'|Hgt].
    - assert (H1 : 2 ^ (ka + bias) = 2 ^ (ka - u) * 2 ^ (u + bias)).
      { replace (ka + bias) with ((ka - u) + (u + bias)) by lia.
        apply pow2_add; unfold bias in *; lia. }
      pose proof (pow2_pos (ka - u) ltac:(lia)) as P1.
      rewrite H1, HuE in Hlo |- *.
      assert (H2 : a * 2 ^ (ka - u) * 2 ^ (u - E) <= Z.pos p).
      { apply (Z.mul_le_mono_pos_r _ _ (2 ^ (E + bias))); [done|]. lia. }
      assert (H3 : a * 2 ^ (ka - u) <= q).
      { apply (half_cancel_lower _ _ (2 ^ (u - E))); [done|]. lia. }
      rewrite !Z.mul_assoc.
      apply Z.mul_le_mono_nonneg_r; [lia|].
      apply Z.mul_le_mono_nonneg_r; [lia|done].
    - assert (Hu' : u = D + E - 53) by lia.
      assert (H1 : 2 ^ (D - 1) = 2 ^ 52 * 2 ^ (u - E)).
      { replace (D - 1) with (52 + (u - E)) by lia. apply pow2_add; lia. }
      assert (H2 : 2 ^ (u + bias) = 2 ^ (u - ka) * 2 ^ (ka + bias)).
      { replace (u + bias) with ((u - ka) + (ka + bias)) by lia.
        apply pow2_add; unfold bias in *; lia. }
      pose proof (pow2_le 1 (u - ka) ltac:(lia)) as H3.
      change (2 ^ 1) with 2 in H3.
      change (2 ^ 53) with 9007199254740992 in *.
      change (2 ^ 52) with 4503599627370496 in *.
      assert (H4 : 4503599627370496 <= q).
      { apply (half_cancel_lower _ _ (2 ^ (u - E))); [done|]. lia. }
      rewrite H2, Z.mul_assoc.
      apply Z.mul_le_mono_nonneg_r; [lia|].
      transitivity (4503599627370496 * 2); [lia|].
      apply Z.mul_le_mono_nonneg; lia. }
  assert (Hq0 : 0 < q).
  { unfold scaled in Hqa.
    pose proof (pow2_pos (ka + bias) ltac:(unfold bias in *; lia)).
    pose proof (pow2_pos (u + bias) ltac:(unfold bias in *; lia)).
    change (2 ^ 52) with 4503599627370496 in *. nia. }
  destruct (finish_scaled q u) as (m & e & -> & He & Hs); [lia|done|].
  exists m, e. split; [done|]. split; [done|]. rewrite Hs. lia.
Qed.

Lemma shl_align_spec mx ex ex' :
  (shl_align mx ex ex').2 = Z.min ex ex' ∧
  Z.pos (shl_align mx ex ex').1 = Z.pos mx * 2 ^ (ex - Z.min ex ex').
Proof.
  unfold shl_align. destruct (ex' - ex) as [|d|d] eqn:Hd; simpl.
  - rewrite Z.min_l by lia. rewrite Z.sub_diag. simpl. lia.
  - rewrite Z.min_l by lia. rewrite Z.sub_diag. simpl. lia.
  - rewrite Z.min_r by lia. split; [done|].
    replace (ex - ex') with (Z.pos d) by lia.
    change (Pos.iter xO mx d) with (shift_pos d mx).
    rewrite shift_pos_correct. change (Z.pow_pos 2 d) with (2 ^ Z.pos d). lia.
Qed.

Lemma shl_align_scaled mx ex ex' :
  - bias <= ex → - bias <= ex' →
  - bias <= (shl_align mx ex ex').2 ∧
  scaled (Z.pos (shl_align mx ex ex').1) (shl_align mx ex ex').2
    = scaled (Z.pos mx) ex.
Proof.
  intros H1 H2. destruct (shl_align_spec mx ex ex') as [-> ->].
  split; [lia|]. unfold scaled.
  replace (ex + bias) with ((ex - Z.min ex ex') + (Z.min ex ex' + bias)) by lia.
  rewrite (pow2_add (ex - Z.min ex ex')) by (unfold bias in *; lia). lia.
Qed.

Lemma binary_round_between M E a ka b k :
  - bias <= E →
  2 ^ 52 <= a < 2 ^ 53 → -1074 <= ka →
  2 ^ 52 <= b < 2 ^ 53 → -1074 <= k <= 900 →
  scaled a ka <= scaled (Z.pos M) E →
  2 * scaled (Z.pos M) E < (2 * b + 1) * 2 ^ (k + bias) →
  ∃ m e,
    binary_round prec emax false M E = S754_finite false m e ∧
    - bias <= e ∧
    scaled a ka <= scaled (Z.pos m) e <= scaled b k.
Proof.
  intros HE Ha Hka Hb Hk Hlo Hup. unfold binary_round.
  destruct (shl_align_scaled M E (fexp prec emax (Z.pos (digits2_pos M) + E)))
    as [He Hs]; [done|rewrite fexp_eq; unfold bias; lia|].
  destruct (shl_align M E (fexp prec emax (Z.pos (digits2_pos M) + E)))
    as [mz ez]. simpl in He, Hs.
  apply round_between; try done; rewrite Hs; done.
Qed.

Lemma add_between m1 e1 m2 e2 a ka b k :
  - bias <= e1 → - bias <= e2 →
  2 ^ 52 <= a < 2 ^ 53 → -1074 <= ka →
  2 ^ 52 <= b < 2 ^ 53 → -1074 <= k <= 900 →
  scaled a ka <= scaled (Z.pos m1) e1 + scaled (Z.pos m2) e2 →
  2 * (scaled (Z.pos m1) e1 + scaled (Z.pos m2) e2) < (2 * b + 1) * 2 ^ (k + bias) →
  ∃ m e,
    add (S754_finite false m1 e1) (S754_finite false m2 e2)
      = S754_finite false m e ∧
    - bias <= e ∧
    scaled a ka <= scaled (Z.pos m) e <= scaled b k.
Proof.
  intros H1 H2 Ha Hka Hb Hk Hlo Hup. unfold add, SFadd.
  destruct (shl_align_scaled m1 e1 (Z.min e1 e2)) as [_ Hs1]; [done|lia|].
  destruct (shl_align_scaled m2 e2 (Z.min e1 e2)) as [_ Hs2]; [done|lia|].
  destruct (shl_align_spec m1 e1 (Z.min e1 e2)) as [E1 _].
  destruct (shl_align_spec m2 e2 (Z.min e1 e2)) as [E2 _].
  rewrite E1 in Hs1. rewrite E2 in Hs2.
  replace (Z.min e1 (Z.min e1 e2)) with (Z.min e1 e2) in Hs1 by lia.
  replace (Z.min e2 (Z.min e1 e2)) with (Z.min e1 e2) in Hs2 by lia.
  simpl cond_Zopp. simpl Z.add. unfold binary_normalize.
  apply binary_round_between; try done; try lia.
  - rewrite Pos2Z.inj_add. unfold scaled in *. lia.
  - rewrite Pos2Z.inj_add. unfold scaled in *. lia.
Qed.

Lemma mul_upper m1 e1 m2 e2 b k :
  - bias <= e1 + e2 →
  2 ^ 52 <= b < 2 ^ 53 → -1074 <= k <= 900 →
  2 * scaled (Z.pos m1 * Z.pos m2) (e1 + e2) < (2 * b + 1) * 2 ^ (k + bias) →
  below (mul (S754_finite false m1 e1) (S754_finite false m2 e2)) b k.
Proof.
  intros HE Hb Hk Hup. unfold mul, SFmul. simpl xorb.
  apply round_upper; done.
Qed.

Lemma floor_bounds m e lo hi :
  - bias <= e →
  lo * 2 ^ bias <= scaled m e < hi * 2 ^ bias →
  lo <= Z.shiftl m e < hi.
Proof.
  intros He [Hlo Hhi]. unfold scaled in *.
  destruct (Z.le_gt_cases 0 e) as [Hpos|Hneg].
  - rewrite Z.shiftl_mul_pow2 by done.
    rewrite (Z.add_comm e bias), (pow2_add bias e) in Hlo, Hhi
      by (unfold bias; lia).
    pose proof (pow2_pos bias ltac:(unfold bias; lia)) as Pb.
    split.
    + apply (Z.mul_le_mono_pos_r _ _ (2 ^ bias)); [done|]. lia.
    + apply (Z.mul_lt_mono_pos_r (2 ^ bias)); [done|]. lia.
  - assert (Hsh : Z.shiftl m e = m / 2 ^ (- e)).
    { rewrite <- (Z.opp_involutive e) at 1. rewrite Z.shiftl_opp_r.
      apply Z.shiftr_div_pow2. lia. }
    rewrite Hsh.
    assert (Hb : 2 ^ bias = 2 ^ (- e) * 2 ^ (e + bias)).
    { rewrite <- pow2_add by (unfold bias in *; lia). f_equal. lia. }
    pose proof (pow2_pos (e + bias) ltac:(lia)) as P1.
    pose proof (pow2_pos (- e) ltac:(lia)) as P2.
    rewrite Hb in Hlo, Hhi. split.
    + apply Z.div_le_lower_bound; [done|].
      apply (Z.mul_le_mono_pos_r _ _ (2 ^ (e + bias))); [done|]. lia.
    + apply Z.div_lt_upper_bound; [done|].
      apply (Z.mul_lt_mono_pos_r (2 ^ (e + bias))); [done|]. lia.
Qed.

Lemma digits2_pos_eq p n :
  2 ^ (n - 1) <= Z.pos p < 2 ^ n → Z.pos (digits2_pos p) = n.
Proof.
  intros [Hlo Hhi]. pose proof (digits2_pos_bounds p) as [Dlo Dhi].
  assert (Hn : 0 < n).
  { destruct (Z.lt_ge_cases 0 n) as [|Hle]; [done|].
    destruct (Z.eq_dec n 0) as [->|]; [simpl in Hhi; lia|].
    rewrite Z.pow_neg_r in Hhi by lia. lia. }
  destruct (Z.lt_trichotomy (Z.pos (digits2_pos p)) n) as [Hlt|[Heq|Hgt]]; [|done|].
  - assert (2 ^ Z.pos (digits2_pos p) <= 2 ^ (n - 1)) by (apply pow2_le; lia). lia.
  - assert (2 ^ n <= 2 ^ (Z.pos (digits2_pos p) - 1)) by (apply pow2_le; lia). lia.
Qed.

(** Every positive integer below 2^53 times a power of 2 is a binary64
    number with a mantissa of 53 bits. *)
Lemma normalize a k :
  0 < a < 2 ^ 53 → - bias + 60 <= k →
  ∃ a' k', 2 ^ 52 <= a' < 2 ^ 53 ∧ k - 52 <= k' <= k ∧ scaled a' k' = scaled a k.
Proof.
  intros [Ha0 Ha] Hk.
  pose proof (Z.log2_spec a Ha0) as [Hlo Hhi].
  pose proof (Z.log2_nonneg a) as Hl0.
  assert (Hl : Z.log2 a < 53) by (by apply Z.log2_lt_pow2).
  exists (a * 2 ^ (52 - Z.log2 a)), (k - (52 - Z.log2 a)).
  pose proof (pow2_pos (52 - Z.log2 a) ltac:(lia)) as Ps.
  assert (H52 : 2 ^ 52 = 2 ^ Z.log2 a * 2 ^ (52 - Z.log2 a)).
  { rewrite <- pow2_add by lia. f_equal. lia. }
  assert (H53 : 2 ^ 53 = 2 ^ Z.succ (Z.log2 a) * 2 ^ (52 - Z.log2 a)).
  { rewrite <- pow2_add by lia. f_equal. lia. }
  split; [|split; [lia|]].
  - rewrite H52, H53. split.
    + apply Z.mul_le_mono_nonneg_r; lia.
    + apply Z.mul_lt_mono_pos_r; lia.
  - unfold scaled.
    replace (k + bias) with ((52 - Z.log2 a) + (k - (52 - Z.log2 a) + bias)) by lia.
    rewrite (pow2_add (52 - Z.log2 a)) by (unfold bias in *; lia). lia.
Qed.

Lemma mul_between m1 e1 m2 e2 a ka b kb :
  - bias <= e1 + e2 →
  0 < a < 2 ^ 53 → -1000 <= ka →
  0 < b < 2 ^ 53 → -1000 <= kb <= 900 →
  scaled a ka <= scaled (Z.pos m1 * Z.pos m2) (e1 + e2) <= scaled b kb →
  ∃ m e,
    mul (S754_finite false m1 e1) (S754_finite false m2 e2) = S754_finite false m e ∧
    - bias <= e ∧
    scaled a ka <= scaled (Z.pos m) e <= scaled b kb.
Proof.
  intros HE Ha Hka Hb Hkb [Hlo Hhi].
  destruct (normalize a ka Ha) as (a' & ka' & Ha' & Hka' & Hsa); [unfold bias; lia|].
  destruct (normalize b kb Hb) as (b' & kb' & Hb' & Hkb' & Hsb); [unfold bias; lia|].
  rewrite <- Hsa, <- Hsb in *.
  unfold mul, SFmul. simpl xorb.
  apply round_between; try done; try lia.
  assert (0 < 2 ^ (kb' + bias)) by (apply pow2_pos; unfold bias; lia).
  unfold scaled in *. rewrite Pos2Z.inj_mul. lia.
Qed.

Lemma add_between_le m1 e1 m2 e2 a ka b kb :
  - bias <= e1 → - bias <= e2 →
  0 < a < 2 ^ 53 → -1000 <= ka →
  0 < b < 2 ^ 53 → -1000 <= kb <= 900 →
  scaled a ka <= scaled (Z.pos m1) e1 + scaled (Z.pos m2) e2 <= scaled b kb →
  ∃ m e,
    add (S754_finite false m1 e1) (S754_finite false m2 e2) = S754_finite false m e ∧
    - bias <= e ∧
    scaled a ka <= scaled (Z.pos m) e <= scaled b kb.
Proof.
  intros H1 H2 Ha Hka Hb Hkb [Hlo Hhi].
  destruct (normalize a ka Ha) as (a' & ka' & Ha' & Hka' & Hsa); [unfold bias; lia|].
  destruct (normalize b kb Hb) as (b' & kb' & Hb' & Hkb' & Hsb); [unfold bias; lia|].
  rewrite <- Hsa, <- Hsb in *.
  apply add_between; try done; try lia.
  assert (0 < 2 ^ (kb' + bias)) by (apply pow2_pos; unfold bias; lia).
  unfold scaled in *. lia.
Qed.

End FloatFacts.


(** ** Claims on the challenge store *)
Module OTPClaims.
Import Js OTP Rounding JsFacts OTPFacts FloatFacts.

(** C2, as the code has it.  Three wrong attempts exhaust a challenge:
    when three successive calls of [verifyOTP] each answer [Mismatch],
    the stored attempt counter stands at 3 (one increment per call) and
    the fourth call never answers [Verified], whatever candidate it
    presents, the stored code included; it deletes the challenge.  Its
    answer is [Exhausted] when the challenge has not passed its expiry
    and [Expired] when it has: the expiry is tested before the
    attempts.  Every later call finds no challenge. *)
Theorem verifyOTP_fourth_attempt email w1 w2 w3 cand t1 t2 t3 t4
    (st s1 s2 s3 : Store) :
  wf st →
  verifyOTP email w1 t1 st = (Mismatch, s1) →
  verifyOTP email w2 t2 s1 = (Mismatch, s2) →
  verifyOTP email w3 t3 s2 = (Mismatch, s3) →
  ∃ c,
    st !! email = Some c ∧ attempts c = 0 ∧
    s1 !! email = Some (mkChallenge (otp c) (expiresAt c) 1) ∧
    s2 !! email = Some (mkChallenge (otp c) (expiresAt c) 2) ∧
    s3 !! email = Some (mkChallenge (otp c) (expiresAt c) 3) ∧
    (verifyOTP email cand t4 s3).1 ≠ Verified ∧
    (verifyOTP email (otp c) t4 s3).1 ≠ Verified ∧
    (verifyOTP email cand t4 s3).2 = delete email s3 ∧
    (t4 <= expiresAt c →
       verifyOTP email cand t4 s3 = (Exhausted, delete email s3) ∧
       verifyOTP email (otp c) t4 s3 = (Exhausted, delete email s3)) ∧
    (expiresAt c < t4 →
       verifyOTP email cand t4 s3 = (Expired, delete email s3) ∧
       verifyOTP email (otp c) t4 s3 = (Expired, delete email s3)) ∧
    (∀ cand' t5,
       verifyOTP email cand' t5 (delete email s3) = (NotFound, delete email s3)).
Proof.
  intros Hwf H1 H2 H3.
  apply verifyOTP_Mismatch_inv in H1 as (c & Hc & Ht1 & Ha1 & Hw1 & E1).
  assert (L1 : s1 !! email = Some (mkChallenge (otp c) (expiresAt c) (attempts c + 1)))
    by (rewrite E1; apply lookup_insert_eq).
  apply verifyOTP_Mismatch_inv in H2 as (c1 & Hc1 & Ht2 & Ha2 & Hw2 & E2).
  rewrite L1 in Hc1. injection Hc1 as <-. simpl in *.
  assert (L2 : s2 !! email = Some (mkChallenge (otp c) (expiresAt c) (attempts c + 1 + 1)))
    by (rewrite E2; apply lookup_insert_eq).
  apply verifyOTP_Mismatch_inv in H3 as (c2 & Hc2 & Ht3 & Ha3 & Hw3 & E3).
  rewrite L2 in Hc2. injection Hc2 as <-. simpl in *.
  assert (Hs3 : s3 !! email
                = Some (mkChallenge (otp c) (expiresAt c) (attempts c + 1 + 1 + 1)))
    by (rewrite E3; apply lookup_insert_eq).
  pose proof (Hwf _ _ Hc) as Hge.
  assert (Ha : attempts c = 0) by lia.
  rewrite Ha in L1, L2, Hs3. simpl in L1, L2, Hs3.
  clear E1 E2 E3.
  assert (Hfourth : ∀ x,
            verifyOTP email x t4 s3 =
              (if t4 >? expiresAt c then Expired else Exhausted, delete email s3)).
  { intros x. destruct (Z.gtb_spec t4 (expiresAt c)).
    - by apply (verifyOTP_expired _ _ _ _ _ Hs3).
    - apply (verifyOTP_exhausted _ _ _ _ _ Hs3); simpl; lia. }
  exists c. do 5 (split; [done|]).
  split; [rewrite Hfourth; simpl; by destruct (t4 >? expiresAt c)|].
  split; [rewrite Hfourth; simpl; by destruct (t4 >? expiresAt c)|].
  split; [by rewrite Hfourth|].
  split; [|split].
  - intros Hle. rewrite !Hfourth.
    by replace (t4 >? expiresAt c) with false by lia.
  - intros Hlt. rewrite !Hfourth.
    by replace (t4 >? expiresAt c) with true by lia.
  - intros cand' t5. apply verifyOTP_absent, lookup_delete_eq.
Qed.

(** C2, as stated, fails: a fourth call made after the expiry of the
    challenge, here with the stored code and after three wrong
    attempts, is answered [Expired] and not [Exhausted]. *)
Lemma verifyOTP_fourth_after_expiry :
  verifyOTP "a@b.com" "000000" 1000 Samples.issued = (Mismatch, Samples.after1) ∧
  verifyOTP "a@b.com" "000000" 2000 Samples.after1 = (Mismatch, Samples.after2) ∧
  verifyOTP "a@b.com" "000000" 3000 Samples.after2 = (Mismatch, Samples.after3) ∧
  verifyOTP "a@b.com" "123456" 601000 Samples.after3
    = (Expired, delete "a@b.com" Samples.after3) ∧
  (verifyOTP "a@b.com" "123456" 601000 Samples.after3).1 ≠ Exhausted.
Proof.
  split; [vm_compute; reflexivity|].
  split; [vm_compute; reflexivity|].
  split; [vm_compute; reflexivity|].
  split; [vm_compute; reflexivity|].
  vm_compute. discriminate.
Qed.

(** C7.  [storeOTP] sets the expiry of a challenge to the instant of issue
    plus 10 minutes, with no attempt made.  For a challenge with fewer
    than 3 attempts, [verifyOTP] with the stored code answers [Verified]
    one second before the expiry and at the expiry instant itself (the
    test is [now > expiresAt]); one second after the expiry it answers
    [Expired], whatever the candidate, and deletes the challenge. *)
Theorem challenge_expiry email code cand t0 (st0 st : Store) c :
  st !! email = Some c → attempts c < 3 →
  storeOTP email code t0 st0 !! email
    = Some (mkChallenge code (t0 + 600000) 0) ∧
  verifyOTP email (otp c) (expiresAt c - 1000) st = (Verified, delete email st) ∧
  verifyOTP email (otp c) (expiresAt c) st = (Verified, delete email st) ∧
  verifyOTP email cand (expiresAt c + 1000) st = (Expired, delete email st) ∧
  delete email st !! email = None.
Proof.
  intros Hc Ha. split; [apply lookup_insert_eq|].
  split; [apply (verifyOTP_correct _ _ _ _ Hc); lia|].
  split; [apply (verifyOTP_correct _ _ _ _ Hc); lia|].
  split; [apply (verifyOTP_expired _ _ _ _ _ Hc); lia|].
  apply lookup_delete_eq.
Qed.

Lemma of_Z_100000 :
  Number.of_Z 100000 = S754_finite false 6871947673600000 (-36).
Proof. reflexivity. Qed.

Lemma of_Z_900000 :
  Number.of_Z 900000 = S754_finite false 7730941132800000 (-33).
Proof. reflexivity. Qed.

(** A positive value of [Math.random()] has at most 53 bits and an
    exponent that makes it less than 1. *)
Lemma unit_interval_finite s m e :
  Number.unit_interval (S754_finite s m e) = true →
  s = false ∧ Z.pos m < 2 ^ 53 ∧ -1074 <= e <= -53.
Proof.
  unfold Number.unit_interval, bounded, canonical_mantissa. rewrite fexp_eq.
  intros H. apply andb_true_iff in H as [H H3].
  apply andb_true_iff in H as [H1 H2].
  apply andb_true_iff in H2 as [H2 _].
  apply negb_true_iff in H1. apply Z.eqb_eq in H2. apply Z.leb_le in H3.
  split; [done|].
  pose proof (digits2_pos_bounds m) as [_ Hhi].
  assert (Hd : Z.pos (digits2_pos m) <= 53) by lia.
  split; [|lia].
  eapply Z.lt_le_trans; [exact Hhi|]. apply pow2_le. lia.
Qed.

(** The rounded product [Math.random() * 900000] is [+0] or positive,
    and at most [900000 - 2^-33], the number below 900000. *)
Lemma product_below (random : Number.Random) :
  below (Number.mul (Number.value random) (Number.of_Z 900000))
    7730941132799999 (-33).
Proof.
  destruct random as [x Hx]. cbn [Number.value]. rewrite of_Z_900000.
  destruct x as [s|s| |s m e]; try discriminate.
  - simpl in Hx. apply negb_true_iff in Hx as ->. done.
  - apply unit_interval_finite in Hx as (-> & Hm & He).
    apply mul_upper; [unfold bias; lia|done|lia|].
    unfold scaled.
    replace (-33 + bias) with (53 + (-53 - e) + (e + -33 + bias))
      by (unfold bias; lia).
    rewrite (pow2_add (53 + (-53 - e)) (e + -33 + bias)) by (unfold bias; lia).
    rewrite (pow2_add 53 (-53 - e)) by lia.
    pose proof (pow2_pos (e + -33 + bias) ltac:(unfold bias; lia)) as P1.
    pose proof (pow2_pos (-53 - e) ltac:(lia)) as P2.
    change (2 ^ 53) with 9007199254740992 in *.
    assert (H : 2 * (Z.pos m * 7730941132800000)
                < (2 * 7730941132799999 + 1) * (9007199254740992 * 2 ^ (-53 - e)))
      by nia.
    apply (Z.mul_lt_mono_pos_r (2 ^ (e + -33 + bias))) in H; [|done].
    lia.
Qed.

(** Adding 100000 to such a product and rounding gives a number from
    100000 to [1000000 - 2^-33], whose integer part has six digits. *)
Lemma sum_floor (x : spec_float) :
  below x 7730941132799999 (-33) →
  ∃ n, 100000 <= n <= 999999 ∧
       Number.floor_toString (Number.add (Number.of_Z 100000) x) = toString n.
Proof.
  intros Hx. rewrite of_Z_100000.
  destruct x as [[|]|s| |[|] m e]; try done.
  - exists 100000. split; [lia|reflexivity].
  - destruct Hx as [He Hle].
    assert (HT : 0 < 2 ^ (-36 + bias)) by (apply pow2_pos; unfold bias; lia).
    assert (H8 : 2 ^ (-33 + bias) = 8 * 2 ^ (-36 + bias)).
    { replace (-33 + bias) with (3 + (-36 + bias)) by lia.
      rewrite (pow2_add 3 (-36 + bias)) by (unfold bias; lia). reflexivity. }
    assert (Hb : 2 ^ bias = 68719476736 * 2 ^ (-36 + bias)).
    { replace bias with (36 + (-36 + bias)) at 1 by lia.
      rewrite (pow2_add 36 (-36 + bias)) by (unfold bias; lia). reflexivity. }
    assert (H0 : 0 <= scaled (Z.pos m) e).
    { unfold scaled. apply Z.mul_nonneg_nonneg; [lia|].
      apply Z.lt_le_incl, pow2_pos. lia. }
    destruct (add_between 6871947673600000 (-36) m e
                6871947673600000 (-36) 8589934591999999 (-33))
      as (m' & e' & -> & He' & Hlo & Hhi).
    + unfold bias. lia.
    + done.
    + split; vm_compute; [discriminate|reflexivity].
    + lia.
    + split; vm_compute; [discriminate|reflexivity].
    + lia.
    + lia.
    + unfold scaled in *. rewrite H8 in *. lia.
    + exists (Z.shiftl (Z.pos m') e'). split; [|reflexivity].
      assert (Hfl : 100000 <= Z.shiftl (Z.pos m') e' < 1000000).
      { apply floor_bounds; [done|].
        unfold scaled in *. rewrite H8 in *. rewrite Hb. lia. }
      lia.
Qed.

Lemma generateOTP_integer (random : Number.Random) :
  ∃ n, 100000 <= n <= 999999 ∧ generateOTP random = toString n.
Proof. apply sum_floor, product_below. Qed.

Lemma toString_six_digits (n : Z) :
  100000 <= n <= 999999 → six_digits (toString n).
Proof.
  intros Hn. rewrite (toString_six n Hn).
  exists (n / 100000), (n / 10000 mod 10), (n / 1000 mod 10),
         (n / 100 mod 10), (n / 10 mod 10), (n mod 10).
  repeat split; try reflexivity; Z.div_mod_to_equations; lia.
Qed.

(** The value [K / 2^53] of [Math.random()], for [0 < K < 2^53]. *)
Lemma grid_random K :
  0 < K < 2 ^ 53 →
  ∃ (random : Number.Random) m e,
    Number.value random = S754_finite false m e ∧ -106 <= e <= -53 ∧
    scaled (Z.pos m) e = scaled K (-53).
Proof.
  intros HK.
  destruct (normalize K (-53) HK) as (m & e & Hm & He & Hs); [unfold bias; lia|].
  assert (Hpos : 0 < m) by (change (2 ^ 52) with 4503599627370496 in Hm; lia).
  assert (Hd : Z.pos (digits2_pos (Z.to_pos m)) = 53).
  { apply digits2_pos_eq. rewrite Z2Pos.id by done. done. }
  assert (Hu : Number.unit_interval (S754_finite false (Z.to_pos m) e) = true).
  { unfold Number.unit_interval, bounded, canonical_mantissa. rewrite Hd, fexp_eq.
    simpl negb. rewrite andb_true_l.
    apply andb_true_iff. split; [apply andb_true_iff; split|].
    - apply Z.eqb_eq. lia.
    - apply Z.leb_le. unfold Number.emax, Number.prec. lia.
    - apply Z.leb_le. lia. }
  exists (Number.mkRandom _ Hu), (Z.to_pos m), e.
  split; [done|]. split; [lia|]. by rewrite Z2Pos.id.
Qed.

Lemma generateOTP_onto n :
  100000 <= n <= 999999 → ∃ random : Number.Random, generateOTP random = toString n.
Proof.
  intros Hn.
  set (j := n - 100000).
  set (K := ((2 * j + 1) * 2 ^ 53) / 1800000).
  assert (HK : 1800000 * K <= (2 * j + 1) * 2 ^ 53 < 1800000 * K + 1800000).
  { unfold K. change (2 ^ 53) with 9007199254740992.
    Z.div_mod_to_equations. lia. }
  change (2 ^ 53) with 9007199254740992 in HK.
  assert (HK53 : 0 < K < 2 ^ 53).
  { change (2 ^ 53) with 9007199254740992. unfold j in *. lia. }
  destruct (grid_random K HK53) as (random & m & e & Hv & He & Hs).
  exists random. unfold generateOTP. rewrite Hv, of_Z_900000, of_Z_100000.
  (* powers of 2 in terms of one unit *)
  set (U := 2 ^ (bias - 55)).
  assert (HU : 0 < U) by (apply pow2_pos; unfold bias; lia).
  assert (P53 : 2 ^ (-53 + bias) = 4 * U).
  { unfold U. replace (-53 + bias) with (2 + (bias - 55)) by lia.
    by rewrite (pow2_add 2) by (unfold bias; lia). }
  assert (P2 : 2 ^ (-2 + bias) = 9007199254740992 * U).
  { unfold U. replace (-2 + bias) with (53 + (bias - 55)) by lia.
    by rewrite (pow2_add 53) by (unfold bias; lia). }
  assert (P1 : 2 ^ (-1 + bias) = 18014398509481984 * U).
  { unfold U. replace (-1 + bias) with (54 + (bias - 55)) by lia.
    by rewrite (pow2_add 54) by (unfold bias; lia). }
  assert (P0 : 2 ^ bias = 36028797018963968 * U).
  { unfold U. replace bias with (55 + (bias - 55)) at 1 by lia.
    by rewrite (pow2_add 55) by (unfold bias; lia). }
  assert (P36 : 2 ^ (-36 + bias) = 524288 * U).
  { unfold U. replace (-36 + bias) with (19 + (bias - 55)) by lia.
    by rewrite (pow2_add 19) by (unfold bias; lia). }
  (* the product *)
  assert (HP : scaled (Z.pos m * 7730941132800000) (e + -33) = 3600000 * K * U).
  { unfold scaled in *. rewrite P53 in Hs.
    replace (e + -33 + bias) with ((e + bias - 33)) by lia.
    assert (H33 : 2 ^ (e + bias) = 8589934592 * 2 ^ (e + bias - 33)).
    { replace (e + bias) with (33 + (e + bias - 33)) at 1 by lia.
      by rewrite (pow2_add 33) by (unfold bias; lia). }
    rewrite H33 in Hs. lia. }
  destruct (mul_between m e 7730941132800000 (-33) (4 * j + 1) (-2) (2 * j + 1) (-1))
    as (mx & ex & -> & Hex & Hxlo & Hxhi).
  { unfold bias. lia. }
  { change (2 ^ 53) with 9007199254740992. unfold j. lia. }
  { lia. }
  { change (2 ^ 53) with 9007199254740992. unfold j. lia. }
  { lia. }
  { change (Z.pos 7730941132800000) with 7730941132800000. rewrite HP.
    unfold scaled. rewrite P2, P1. unfold j in *. nia. }
  (* the sum *)
  destruct (add_between_le 6871947673600000 (-36) mx ex
              (4 * n + 1) (-2) (2 * n + 1) (-1))
    as (m' & e' & -> & He' & Hlo & Hhi).
  { unfold bias. lia. }
  { done. }
  { change (2 ^ 53) with 9007199254740992. lia. }
  { lia. }
  { change (2 ^ 53) with 9007199254740992. lia. }
  { lia. }
  { unfold scaled in *. rewrite P2, P1, P36 in *. unfold j in *. nia. }
  simpl. f_equal.
  assert (Hfl : n <= Z.shiftl (Z.pos m') e' < n + 1).
  { apply floor_bounds; [done|].
    unfold scaled in *. rewrite P2, P1 in *. rewrite P0. nia. }
  lia.
Qed.

(** C4, as the code has it.  For every value of [Math.random()], a
    binary64 number with 0 <= random < 1, [generateOTP] returns the
    decimal form of an integer between 100000 and 999999: six digits, the
    first of which is never 0.  Both ends are reached: the least value
    of [Math.random()] gives 100000 and the greatest gives 999999; and
    every integer between them is the output for some value of
    [Math.random()]. *)
Theorem generateOTP_range :
  (∀ random : Number.Random,
     ∃ n, 100000 <= n <= 999999 ∧ generateOTP random = toString n
          ∧ six_digits (generateOTP random)) ∧
  generateOTP Number.least = "100000" ∧
  generateOTP Number.greatest = "999999" ∧
  (∀ n, 100000 <= n <= 999999 →
     ∃ random : Number.Random, generateOTP random = toString n).
Proof.
  split; [|split; [reflexivity|split; [reflexivity|apply generateOTP_onto]]].
  intros random.
  destruct (generateOTP_integer random) as (n & Hn & Hgen).
  exists n. split; [done|]. split; [done|].
  rewrite Hgen. by apply toString_six_digits.
Qed.

(** C4, as stated, fails: the six-character decimal string ["012345"],
    which begins with 0, is not an output of [generateOTP] for any value
    of [Math.random()]. *)
Lemma generateOTP_no_leading_zero :
  ¬ ∃ random : Number.Random, generateOTP random = "012345".
Proof.
  intros (random & Hgen).
  destruct (generateOTP_integer random) as (n & Hr & Hn).
  rewrite Hn, (toString_six _ Hr) in Hgen.
  assert (Hd : digit_char (n / 100000) = "0"%char) by congruence.
  assert (Hq : 1 <= n / 100000 <= 9) by (Z.div_mod_to_equations; lia).
  apply digit_char_zero in Hd; lia.
Qed.

End OTPClaims.

(** ** The rate limiter *)
Module RateLimitFacts.
Import Http RateLimit.

Lemma rateLimitOTP_opens ip now st :
  opens_window ip now st →
  rateLimitOTP ip now st = (Next (), <[ip := mkClientData 1 (now + 60000)]> st).
Proof.
  unfold opens_window, rateLimitOTP. intros H.
  destruct (st !! ip) as [d|] eqn:Hd; simpl.
  - replace (now >? resetTime d) with true by lia. simpl.
    by rewrite insert_insert_eq.
  - by destruct (now >? now + 60 * 1000).
Qed.

Lemma rateLimitOTP_within ip now st d :
  st !! ip = Some d → now <= resetTime d → count d < 3 →
  rateLimitOTP ip now st
    = (Next (), <[ip := mkClientData (count d + 1) (resetTime d)]> st).
Proof.
  intros Hd Hnow Hcount. unfold rateLimitOTP. rewrite Hd. simpl.
  replace (now >? resetTime d) with false by lia.
  replace (count d >=? 3) with false by lia.
  by rewrite insert_insert_eq.
Qed.

Lemma rateLimitOTP_denied ip now st d :
  st !! ip = Some d → now <= resetTime d → 3 <= count d →
  rateLimitOTP ip now st = (Respond tooMany, st).
Proof.
  intros Hd Hnow Hcount. unfold rateLimitOTP. rewrite Hd. simpl.
  replace (now >? resetTime d) with false by lia.
  replace (count d >=? 3) with true by lia.
  by rewrite (insert_id _ _ _ Hd).
Qed.

(** Requests of other clients leave the entry of a client alone. *)
Lemma rateLimitOTP_frame ip ip' now st :
  ip' ≠ ip → (rateLimitOTP ip' now st).2 !! ip = st !! ip.
Proof.
  intros Hne. unfold rateLimitOTP.
  destruct (st !! ip') as [d|]; simpl;
    repeat match goal with
           | |- context [if ?b then _ else _] => destruct b; simpl
           end;
    by rewrite ?lookup_insert_ne by done.
Qed.

Lemma serve_denied ip times st d :
  st !! ip = Some d → 3 <= count d →
  Forall (λ t, t <= resetTime d) times →
  serve ip times st = (map (λ _, false) times, st).
Proof.
  intros Hd Hcount Hall. induction Hall as [|t ts Ht _ IH]; simpl; [done|].
  rewrite (rateLimitOTP_denied _ _ _ _ Hd Ht Hcount). by rewrite IH.
Qed.

Lemma limiter_wf_empty : wf ∅.
Proof. intros ip d H. rewrite lookup_empty in H. discriminate. Qed.

Lemma limiter_wf_insert ip d st :
  wf st → 0 <= count d <= 3 → wf (<[ip := d]> st).
Proof.
  intros Hwf Hd ip' d'. destruct (decide (ip = ip')) as [->|Hne].
  - rewrite lookup_insert_eq. by intros [= <-].
  - rewrite lookup_insert_ne by done. apply Hwf.
Qed.

(** The counters stay between 0 and the limit. *)
Lemma wf_rateLimitOTP ip now st : wf st → wf (rateLimitOTP ip now st).2.
Proof.
  intros Hwf. unfold rateLimitOTP.
  destruct (st !! ip) as [d|] eqn:Hd; simpl.
  - pose proof (Hwf _ _ Hd) as Hc.
    destruct (now >? resetTime d); simpl.
    + apply limiter_wf_insert; [apply limiter_wf_insert|]; simpl; done || lia.
    + destruct (count d >=? 3) eqn:Hlim; simpl.
      * by apply limiter_wf_insert.
      * apply limiter_wf_insert; [by apply limiter_wf_insert|]. simpl. lia.
  - destruct (now >? now + 60 * 1000); simpl; apply limiter_wf_insert; simpl; done || lia.
Qed.

Lemma wf_serve ip times st : wf st → wf (serve ip times st).2.
Proof.
  revert st. induction times as [|t ts IH]; intros st Hwf; simpl; [done|].
  pose proof (wf_rateLimitOTP ip t st Hwf) as H1.
  destruct (rateLimitOTP ip t st) as [o st1]. simpl in H1.
  specialize (IH st1 H1). destruct (serve ip ts st1) as [os st2]. done.
Qed.

(** C8.  When a request of a client opens a window at [t0], the requests
    of that client up to the reset time [t0 + 60 s] are answered as
    follows: the first three are let through, the fourth and all later
    ones are refused.  The first request after the reset time is let
    through again with the counter back at 1 and a new reset time.  The
    counters, which start from the empty map, always lie between 0 and
    3, so are never negative. *)
Theorem rate_limit_window ip t0 t1 t2 (later : list Z) t' (st : Store) :
  opens_window ip t0 st →
  t1 <= t0 + 60000 → t2 <= t0 + 60000 →
  Forall (λ t, t <= t0 + 60000) later →
  t0 + 60000 < t' →
  (serve ip (t0 :: t1 :: t2 :: later) st).1
    = true :: true :: true :: map (λ _, false) later ∧
  (serve ip (t0 :: t1 :: t2 :: later) st).2 !! ip
    = Some (mkClientData 3 (t0 + 60000)) ∧
  rateLimitOTP ip t' (serve ip (t0 :: t1 :: t2 :: later) st).2
    = (Next (), <[ip := mkClientData 1 (t' + 60000)]>
                  (serve ip (t0 :: t1 :: t2 :: later) st).2) ∧
  (wf st → wf (serve ip (t0 :: t1 :: t2 :: later) st).2
           ∧ wf (rateLimitOTP ip t' (serve ip (t0 :: t1 :: t2 :: later) st).2).2).
Proof.
  intros Hopen Ht1 Ht2 Hlater Ht'.
  assert (Hserve : serve ip (t0 :: t1 :: t2 :: later) st
            = (true :: true :: true :: map (λ _, false) later,
               <[ip := mkClientData 3 (t0 + 60000)]> st)).
  { cbn [serve]. rewrite (rateLimitOTP_opens _ _ _ Hopen).
    rewrite (rateLimitOTP_within ip t1 _ (mkClientData 1 (t0 + 60000)))
      by (apply lookup_insert_eq || (simpl; lia)).
    rewrite (rateLimitOTP_within ip t2 _ (mkClientData (1 + 1) (t0 + 60000)))
      by (apply lookup_insert_eq || (simpl; lia)).
    rewrite (serve_denied ip later _ (mkClientData (1 + 1 + 1) (t0 + 60000)))
      by (apply lookup_insert_eq || done || (simpl; lia)).
    simpl. by rewrite !insert_insert_eq. }
  rewrite Hserve. simpl.
  split; [done|]. split; [apply lookup_insert_eq|]. split.
  - apply rateLimitOTP_opens. unfold opens_window.
    rewrite lookup_insert_eq. simpl. lia.
  - intros Hwf. split.
    + apply limiter_wf_insert; [done | simpl; lia].
    + apply wf_rateLimitOTP. apply limiter_wf_insert; [done | simpl; lia].
Qed.

End RateLimitFacts.

(** ** The user collection *)
Module UserFacts.
Import Js Jsonwebtoken UserModel.

Lemma length_replaceOne u (db : Collection) :
  length (replaceOne u db) = length db.
Proof. unfold replaceOne. apply length_map. Qed.

Lemma ids_replaceOne u (db : Collection) :
  map _id (replaceOne u db) = map _id db.
Proof.
  unfold replaceOne. induction db as [|x db IH]; simpl; [done|].
  rewrite IH. by case_bool_decide; [f_equal|].
Qed.

(** A document that does not carry the identifier of [u] is not touched
    by [replaceOne u]. *)
Lemma replaceOne_other u (db : Collection) x :
  In x (replaceOne u db) → _id x ≠ _id u → In x db.
Proof.
  unfold replaceOne. rewrite in_map_iff. intros (y & Hy & Hin) Hne.
  case_bool_decide; subst; [congruence | done].
Qed.

Lemma replaceOne_absent u (db : Collection) :
  (∀ x, In x db → _id x ≠ _id u) → replaceOne u db = db.
Proof.
  unfold replaceOne. induction db as [|x db IH]; intros H; simpl; [done|].
  rewrite bool_decide_eq_false_2 by (apply H; by left).
  f_equal. apply IH. intros y Hy. apply H. by right.
Qed.

(** The first document satisfying [p] keeps being found after it was
    replaced by a document that still satisfies [p]. *)
Lemma findOne_replaceOne_same (p : User → bool) u o (db : Collection) :
  findOne p db = Some o → _id o = _id u → p u = true →
  findOne p (replaceOne u db) = Some u.
Proof.
  unfold findOne, replaceOne. intros Hfind Hid Hp.
  induction db as [|x db IH]; simpl in *; [discriminate|].
  destruct (p x) eqn:Hx.
  - injection Hfind as ->. rewrite bool_decide_eq_true_2 by done. by rewrite Hp.
  - case_bool_decide; [by rewrite Hp|]. rewrite Hx. by apply IH.
Qed.

(** A document found through [q] and replaced by one that satisfies [p]
    is the first to satisfy [p] when no document did before. *)
Lemma findOne_replaceOne_new (p q : User → bool) u o (db : Collection) :
  findOne p db = None → findOne q db = Some o → _id o = _id u → p u = true →
  findOne p (replaceOne u db) = Some u.
Proof.
  unfold findOne, replaceOne. intros Hnone Hfind Hid Hp.
  induction db as [|x db IH]; simpl in *; [discriminate|].
  destruct (p x) eqn:Hx; [discriminate|].
  destruct (q x) eqn:Hq.
  - injection Hfind as ->. rewrite bool_decide_eq_true_2 by done. by rewrite Hp.
  - case_bool_decide; [by rewrite Hp|]. rewrite Hx. by apply IH.
Qed.

Lemma findOne_app_new (p : User → bool) u (db : Collection) :
  findOne p db = None → p u = true → findOne p (db ++ [u]) = Some u.
Proof.
  unfold findOne. intros Hnone Hp.
  induction db as [|x db IH]; simpl in *; [by rewrite Hp|].
  destruct (p x); [discriminate|]. by apply IH.
Qed.

Lemma findOne_Some (p : User → bool) o (db : Collection) :
  findOne p db = Some o → In o db ∧ p o = true.
Proof. apply find_some. Qed.

Lemma findOne_None_existsb (p r : User → bool) (db : Collection) :
  findOne p db = None → existsb (λ x, r x && p x) db = false.
Proof.
  unfold findOne. induction db as [|x db IH]; simpl; [done|].
  destruct (p x); [discriminate|]. intros H. rewrite (IH H).
  by rewrite andb_false_r.
Qed.

Lemma findById_Some uid o (db : Collection) :
  findById uid db = Some o → In o db ∧ _id o = uid.
Proof.
  intros H. apply findOne_Some in H as [Hin Hp].
  split; [done|]. by apply bool_decide_eq_true in Hp.
Qed.

Lemma findById_replaceOne u o (db : Collection) :
  findById (_id u) db = Some o → findById (_id u) (replaceOne u db) = Some u.
Proof.
  intros H. pose proof (findById_Some _ _ _ H) as [_ Hid].
  unfold findById. eapply findOne_replaceOne_same; eauto.
  by rewrite bool_decide_eq_true_2.
Qed.

Section Save.
Variable bcrypt_hash : string → string → string.

Lemma save_Throw orig u salt now (db db' : Collection) e :
  save bcrypt_hash orig u salt now db = (Throw e, db') → db' = db.
Proof.
  unfold save. destruct (validate _ _); [|by intros [= _ <-]].
  destruct (preSave _ _ _ _); [|by intros [= _ <-]].
  match goal with |- context [if ?b then _ else _] => destruct b end;
    [by intros [= _ <-] | discriminate].
Qed.

(** Saving leaves every other document as it is and neither adds nor
    removes one. *)
Lemma save_shape orig u salt now (db db' : Collection) r :
  save bcrypt_hash orig u salt now db = (r, db') →
  map _id db' = map _id db.
Proof.
  unfold save. destruct (validate _ _); [|by intros [= _ <-]].
  destruct (preSave _ _ _ _); [|by intros [= _ <-]].
  match goal with |- context [if ?b then _ else _] => destruct b end;
    intros [= _ <-]; [done|].
  apply ids_replaceOne.
Qed.

Lemma stamped_fields orig u now :
  _id (stamped orig u now) = _id u ∧
  email (stamped orig u now) = email u ∧
  password (stamped orig u now) = password u ∧
  googleId (stamped orig u now) = googleId u ∧
  isVerified (stamped orig u now) = isVerified u ∧
  verificationToken (stamped orig u now) = verificationToken u ∧
  resetPasswordToken (stamped orig u now) = resetPasswordToken u ∧
  resetPasswordExpires (stamped orig u now) = resetPasswordExpires u ∧
  profile (stamped orig u now) = profile u ∧
  lastLogin (stamped orig u now) = lastLogin u ∧
  createdAt (stamped orig u now) = createdAt u.
Proof. unfold stamped. by case_bool_decide. Qed.

(** A save that leaves password and e-mail address as loaded, of a
    document that has a password or a Google identifier, succeeds unless
    it would duplicate a Google identifier. *)
Lemma save_plain orig u salt now (db : Collection) :
  password u = password orig →
  email u = email orig →
  (falsy (googleId u) = true → falsy (password u) = false) →
  (googleId u = googleId orig
   ∨ ∃ g, googleId u = Some g ∧ findByGoogleId g db = None) →
  save bcrypt_hash orig u salt now db
    = (Ok (stamped orig u now), replaceOne (stamped orig u now) db).
Proof.
  intros Hpw Hem Hreq Hgid. unfold save, validate, preSave.
  assert (Hmod : isModified_password (Some orig) u = false).
  { unfold isModified_password. apply bool_decide_eq_false. by intros []. }
  rewrite Hmod. simpl.
  assert (Hval : falsy (googleId u) && falsy (password u) = false).
  { destruct (falsy (googleId u)); [by rewrite Hreq | done]. }
  rewrite Hval. fold (stamped orig u now).
  pose proof (stamped_fields orig u now) as (Hi & He & _ & Hg & _).
  rewrite He, Hem, Hg. rewrite (bool_decide_eq_true_2 (email orig = email orig)) by done.
  simpl. rewrite orb_false_r.
  destruct Hgid as [Heq | (g & Hsome & Hnone)].
  - rewrite Heq. by rewrite (bool_decide_eq_true_2 (googleId orig = googleId orig)).
  - assert (Hex : existsb (λ x, negb (bool_decide (_id x = _id (stamped orig u now)))
                               && same_googleId (stamped orig u now) x) db = false).
    { unfold same_googleId. rewrite Hg, Hsome.
      by apply findOne_None_existsb. }
    rewrite Hex. by rewrite andb_false_r.
Qed.

End Save.

End UserFacts.

Module SaveFacts.
Import Js Jsonwebtoken UserModel UserFacts.

Section Save.
Variable bcrypt_hash : string → string → string.

Lemma save_Ok_inv orig u salt now (db db' : Collection) u2 :
  save bcrypt_hash orig u salt now db = (Ok u2, db') →
  db' = replaceOne u2 db ∧
  _id u2 = _id u ∧ email u2 = email u ∧ googleId u2 = googleId u ∧
  isVerified u2 = isVerified u ∧
  verificationToken u2 = verificationToken u ∧
  resetPasswordToken u2 = resetPasswordToken u ∧
  resetPasswordExpires u2 = resetPasswordExpires u ∧
  profile u2 = profile u ∧ lastLogin u2 = lastLogin u ∧
  createdAt u2 = createdAt u ∧
  password u2 = stored_password bcrypt_hash orig u salt.
Proof.
  unfold save, stored_password. destruct (validate _ _); [|discriminate].
  unfold preSave.
  destruct (isModified_password (Some orig) u); simpl.
  - destruct (password u) as [p|] eqn:Hp; [|discriminate].
    match goal with |- context [if ?b then (Throw _, _) else _] => destruct b end;
      [discriminate|].
    intros [= <- <-]. by case_bool_decide.
  - match goal with |- context [if ?b then (Throw _, _) else _] => destruct b end;
      [discriminate|].
    intros [= <- <-]. by case_bool_decide.
Qed.

(** A save that succeeds has passed the validation of the schema: a
    document without Google identifier has a password. *)
Lemma save_Ok_valid orig u salt now (db db' : Collection) u2 :
  save bcrypt_hash orig u salt now db = (Ok u2, db') →
  falsy (googleId u) && falsy (password u) = false.
Proof.
  unfold save, validate.
  destruct (falsy (googleId u) && falsy (password u)); [discriminate|done].
Qed.

Variable email_match : string → bool.

Lemma create_Ok_valid oid em pw gid ver prof salt now (db db' : Collection) u1 :
  create bcrypt_hash email_match oid em pw gid ver prof salt now db = (Ok u1, db') →
  falsy gid && falsy pw = false.
Proof.
  unfold create. destruct em as [e|]; [|discriminate].
  case_bool_decide; [discriminate|].
  destruct (email_match _); [|discriminate]. simpl.
  unfold validate. simpl.
  destruct (falsy gid && falsy pw); [discriminate|done].
Qed.

Lemma create_Ok_inv oid em pw gid ver prof salt now (db db' : Collection) u1 :
  create bcrypt_hash email_match oid em pw gid ver prof salt now db = (Ok u1, db') →
  db' = db ++ [u1] ∧ _id u1 = oid ∧ googleId u1 = gid ∧ isVerified u1 = ver ∧
  profile u1 = prof ∧ lastLogin u1 = now ∧
  resetPasswordToken u1 = None ∧
  (∃ e, em = Some e ∧ email u1 = email_setters e) ∧
  (pw = None → password u1 = None).
Proof.
  unfold create. destruct em as [e|]; [|discriminate].
  case_bool_decide; [discriminate|].
  destruct (email_match _); [|discriminate]. simpl.
  destruct (validate _ _); [|discriminate].
  unfold preSave, isModified_password. simpl.
  destruct pw as [p|]; simpl.
  - rewrite ?bool_decide_eq_true_2 by done. simpl.
    match goal with |- context [if ?b then (Throw _, _) else _] => destruct b end;
      [discriminate|].
    intros [= <- <-]. simpl. repeat split; eauto. discriminate.
  - rewrite ?bool_decide_eq_false_2 by (by intros []). simpl.
    match goal with |- context [if ?b then (Throw _, _) else _] => destruct b end;
      [discriminate|].
    intros [= <- <-]. simpl. repeat split; eauto.
Qed.

Lemma create_Throw oid em pw gid ver prof salt now (db db' : Collection) e :
  create bcrypt_hash email_match oid em pw gid ver prof salt now db = (Throw e, db') →
  db' = db.
Proof.
  unfold create. destruct em as [a|]; [|by intros [= _ <-]].
  repeat match goal with
         | |- context [if ?b then (Throw _, _) else _] =>
             destruct b; [by intros [= _ <-]|]
         | |- context [match ?x with Ok _ => _ | Throw _ => _ end] =>
             destruct x; [|by intros [= _ <-]]
         end.
  discriminate.
Qed.

End Save.

End SaveFacts.

(** ** Tokens *)
Module TokenFacts.
Import Js Jsonwebtoken.

Lemma verify_Ok_inv token secret issuer audience now claims :
  verify token secret issuer audience now = Ok claims →
  token = Jws secret claims ∧ now / 1000 < exp claims
  ∧ aud claims = audience ∧ iss claims = issuer.
Proof.
  unfold verify. destruct token as [raw|key c]; [discriminate|].
  case_bool_decide as Hk; simpl; [|discriminate].
  destruct (now / 1000 >=? exp c) eqn:Hexp; [discriminate|].
  case_bool_decide as Ha; simpl; [|discriminate].
  case_bool_decide as Hi; simpl; [|discriminate].
  intros [= <-]. subst. repeat split; lia.
Qed.

Lemma verify_signed key claims now :
  now / 1000 < exp claims →
  aud claims = "talkai-users" → iss claims = "talkai-backend" →
  verify (Jws key claims) key "talkai-backend" "talkai-users" now = Ok claims.
Proof.
  intros Hexp Ha Hi. unfold verify.
  rewrite bool_decide_eq_true_2 by done. simpl.
  replace (now / 1000 >=? exp claims) with false by lia.
  rewrite Ha, Hi. reflexivity.
Qed.

End TokenFacts.

(** ** Claims on the controller *)
Module ControllerClaims.
Import Js Jsonwebtoken UserModel Http AuthController.
Import UserFacts SaveFacts TokenFacts.

Section Controller.
Variable secret : string.
Variable bcrypt_hash : string → string → string.
Variable bcrypt_compare : string → option string → string + bool.

Local Ltac refused := simpl; split; [reflexivity | intros; discriminate].

(** C10.  A signin that fails (missing field, unknown e-mail address,
    account without password, wrong password, error in the comparison,
    unverified account, or a save that is rejected) returns the user
    collection exactly as it was.  A signin that succeeds passed every
    check, and the collection differs only in the record of the user
    found, which has [lastLogin] set to [now] and [updatedAt] renewed. *)
Theorem signin_failure_frame email_ password_ salt now (db : Collection) :
  let r := signin secret bcrypt_hash bcrypt_compare email_ password_ salt now db in
  (success r.1 = false → r.2 = db) ∧
  (success r.1 = true →
     ∃ e p user,
       email_ = Some e ∧ password_ = Some p ∧
       findByEmail e db = Some user ∧
       falsy (password user) = false ∧
       comparePassword bcrypt_compare user p = Ok true ∧
       isVerified user = true ∧
       r.2 = replaceOne (stamped user (set_lastLogin now user) now) db ∧
       lastLogin (stamped user (set_lastLogin now user) now) = now).
Proof.
  unfold signin.
  destruct email_ as [e|], password_ as [p|]; try refused.
  destruct (falsy (Some e) || falsy (Some p)); [refused|].
  destruct (findByEmail e db) as [user|] eqn:Hfind; [|refused].
  destruct (falsy (password user)) eqn:Hpw; [refused|].
  destruct (comparePassword bcrypt_compare user p) as [[|]|msg] eqn:Hcmp;
    try refused.
  destruct (isVerified user) eqn:Hver; [|refused]. simpl negb. cbv iota.
  rewrite (save_plain bcrypt_hash user (set_lastLogin now user))
    by (done || by left).
  simpl. split; [discriminate|]. intros _.
  exists e, p, user. do 7 (split; [done|]).
  by destruct (stamped_fields user (set_lastLogin now user) now)
    as (_&_&_&_&_&_&_&_&_&->&_).
Qed.

(** C5.  When a completion of a password reset succeeds, the record of
    the user holds the new password (hashed by the save hook), and its
    reset token and expiry are cleared.  Any later completion
    presenting the same token is refused with status 400 and leaves
    the collection, hence the password, as it is. *)
Theorem resetPassword_single_use token pw1 pw2 salt1 salt2 now1 now2
    (db : Collection) :
  (resetPassword secret bcrypt_hash (Some token) (Some pw1) salt1 now1 db).1
    = ok "Password reset successfully" →
  let db1 :=
    (resetPassword secret bcrypt_hash (Some token) (Some pw1) salt1 now1 db).2 in
  (∃ user user1,
      findById (_id user) db = Some user ∧
      resetPasswordToken user = Some token ∧
      findById (_id user) db1 = Some user1 ∧
      password user1 = (if bool_decide (Some pw1 ≠ password user)
                        then Some (bcrypt_hash pw1 salt1) else Some pw1) ∧
      resetPasswordToken user1 = None ∧
      resetPasswordExpires user1 = Null) ∧
  (∃ msg,
      resetPassword secret bcrypt_hash (Some token) pw2 salt2 now2 db1
        = (failure 400 msg, db1)).
Proof.
  destruct (resetPassword secret bcrypt_hash (Some token) (Some pw1) salt1 now1 db)
    as [r1 db1] eqn:Hreset.
  simpl. intros ->.
  unfold resetPassword in Hreset.
  destruct (falsy_token (Some token) || falsy (Some pw1)); [discriminate|].
  destruct (String.length pw1 <? 6)%nat; [discriminate|].
  unfold JWT.verifyToken in Hreset.
  destruct (verify token secret "talkai-backend" "talkai-users" now1)
    as [decoded|msg] eqn:Hverify; simpl in Hreset; [|discriminate].
  apply verify_Ok_inv in Hverify as (Htok & Hexp & Haud & Hiss).
  case_bool_decide as Htype; simpl in Hreset; [|discriminate].
  destruct (findById (userId (payload decoded)) db) as [user|] eqn:Hfind;
    [|discriminate].
  case_bool_decide as Hstored; simpl in Hreset; [|discriminate].
  destruct (before (resetPasswordExpires user) now1); [discriminate|].
  destruct (save _ _ _ _ _ _) as [[user1|e] db1'] eqn:Hsave; [|discriminate].
  injection Hreset as <-.
  apply save_Ok_inv in Hsave
    as (-> & Hid & _ & _ & _ & _ & Htoken & Hexpires & _ & _ & _ & Hpass).
  simpl in Hid, Htoken, Hexpires, Hpass.
  pose proof (findById_Some _ _ _ Hfind) as [_ Huid].
  assert (Hfind1 : findById (userId (payload decoded)) (replaceOne user1 db)
                   = Some user1).
  { rewrite <- Huid, <- Hid. apply (findById_replaceOne user1 user).
    by rewrite Hid, Huid. }
  split.
  - exists user, user1. rewrite Huid. do 2 (split; [done|]).
    split; [done|]. split; [|done].
    rewrite Hpass. unfold stored_password, isModified_password. simpl.
    by case_bool_decide.
  - subst token. unfold resetPassword.
    destruct pw2 as [pw2|]; [|eexists; reflexivity].
    simpl. destruct (bool_decide (pw2 = "")); [eexists; reflexivity|].
    destruct (String.length pw2 <? 6)%nat; [eexists; reflexivity|].
    unfold JWT.verifyToken.
    destruct (verify (Jws secret decoded) secret "talkai-backend" "talkai-users" now2)
      as [decoded2|msg2] eqn:Hverify2; simpl; [|eexists; reflexivity].
    apply verify_Ok_inv in Hverify2 as (Htok2 & _).
    assert (decoded2 = decoded) as -> by congruence.
    rewrite (bool_decide_eq_true_2 _ Htype). simpl.
    rewrite Hfind1, Htoken. simpl. eexists; reflexivity.
Qed.

End Controller.

End ControllerClaims.

(** ** Claims on the user model *)
Module UserClaims.
Import Js Jsonwebtoken UserModel UserFacts SaveFacts.

Section Linker.
Variable bcrypt_hash : string → string → string.
Variable email_match : string → bool.

Local Abbreviation link := (findOrCreateGoogleUser bcrypt_hash email_match).

Lemma findByGoogleId_Some g o (db : Collection) :
  findByGoogleId g db = Some o → In o db ∧ googleId o = Some g.
Proof.
  intros H. apply findOne_Some in H as [Hin Hp].
  split; [done|]. by apply bool_decide_eq_true in Hp.
Qed.

(** A profile whose identifier is already linked: the record found is
    returned with [lastLogin] renewed. *)
Lemma link_linked profile oid salt now (db : Collection) o :
  findByGoogleId (id profile) db = Some o →
  (falsy (googleId o) = true → falsy (password o) = false) →
  link profile oid salt now db
    = (Ok (stamped o (set_lastLogin now o) now),
       replaceOne (stamped o (set_lastLogin now o) now) db).
Proof.
  intros Hfind Hvalid. unfold findOrCreateGoogleUser. rewrite Hfind.
  apply save_plain; try done. by left.
Qed.

(** The record a successful call returns has passed the validation of
    the schema: without Google identifier it has a password. *)
Lemma link_Ok_valid profile oid salt now (db db1 : Collection) u1 :
  link profile oid salt now db = (Ok u1, db1) →
  falsy (googleId u1) = true → falsy (password u1) = false.
Proof.
  unfold findOrCreateGoogleUser.
  assert (Hsaved : ∀ o u,
            password u = password o →
            save bcrypt_hash o u salt now db = (Ok u1, db1) →
            falsy (googleId u1) = true → falsy (password u1) = false).
  { intros o u Hpw Hsave Hg.
    pose proof (save_Ok_valid _ _ _ _ _ _ _ _ Hsave) as Hv.
    apply save_Ok_inv in Hsave as (_ & _ & _ & Hgid & _ & _ & _ & _ & _ & _ & _ & Hp).
    unfold stored_password, isModified_password in Hp.
    rewrite bool_decide_eq_false_2 in Hp by (intros H; by apply H).
    rewrite Hgid in Hg. rewrite Hg in Hv. simpl in Hv. by rewrite Hp. }
  destruct (findByGoogleId (id profile) db) as [o|]; [by apply Hsaved|].
  destruct (match emails profile with
            | e :: _ => findByEmail e db
            | [] => None
            end) as [o|]; [by apply Hsaved|].
  intros Hcreate Hg.
  pose proof (create_Ok_valid _ _ _ _ _ _ _ _ _ _ _ _ _ Hcreate) as Hv.
  apply create_Ok_inv in Hcreate as (_ & _ & Hgid & _).
  rewrite Hgid in Hg. rewrite Hg in Hv. discriminate.
Qed.

(** After a successful call the record returned is the one found
    under the identifier of the profile. *)
Lemma link_Ok_linked profile oid salt now (db db1 : Collection) u1 :
  link profile oid salt now db = (Ok u1, db1) →
  findByGoogleId (id profile) db1 = Some u1.
Proof.
  unfold findOrCreateGoogleUser.
  destruct (findByGoogleId (id profile) db) as [o|] eqn:Hg.
  - intros Hsave. apply save_Ok_inv in Hsave as (-> & Hid & _ & Hgid & _).
    simpl in Hid, Hgid. pose proof (findByGoogleId_Some _ _ _ Hg) as [_ Ho].
    unfold findByGoogleId. eapply findOne_replaceOne_same; eauto.
    apply bool_decide_eq_true. congruence.
  - set (byEmail := match emails profile with
                    | e :: _ => findByEmail e db
                    | [] => None
                    end).
    destruct byEmail as [o|] eqn:He.
    + intros Hsave. apply save_Ok_inv in Hsave as (-> & Hid & _ & Hgid & _).
      simpl in Hid, Hgid. subst byEmail.
      destruct (emails profile) as [|e es]; [discriminate|].
      unfold findByGoogleId, findByEmail in *.
      eapply findOne_replaceOne_new; eauto.
      by apply bool_decide_eq_true.
    + intros Hcreate. apply create_Ok_inv in Hcreate as (-> & _ & Hgid & _).
      unfold findByGoogleId in *. apply findOne_app_new; [done|].
      by apply bool_decide_eq_true.
Qed.

Lemma link_Throw profile oid salt now (db db1 : Collection) e :
  link profile oid salt now db = (Throw e, db1) → db1 = db.
Proof.
  unfold findOrCreateGoogleUser.
  destruct (findByGoogleId (id profile) db) as [o|];
    [apply save_Throw|].
  destruct (match emails profile with
            | e :: _ => findByEmail e db
            | [] => None
            end) as [o|]; [apply save_Throw | apply create_Throw].
Qed.

(** C9.  When linking a Google profile returns a record, linking the
    same profile again returns the record with the same identifier
    (the same record, with [lastLogin] renewed and [updatedAt] following
    it) and the collection holds the same records as before: none is
    added.  When no record carries the identifier of the profile and a
    record matches its first e-mail address, the first call adds no
    record either: it returns that record with the Google identifier
    attached and [isVerified] set. *)
Theorem findOrCreateGoogleUser_idempotent profile oid1 oid2 salt1 salt2
    t1 t2 (db db1 : Collection) u1 :
  link profile oid1 salt1 t1 db = (Ok u1, db1) →
  let r2 := link profile oid2 salt2 t2 db1 in
  r2.1 = Ok (stamped u1 (set_lastLogin t2 u1) t2) ∧
  _id (stamped u1 (set_lastLogin t2 u1) t2) = _id u1 ∧
  email (stamped u1 (set_lastLogin t2 u1) t2) = email u1 ∧
  googleId (stamped u1 (set_lastLogin t2 u1) t2) = Some (id profile) ∧
  map _id r2.2 = map _id db1 ∧
  length r2.2 = length db1 ∧
  (∀ e o,
     findByGoogleId (id profile) db = None →
     head (emails profile) = Some e →
     findByEmail e db = Some o →
     map _id db1 = map _id db ∧ _id u1 = _id o ∧
     googleId u1 = Some (id profile) ∧ isVerified u1 = true ∧
     email u1 = email o ∧ password u1 = password o ∧ lastLogin u1 = t1).
Proof.
  intros Hfirst. pose proof (link_Ok_linked _ _ _ _ _ _ _ Hfirst) as Hlinked.
  simpl. rewrite (link_linked _ _ _ _ _ _ Hlinked (link_Ok_valid _ _ _ _ _ _ _ Hfirst)).
  simpl.
  pose proof (findByGoogleId_Some _ _ _ Hlinked) as [_ Hg1].
  pose proof (stamped_fields u1 (set_lastLogin t2 u1) t2)
    as (Hi & He & _ & Hg & _).
  split; [done|]. split; [done|]. split; [done|].
  split; [by rewrite Hg|].
  split; [apply ids_replaceOne|]. split; [apply length_replaceOne|].
  intros e o Hnone Hhead Hemail.
  unfold findOrCreateGoogleUser in Hfirst. rewrite Hnone in Hfirst.
  destruct (emails profile) as [|e' es]; [discriminate|].
  injection Hhead as ->. rewrite Hemail in Hfirst.
  apply save_Ok_inv in Hfirst
    as (-> & Hid & Hem & Hgid & Hver & _ & _ & _ & _ & Hlast & _ & Hpw).
  simpl in *. split; [apply ids_replaceOne|].
  do 4 (split; [done|]). split; [|done].
  rewrite Hpw. unfold stored_password, isModified_password. simpl.
  by rewrite bool_decide_eq_false_2 by (by intros []).
Qed.

End Linker.

(** C3, as the code has it.  [comparePassword] returns the boolean of
    the hash comparison when the comparison completes.  When the
    comparison fails with an error, whatever its reason,
    [comparePassword] throws an error with the one message
    ["Password comparison failed"]; it does not return [false]. *)
Theorem comparePassword_outcome
    (bcrypt_compare : string → option string → string + bool)
    (user : User) (candidate : string) :
  (∀ b, bcrypt_compare candidate (password user) = inr b →
        comparePassword bcrypt_compare user candidate = Ok b) ∧
  (∀ reason, bcrypt_compare candidate (password user) = inl reason →
        comparePassword bcrypt_compare user candidate
          = Throw "Password comparison failed"
        ∧ comparePassword bcrypt_compare user candidate ≠ Ok false).
Proof.
  unfold comparePassword. split.
  - by intros b ->.
  - by intros reason ->.
Qed.

End UserClaims.

(** ** Token intent and account enumeration *)
Module IntentClaims.
Import Js Jsonwebtoken UserModel Http AuthController.
Import UserFacts SaveFacts TokenFacts.

Section Service.
Variable secret : string.
Variable bcrypt_hash : string → string → string.
Variable mailer_initialized : bool.
Variable sendMail : string → Result unit.

(** [authenticateToken] lets through every token that carries a valid
    signature, issuer, audience and expiry and names a verified user,
    whatever its [type]. *)
Lemma authenticateToken_any_type claims now (db : Collection) user :
  now / 1000 < exp claims →
  aud claims = "talkai-users" → iss claims = "talkai-backend" →
  findById (userId (payload claims)) db = Some user →
  isVerified user = true →
  Auth.authenticateToken secret (Some (JWT.Bearer (Jws secret claims))) now db
    = Next (user, Jws secret claims).
Proof.
  intros Hexp Ha Hi Hfind Hver. unfold Auth.authenticateToken. simpl.
  unfold JWT.verifyToken. rewrite (verify_signed _ _ _ Hexp Ha Hi). simpl.
  by rewrite Hfind, Hver.
Qed.

(** [resetPassword] refuses every token whose [type] is not
    ["password-reset"], a session token in particular. *)
Lemma resetPassword_wrong_type key claims pw salt now (db : Collection) :
  type (payload claims) ≠ Some "password-reset" →
  ∃ msg, resetPassword secret bcrypt_hash (Some (Jws key claims)) pw salt now db
         = (failure 400 msg, db).
Proof.
  intros Htype. unfold resetPassword.
  destruct pw as [pw|]; [|eexists; reflexivity].
  simpl. destruct (bool_decide (pw = "")); [eexists; reflexivity|].
  destruct (String.length pw <? 6)%nat; [eexists; reflexivity|].
  unfold JWT.verifyToken.
  destruct (verify (Jws key claims) secret "talkai-backend" "talkai-users" now)
    as [decoded|msg] eqn:Hverify; simpl; [|eexists; reflexivity].
  apply verify_Ok_inv in Hverify as ([= -> ->] & _).
  rewrite bool_decide_eq_false_2 by done. simpl. eexists; reflexivity.
Qed.

Lemma resetPassword_rejects_session_token user t0 pw salt now (db : Collection) :
  ∃ msg, resetPassword secret bcrypt_hash
           (Some (JWT.generateToken secret user t0)) pw salt now db
         = (failure 400 msg, db).
Proof. by apply resetPassword_wrong_type. Qed.

(** With a working mail transport every request that names an e-mail
    address gets the same answer. *)
Lemma requestPasswordReset_generic e salt now (db : Collection) :
  e ≠ "" → mailer_initialized = true → sendMail e = Ok () →
  (requestPasswordReset secret bcrypt_hash mailer_initialized sendMail
     (Some e) salt now db).1 = ok generic_reset_message.
Proof.
  intros He Hinit Hsend. unfold requestPasswordReset. simpl.
  rewrite bool_decide_eq_false_2 by done.
  destruct (findByEmail e db) as [user|]; [|done].
  destruct (falsy (password user)) eqn:Hpw; [done|].
  rewrite save_plain by (done || by left).
  unfold EmailService.sendPasswordResetEmail. by rewrite Hinit, Hsend.
Qed.

(** When the mail cannot be sent, a request for an account that has a
    password is answered with status 500. *)
Lemma requestPasswordReset_mail_failure e salt now (db : Collection) user :
  e ≠ "" → findByEmail e db = Some user → falsy (password user) = false →
  (mailer_initialized = false ∨ ∃ msg, sendMail e = Throw msg) →
  (requestPasswordReset secret bcrypt_hash mailer_initialized sendMail
     (Some e) salt now db).1 = failure 500 "Failed to request password reset".
Proof.
  intros He Hfind Hpw Hmail. unfold requestPasswordReset. simpl.
  rewrite bool_decide_eq_false_2 by done. rewrite Hfind, Hpw.
  rewrite save_plain by (done || by left).
  unfold EmailService.sendPasswordResetEmail.
  destruct Hmail as [-> | [msg Hmsg]]; [done|].
  rewrite Hmsg. by destruct mailer_initialized.
Qed.

End Service.

Import Samples.

(** C1.  The token issued for a password reset (type ["password-reset"])
    and stored on the record of the user is let through by
    [authenticateToken] as a session token: the middleware calls
    [next()] with the user attached. *)
Theorem authenticateToken_accepts_reset_token :
  let db1 :=
    (requestPasswordReset secret toy_hash true mail_ok
       (Some "alice@x.com") "salt" 5000 users).2 in
  ∃ user claims,
    findById 1%N db1 = Some user ∧
    resetPasswordToken user = Some (reset_token 5000) ∧
    reset_token 5000 = Jws secret claims ∧
    type (payload claims) = Some "password-reset" ∧
    Auth.authenticateToken secret (Some (JWT.Bearer (reset_token 5000))) 6000 db1
      = Next (user, reset_token 5000).
Proof.
  eexists _, _. split; [vm_compute; reflexivity|].
  split; [reflexivity|]. split; [reflexivity|]. split; [reflexivity|].
  vm_compute. reflexivity.
Qed.

(** C6.  When the mail transport rejects the message, a reset request
    for an address without a record, and one for an account without a
    password, get the generic answer with status 200, while a request
    for a registered account with a password gets status 500
    ["Failed to request password reset"]: the two answers differ. *)
Theorem requestPasswordReset_reveals_on_mail_failure :
  (requestPasswordReset secret toy_hash true mail_down
     (Some "nouser@x.com") "salt" 5000 users).1
    = ok generic_reset_message ∧
  (requestPasswordReset secret toy_hash true mail_down
     (Some "bob@x.com") "salt" 5000 users).1
    = ok generic_reset_message ∧
  (requestPasswordReset secret toy_hash true mail_down
     (Some "alice@x.com") "salt" 5000 users).1
    = failure 500 "Failed to request password reset" ∧
  status (requestPasswordReset secret toy_hash true mail_down
            (Some "alice@x.com") "salt" 5000 users).1
    ≠ status (requestPasswordReset secret toy_hash true mail_down
                (Some "nouser@x.com") "salt" 5000 users).1.
Proof.
  assert (Habsent : (requestPasswordReset secret toy_hash true mail_down
                       (Some "nouser@x.com") "salt" 5000 users).1
                    = ok generic_reset_message) by (vm_compute; reflexivity).
  assert (Hgoogle : (requestPasswordReset secret toy_hash true mail_down
                       (Some "bob@x.com") "salt" 5000 users).1
                    = ok generic_reset_message) by (vm_compute; reflexivity).
  assert (Hknown : (requestPasswordReset secret toy_hash true mail_down
                      (Some "alice@x.com") "salt" 5000 users).1
                   = failure 500 "Failed to request password reset").
  { apply (requestPasswordReset_mail_failure _ _ _ _ _ _ _ _ alice);
      [discriminate | reflexivity | reflexivity |].
    right. by exists "connect ECONNREFUSED". }
  do 3 (split; [done|]). rewrite Habsent, Hknown. discriminate.
Qed.

(** C3, as stated, fails: for an account without a stored hash the
    comparison of [bcryptjs] rejects, and [comparePassword] throws
    instead of returning [false]. *)
Lemma comparePassword_throws :
  comparePassword (Bcryptjs.compare toy_core) bob "secret"
    = Throw "Password comparison failed"
  ∧ ¬ ∃ b, comparePassword (Bcryptjs.compare toy_core) bob "secret" = Ok b.
Proof. split; [reflexivity|]. intros [b H]. discriminate. Qed.

End IntentClaims.

(** ** The theorems at concrete inputs *)
Module Examples.
Import Js Jsonwebtoken UserModel Http Samples.

Example generateOTP_half : OTP.generateOTP half = "550000".
Proof. reflexivity. Qed.

(** Rounding is felt: for this value of [Math.random()] the exact sum
    lies below 103569, and the rounded sum is 103569. *)
Example generateOTP_rounded :
  OTP.generateOTP
    (Number.mkRandom (S754_finite false 4571974277713152 (-60)) eq_refl)
    = "103569".
Proof. reflexivity. Qed.

Example toString_small : Js.toString 42 = "42".
Proof. reflexivity. Qed.

Example extract_plain :
  JWT.extractTokenFromHeader (Some (JWT.HeaderText "Bearer abc.def"))
    = Some (Malformed "abc.def").
Proof. reflexivity. Qed.

Example extract_basic :
  JWT.extractTokenFromHeader (Some (JWT.HeaderText "Basic dXNlcg==")) = None.
Proof. reflexivity. Qed.

Example authenticate_garbage :
  Auth.authenticateToken secret (Some (JWT.HeaderText "Bearer abc.def")) 6000 users
    = Respond (failure 401 "Invalid or expired token").
Proof. reflexivity. Qed.

Example authenticate_empty :
  Auth.authenticateToken secret (Some (JWT.HeaderText "Bearer ")) 6000 users
    = Respond (failure 401 "Access token required").
Proof. reflexivity. Qed.

Lemma verifyOTP_fourth_attempt_witness :
  OTP.verifyOTP "a@b.com" "000000" 1000 issued = (OTP.Mismatch, after1) ∧
  OTP.verifyOTP "a@b.com" "000000" 2000 after1 = (OTP.Mismatch, after2) ∧
  OTP.verifyOTP "a@b.com" "000000" 3000 after2 = (OTP.Mismatch, after3) ∧
  (OTP.verifyOTP "a@b.com" "123456" 4000 after3).1 ≠ OTP.Verified ∧
  (OTP.verifyOTP "a@b.com" "123456" 4000 after3).2 = delete "a@b.com" after3.
Proof.
  assert (H1 : OTP.verifyOTP "a@b.com" "000000" 1000 issued = (OTP.Mismatch, after1))
    by (vm_compute; reflexivity).
  assert (H2 : OTP.verifyOTP "a@b.com" "000000" 2000 after1 = (OTP.Mismatch, after2))
    by (vm_compute; reflexivity).
  assert (H3 : OTP.verifyOTP "a@b.com" "000000" 3000 after2 = (OTP.Mismatch, after3))
    by (vm_compute; reflexivity).
  assert (Hwf : OTP.wf issued) by apply OTPFacts.wf_storeOTP, OTPFacts.wf_empty.
  destruct (OTPClaims.verifyOTP_fourth_attempt "a@b.com" "000000" "000000" "000000"
              "123456" 1000 2000 3000 4000 issued after1 after2 after3 Hwf H1 H2 H3)
    as (c & _ & _ & _ & _ & _ & Hnot & _ & Hdel & _).
  repeat split; assumption.
Defined.

Lemma challenge_expiry_witness :
  OTP.verifyOTP "a@b.com" "123456" 599000 issued = (OTP.Verified, delete "a@b.com" issued) ∧
  OTP.verifyOTP "a@b.com" "123456" 600000 issued = (OTP.Verified, delete "a@b.com" issued) ∧
  OTP.verifyOTP "a@b.com" "123456" 601000 issued = (OTP.Expired, delete "a@b.com" issued).
Proof.
  assert (Hc : issued !! "a@b.com" = Some (OTP.mkChallenge "123456" 600000 0))
    by (vm_compute; reflexivity).
  assert (Ha : OTP.attempts (OTP.mkChallenge "123456" 600000 0) < 3) by (simpl; lia).
  destruct (OTPClaims.challenge_expiry "a@b.com" "123456" "123456" 0 ∅ issued _ Hc Ha)
    as (_ & Hbefore & Hat & Hafter & _).
  repeat split; assumption.
Defined.

Lemma rate_limit_window_witness :
  (RateLimit.serve "10.0.0.1" [0; 10; 20; 30; 60000] ∅).1
    = [true; true; true; false; false] ∧
  RateLimit.allowed
    (RateLimit.rateLimitOTP "10.0.0.1" 60001
       (RateLimit.serve "10.0.0.1" [0; 10; 20; 30; 60000] ∅).2).1 = true.
Proof.
  assert (Hopen : RateLimit.opens_window "10.0.0.1" 0 ∅) by (vm_compute; exact I).
  assert (H1 : 10 <= 0 + 60000) by lia.
  assert (H2 : 20 <= 0 + 60000) by lia.
  assert (Hl : Forall (λ t, t <= 0 + 60000) [30; 60000])
    by (repeat constructor; lia).
  assert (H' : 0 + 60000 < 60001) by lia.
  destruct (RateLimitFacts.rate_limit_window "10.0.0.1" 0 10 20 [30; 60000] 60001 ∅
              Hopen H1 H2 Hl H') as (Hrun & _ & Hnext & _).
  split; [exact Hrun|]. rewrite Hnext. reflexivity.
Defined.

Lemma generateOTP_range_witness :
  (∃ n, 100000 <= n <= 999999 ∧ OTP.generateOTP half = Js.toString n
        ∧ OTP.six_digits (OTP.generateOTP half)) ∧
  100000 <= 123456 <= 999999 ∧
  ∃ random : Number.Random, OTP.generateOTP random = Js.toString 123456.
Proof.
  split; [exact (proj1 OTPClaims.generateOTP_range half)|].
  split; [lia|].
  apply (proj2 (proj2 (proj2 OTPClaims.generateOTP_range)) 123456). lia.
Defined.

Lemma resetPassword_single_use_witness :
  (AuthController.resetPassword secret toy_hash (Some (reset_token 5000))
     (Some "newpass1") "salt1" 6000 requested).1
    = ok "Password reset successfully" ∧
  ∃ msg,
    AuthController.resetPassword secret toy_hash (Some (reset_token 5000))
      (Some "newpass2") "salt2" 7000
      (AuthController.resetPassword secret toy_hash (Some (reset_token 5000))
         (Some "newpass1") "salt1" 6000 requested).2
    = (failure 400 msg,
       (AuthController.resetPassword secret toy_hash (Some (reset_token 5000))
          (Some "newpass1") "salt1" 6000 requested).2).
Proof.
  assert (Hok : (AuthController.resetPassword secret toy_hash
                   (Some (reset_token 5000)) (Some "newpass1") "salt1" 6000
                   requested).1 = ok "Password reset successfully")
    by (vm_compute; reflexivity).
  split; [exact Hok|].
  exact (proj2 (ControllerClaims.resetPassword_single_use secret toy_hash
                  (reset_token 5000) "newpass1" (Some "newpass2") "salt1" "salt2"
                  6000 7000 requested Hok)).
Defined.

Lemma findOrCreateGoogleUser_idempotent_witness :
  findOrCreateGoogleUser toy_hash (λ _, true) alice_google 3%N "salt" 7000 users
    = (Ok alice_linked, [alice_linked; bob]) ∧
  (findOrCreateGoogleUser toy_hash (λ _, true) alice_google 4%N "salt" 8000
     [alice_linked; bob]).1
    = Ok (stamped alice_linked (set_lastLogin 8000 alice_linked) 8000) ∧
  length (findOrCreateGoogleUser toy_hash (λ _, true) alice_google 4%N "salt" 8000
            [alice_linked; bob]).2 = 2%nat.
Proof.
  assert (H1 : findOrCreateGoogleUser toy_hash (λ _, true) alice_google 3%N
                 "salt" 7000 users = (Ok alice_linked, [alice_linked; bob]))
    by (vm_compute; reflexivity).
  destruct (UserClaims.findOrCreateGoogleUser_idempotent toy_hash (λ _, true)
              alice_google 3%N 4%N "salt" "salt" 7000 8000 users
              [alice_linked; bob] alice_linked H1)
    as (Hr & _ & _ & _ & _ & Hlen & _).
  split; [exact H1|]. split; [exact Hr | exact Hlen].
Defined.

Lemma signin_failure_frame_witness :
  (AuthController.signin secret toy_hash (Bcryptjs.compare toy_core)
     (Some "alice@x.com") (Some "wrong-password") "salt" 9000 users).2 = users.
Proof.
  apply (proj1 (ControllerClaims.signin_failure_frame secret toy_hash
                  (Bcryptjs.compare toy_core) (Some "alice@x.com")
                  (Some "wrong-password") "salt" 9000 users)).
  vm_compute. reflexivity.
Defined.

End Examples.

(** ** More on the challenge store *)
Module OTPExtras.
Import OTP OTPFacts.

(** X1.  Issuing a code replaces whatever the store held for the address
    (another code, used-up attempts, an expired entry): afterwards no
    other candidate is ever verified, a wrong candidate within the
    10 minutes is the first attempt on the new code, and the new code
    within the 10 minutes is verified. *)
Theorem storeOTP_replaces email code cand t0 now (st : Store) :
  cand ≠ code →
  storeOTP email code t0 st !! email = Some (mkChallenge code (t0 + 600000) 0) ∧
  (verifyOTP email cand now (storeOTP email code t0 st)).1 ≠ Verified ∧
  (now <= t0 + 600000 →
     verifyOTP email cand now (storeOTP email code t0 st)
       = (Mismatch, <[email := mkChallenge code (t0 + 600000) 1]> st) ∧
     verifyOTP email code now (storeOTP email code t0 st)
       = (Verified, delete email st)).
Proof.
  intros Hne.
  assert (Hl : storeOTP email code t0 st !! email
               = Some (mkChallenge code (t0 + 600000) 0))
    by apply lookup_insert_eq.
  split; [done|]. split.
  - unfold verifyOTP. rewrite Hl. simpl.
    destruct (now >? t0 + 600000); [done|]. simpl.
    rewrite bool_decide_eq_false_2 by done. done.
  - intros Hnow. split.
    + unfold verifyOTP. rewrite Hl. simpl.
      replace (now >? t0 + 600000) with false by lia. simpl.
      rewrite bool_decide_eq_false_2 by done.
      unfold storeOTP. by rewrite insert_insert_eq.
    + pose proof (verifyOTP_correct email now _ _ Hl) as Hok.
      simpl in Hok. rewrite Hok by lia.
      unfold storeOTP. by rewrite delete_insert_eq.
Qed.

Lemma verifyOTP_valid_inv email cand now (st : Store) :
  valid (verifyOTP email cand now st).1 = true →
  ∃ c, st !! email = Some c ∧ otp c = cand ∧ now <= expiresAt c
       ∧ attempts c < 3.
Proof.
  unfold verifyOTP. destruct (st !! email) as [c|] eqn:Hc; [|discriminate].
  destruct (now >? expiresAt c) eqn:Hexp; [discriminate|].
  destruct (attempts c >=? 3) eqn:Hatt; [discriminate|]. simpl.
  case_bool_decide as Heq; [|discriminate]. intros _.
  exists c. repeat split; [done | lia | lia].
Qed.

(** X2.  [verifyOTP] answers [valid: true] only for the stored code of a
    challenge that has not expired and had fewer than 3 attempts; it
    then deletes the challenge, so that any further call for the address
    finds none: a code verifies once. *)
Theorem verifyOTP_valid_once email cand now (st : Store) :
  valid (verifyOTP email cand now st).1 = true →
  (∃ c, st !! email = Some c ∧ otp c = cand ∧ now <= expiresAt c
        ∧ attempts c < 3) ∧
  verifyOTP email cand now st = (Verified, delete email st) ∧
  (∀ cand' now',
     verifyOTP email cand' now' (verifyOTP email cand now st).2
       = (NotFound, delete email st)).
Proof.
  intros Hv.
  pose proof (verifyOTP_valid_inv _ _ _ _ Hv) as (c & Hc & Hotp & Hle & Hatt).
  assert (Hok : verifyOTP email cand now st = (Verified, delete email st)).
  { rewrite <- Hotp. by apply verifyOTP_correct. }
  split; [by exists c|]. split; [done|].
  intros cand' now'. rewrite Hok. simpl.
  apply verifyOTP_absent. apply lookup_delete_eq.
Qed.

(** X3.  No operation on the challenge of one address touches the challenge
    of another. *)
Theorem otp_operations_frame email other code cand now (st : Store) :
  other ≠ email →
  storeOTP email code now st !! other = st !! other ∧
  (verifyOTP email cand now st).2 !! other = st !! other ∧
  (hasOTP email now st).2 !! other = st !! other ∧
  removeOTP email st !! other = st !! other.
Proof.
  intros Hne. repeat split.
  - unfold storeOTP. by rewrite lookup_insert_ne.
  - unfold verifyOTP. destruct (st !! email) as [c|]; [|done].
    destruct (now >? expiresAt c); simpl; [by rewrite lookup_delete_ne|].
    destruct (attempts c >=? 3); simpl; [by rewrite lookup_delete_ne|].
    case_bool_decide; simpl;
      by rewrite ?lookup_delete_ne, ?lookup_insert_ne by done.
  - unfold hasOTP. destruct (st !! email) as [c|]; [|done].
    destruct (now >? expiresAt c); simpl; [by rewrite lookup_delete_ne | done].
  - unfold removeOTP. by rewrite lookup_delete_ne.
Qed.

(** X4.  [getRemainingTime] is never negative and is 0 for an address without
    a challenge; for a challenge that has not expired it is the number of
    whole seconds left, so it is 0 during the last second, while the
    challenge is still accepted.  Right after issuing it is 600. *)
Theorem getRemainingTime_bounds email code now (st : Store) :
  0 <= getRemainingTime email now st ∧
  (st !! email = None → getRemainingTime email now st = 0) ∧
  (∀ c, st !! email = Some c → now <= expiresAt c →
     getRemainingTime email now st * 1000 <= expiresAt c - now
       < getRemainingTime email now st * 1000 + 1000) ∧
  (∀ c, st !! email = Some c → expiresAt c < now →
     getRemainingTime email now st = 0) ∧
  getRemainingTime email now (storeOTP email code now st) = 600.
Proof.
  unfold getRemainingTime. split; [|split; [|split; [|split]]].
  - destruct (st !! email); lia.
  - by intros ->.
  - intros c -> Hle. Z.div_mod_to_equations. lia.
  - intros c -> Hlt. Z.div_mod_to_equations. lia.
  - unfold storeOTP. rewrite lookup_insert_eq. simpl.
    replace (now + 10 * 60 * 1000 - now) with 600000 by lia. reflexivity.
Qed.

(** X5.  [hasOTP] answers [true] exactly for a stored challenge that has not
    expired.  When it answers [false], [verifyOTP] does not verify any
    candidate, and the two calls leave the same store behind. *)
Theorem hasOTP_agrees email cand now (st : Store) :
  ((hasOTP email now st).1 = true ↔
     ∃ c, st !! email = Some c ∧ now <= expiresAt c) ∧
  ((hasOTP email now st).1 = true → (hasOTP email now st).2 = st) ∧
  ((hasOTP email now st).1 = false →
     valid (verifyOTP email cand now st).1 = false ∧
     (verifyOTP email cand now st).2 = (hasOTP email now st).2 ∧
     (hasOTP email now st).2 !! email = None).
Proof.
  unfold hasOTP, verifyOTP. destruct (st !! email) as [c|] eqn:Hc.
  - destruct (now >? expiresAt c) eqn:Hexp; simpl.
    + split; [|split]; [|done|].
      * split; [done|]. intros (c' & [= <-] & Hle). lia.
      * intros _. split; [done|]. split; [done|]. apply lookup_delete_eq.
    + split; [|split]; [|done|done].
      split; [|done]. intros _. exists c. split; [done|lia].
  - simpl. split; [|split]; [|done|done].
    split; [done|]. by intros (c & ? & _).
Qed.

End OTPExtras.

(** ** The periodic clean-up and the statistics *)
Module OTPMaintenanceFacts.
Import OTP OTPMaintenance.

Lemma expired_entries_cons now e l :
  expired_entries now (e :: l)
    = (if now >? expiresAt e.2 then 1 else 0) + expired_entries now l.
Proof.
  unfold expired_entries. simpl. destruct (now >? expiresAt e.2); simpl; lia.
Qed.

Lemma expired_entries_range now l :
  0 <= expired_entries now l <= Z.of_nat (length l).
Proof.
  induction l as [|e l IH]; [unfold expired_entries; simpl; lia|].
  rewrite expired_entries_cons. simpl length.
  destruct (now >? expiresAt e.2); lia.
Qed.

Lemma cleanup_fold_count now l (acc : Store) n :
  (foldl (cleanup_step now) (acc, n) l).2 = n + expired_entries now l.
Proof.
  revert acc n. induction l as [|e l IH]; intros acc n; simpl.
  - unfold expired_entries. simpl. lia.
  - rewrite expired_entries_cons. unfold cleanup_step at 2. simpl.
    destruct (now >? expiresAt e.2); rewrite IH; lia.
Qed.

Lemma cleanup_fold_lookup now l (acc : Store) n k :
  (foldl (cleanup_step now) (acc, n) l).1 !! k
    = if existsb (λ e, bool_decide (e.1 = k) && (now >? expiresAt e.2)) l
      then None else acc !! k.
Proof.
  revert acc n. induction l as [|e l IH]; intros acc n; simpl; [done|].
  unfold cleanup_step at 2. simpl.
  destruct (now >? expiresAt e.2) eqn:Hexp; rewrite IH.
  - case_bool_decide as Hk; simpl.
    + subst k. rewrite lookup_delete_eq. by destruct (existsb _ l).
    + by rewrite lookup_delete_ne.
  - by rewrite andb_false_r.
Qed.

Lemma cleanup_fold_size now l (acc : Store) n :
  NoDup l.*1 → (∀ k c, (k, c) ∈ l → acc !! k = Some c) →
  Z.of_nat (size (foldl (cleanup_step now) (acc, n) l).1) + expired_entries now l
    = Z.of_nat (size acc).
Proof.
  revert acc n. induction l as [|[k c] l IH]; intros acc n Hnd Hin; simpl.
  - unfold expired_entries. simpl. lia.
  - rewrite expired_entries_cons. unfold cleanup_step at 2. simpl.
    apply NoDup_cons in Hnd as [Hk Hnd].
    assert (Hkc : acc !! k = Some c) by (apply Hin; left).
    destruct (now >? expiresAt c).
    + rewrite Z.add_assoc, (Z.add_comm _ 1), <- Z.add_assoc.
      rewrite IH; [|done|].
      * pose proof (map_size_delete_Some k acc (mk_is_Some _ _ Hkc)).
        assert (size acc ≠ 0%nat).
        { intros H0. apply map_size_empty_iff in H0. subst acc.
          by rewrite lookup_empty in Hkc. }
        lia.
      * intros k' c' Hin'. rewrite lookup_delete_ne.
        -- apply Hin. by right.
        -- intros ->. apply Hk. apply list_elem_of_fmap. by exists (k', c').
    + rewrite IH; [lia | done |]. intros k' c' Hin'. apply Hin. by right.
Qed.

Lemma cleanup_lookup now (st : Store) k :
  (cleanup now st).1 !! k
    = match st !! k with
      | Some c => if now >? expiresAt c then None else Some c
      | None => None
      end.
Proof.
  unfold cleanup. rewrite cleanup_fold_lookup.
  destruct (existsb _ _) eqn:Hex.
  - apply existsb_exists in Hex as ([k' c] & Hin & Hp). simpl in Hp.
    apply andb_prop in Hp as [Hk Hexp]. apply bool_decide_eq_true in Hk. subst k'.
    apply list_elem_of_In, elem_of_map_to_list in Hin. by rewrite Hin, Hexp.
  - destruct (st !! k) as [c|] eqn:Hc; [|done].
    destruct (now >? expiresAt c) eqn:Hexp; [|done].
    assert (Htrue : existsb (λ e, bool_decide (e.1 = k) && (now >? expiresAt e.2))
                      (map_to_list st) = true).
    { apply existsb_exists. exists (k, c). split.
      - by apply list_elem_of_In, elem_of_map_to_list.
      - simpl. by rewrite bool_decide_eq_true_2, Hexp. }
    congruence.
Qed.

Lemma cleanup_size now (st : Store) :
  Z.of_nat (size (cleanup now st).1) + (cleanup now st).2 = Z.of_nat (size st).
Proof.
  unfold cleanup at 2. rewrite cleanup_fold_count. simpl.
  apply cleanup_fold_size; [apply NoDup_fst_map_to_list|].
  intros k c. apply elem_of_map_to_list.
Qed.

(** X6.  The periodic clean-up removes exactly the challenges that have
    expired and keeps every other one as it is; the count it logs is the
    number of entries removed.  It does not change what [verifyOTP]
    decides afterwards. *)
Theorem cleanup_spec now (st : Store) :
  (∀ k, (cleanup now st).1 !! k
        = match st !! k with
          | Some c => if now >? expiresAt c then None else Some c
          | None => None
          end) ∧
  Z.of_nat (size (cleanup now st).1) + (cleanup now st).2 = Z.of_nat (size st) ∧
  0 <= (cleanup now st).2 ∧
  (∀ email cand t, now <= t →
     valid (verifyOTP email cand t (cleanup now st).1).1
       = valid (verifyOTP email cand t st).1) ∧
  (cleanup now (cleanup now st).1).1 = (cleanup now st).1.
Proof.
  split; [apply cleanup_lookup|]. split; [|split; [|split]].
  - apply cleanup_size.
  - unfold cleanup. rewrite cleanup_fold_count.
    pose proof (expired_entries_range now (map_to_list st)). lia.
  - intros email cand t Ht. unfold verifyOTP. rewrite cleanup_lookup.
    destruct (st !! email) as [c|]; [|done].
    destruct (now >? expiresAt c) eqn:Hexp.
    + by replace (t >? expiresAt c) with true by lia.
    + destruct (t >? expiresAt c); [done|].
      destruct (attempts c >=? 3); [done|]. simpl. by case_bool_decide.
  - apply map_eq. intros k. rewrite !cleanup_lookup.
    destruct (st !! k) as [c|]; [|done].
    destruct (now >? expiresAt c) eqn:Hexp; [done|]. by rewrite Hexp.
Qed.

Lemma stats_fold now l s :
  total (foldl (stats_step now) s l) = total s + Z.of_nat (length l) ∧
  expired_count (foldl (stats_step now) s l)
    = expired_count s + expired_entries now l ∧
  valid_count (foldl (stats_step now) s l)
    = valid_count s + Z.of_nat (length l) - expired_entries now l.
Proof.
  revert s. induction l as [|e l IH]; intros s; simpl.
  - unfold expired_entries. simpl. lia.
  - rewrite expired_entries_cons. destruct (IH (stats_step now s e)) as (-> & -> & ->).
    unfold stats_step. destruct (now >? expiresAt e.2); simpl; lia.
Qed.

(** X7.  [getStats] counts every entry once: [total] is the size of the
    store and the sum of [valid] and [expired]; [expired] is the number
    of entries the clean-up would remove at that instant and [valid]
    the number it would keep. *)
Theorem getStats_spec now (st : Store) :
  total (getStats now st) = Z.of_nat (size st) ∧
  total (getStats now st)
    = valid_count (getStats now st) + expired_count (getStats now st) ∧
  expired_count (getStats now st) = (cleanup now st).2 ∧
  valid_count (getStats now st) = Z.of_nat (size (cleanup now st).1) ∧
  0 <= valid_count (getStats now st) ∧
  0 <= expired_count (getStats now st).
Proof.
  pose proof (cleanup_size now st) as Hsize.
  unfold getStats. destruct (stats_fold now (map_to_list st) (mkStats 0 0 0))
    as (-> & -> & ->). simpl.
  rewrite length_map_to_list.
  assert (Hc : (cleanup now st).2 = expired_entries now (map_to_list st)).
  { unfold cleanup. rewrite cleanup_fold_count. lia. }
  pose proof (expired_entries_range now (map_to_list st)) as Hr.
  rewrite length_map_to_list in Hr. lia.
Qed.

End OTPMaintenanceFacts.

(** ** Tokens and the authentication middleware *)
Module TokenExtras.
Import Js Jsonwebtoken UserModel Http TokenFacts UserFacts.

Lemma sign_verify payload key span t0 now :
  verify (sign payload key span "talkai-backend" "talkai-users" t0)
         key "talkai-backend" "talkai-users" now
    = if now / 1000 >=? t0 / 1000 + span then Throw "jwt expired"
      else Ok (mkClaims payload (t0 / 1000) (t0 / 1000 + span)
                 "talkai-backend" "talkai-users").
Proof.
  unfold verify, sign. rewrite bool_decide_eq_true_2 by done. simpl.
  by destruct (now / 1000 >=? t0 / 1000 + span).
Qed.

Lemma sign_verify_other payload key other span t0 now :
  other ≠ key →
  verify (sign payload key span "talkai-backend" "talkai-users" t0)
         other "talkai-backend" "talkai-users" now
    = Throw "invalid signature".
Proof.
  intros Hne. unfold verify, sign.
  by rewrite bool_decide_eq_false_2 by (by intros ->).
Qed.

Section Service.
Variable secret : string.

(** X8.  A session token verifies under the key of the service from the
    second it was issued until 7 days (604800 s) later, and the decoded
    claims name the user; from then on it is refused as expired.  Under
    any other key it is refused at every instant. *)
Theorem generateToken_round_trip (user : User) t0 now :
  (now / 1000 < t0 / 1000 + 604800 →
     ∃ decoded,
       JWT.verifyToken secret (JWT.generateToken secret user t0) now
         = JWT.mkVerification true (Some decoded) None ∧
       userId (payload decoded) = _id user ∧
       Jsonwebtoken.email (payload decoded) = Some (UserModel.email user) ∧
       type (payload decoded) = None ∧
       exp decoded = t0 / 1000 + 604800) ∧
  (t0 / 1000 + 604800 <= now / 1000 →
     JWT.verifyToken secret (JWT.generateToken secret user t0) now
       = JWT.mkVerification false None (Some "jwt expired")) ∧
  (∀ other, other ≠ secret →
     JWT.verifyToken other (JWT.generateToken secret user t0) now
       = JWT.mkVerification false None (Some "invalid signature")).
Proof.
  unfold JWT.verifyToken, JWT.generateToken. split; [|split].
  - intros Hlt. rewrite sign_verify. unfold span_7d.
    replace (now / 1000 >=? t0 / 1000 + 7 * 24 * 60 * 60) with false by lia.
    eexists. split; [reflexivity|]. simpl. repeat split; lia.
  - intros Hge. rewrite sign_verify. unfold span_7d.
    by replace (now / 1000 >=? t0 / 1000 + 7 * 24 * 60 * 60) with true by lia.
  - intros other Hne. by rewrite sign_verify_other.
Qed.

(** X9.  [isTokenExpired] reads the expiry without checking the signature:
    text that is not a token counts as expired, and a token whose
    expiry is a second that a date can hold (at most 8 640 000 000 000
    in absolute value) counts as expired from that second on, whatever
    key signed it.  An expiry beyond that range makes an invalid date,
    and the token is then never reported as expired.  For the tokens of
    the service it agrees with [verifyToken]: the token is valid
    exactly when [isTokenExpired] is false. *)
Theorem isTokenExpired_agrees (user : User) t0 now :
  (∀ raw, JWTInspect.isTokenExpired (Malformed raw) now = true) ∧
  (∀ key claims, exp claims ≠ 0 → Z.abs (exp claims) <= 8640000000000 →
     JWTInspect.isTokenExpired (Jws key claims) now
       = (now / 1000 >=? exp claims)) ∧
  (∀ key claims, 8640000000000 < Z.abs (exp claims) →
     JWTInspect.isTokenExpired (Jws key claims) now = false) ∧
  (0 <= t0 → t0 / 1000 + 604800 <= 8640000000000 →
     JWT.valid (JWT.verifyToken secret (JWT.generateToken secret user t0) now)
       = negb (JWTInspect.isTokenExpired (JWT.generateToken secret user t0) now)).
Proof.
  assert (Hgen : ∀ key claims, exp claims ≠ 0 →
            Z.abs (exp claims) <= 8640000000000 →
            JWTInspect.isTokenExpired (Jws key claims) now
              = (now / 1000 >=? exp claims)).
  { intros key claims Hexp Hrange.
    unfold JWTInspect.isTokenExpired, JWTInspect.getTokenExpiration,
      JWTInspect.newDate, JWTInspect.maxTime. simpl.
    replace (exp claims =? 0) with false by lia.
    replace (Z.abs (exp claims * 1000) >? 8640000000000000) with false by lia.
    destruct (Z.geb_spec now (exp claims * 1000));
      destruct (Z.geb_spec (now / 1000) (exp claims)); try done;
      Z.div_mod_to_equations; lia. }
  split; [done|]. split; [done|]. split.
  - intros key claims Hrange.
    unfold JWTInspect.isTokenExpired, JWTInspect.getTokenExpiration,
      JWTInspect.newDate, JWTInspect.maxTime. simpl.
    replace (exp claims =? 0) with false by lia.
    by replace (Z.abs (exp claims * 1000) >? 8640000000000000) with true by lia.
  - intros Ht0 Hmax. unfold JWT.generateToken at 2, sign. rewrite Hgen.
    + simpl. unfold JWT.verifyToken, JWT.generateToken. rewrite sign_verify.
      by destruct (now / 1000 >=? t0 / 1000 + span_7d).
    + simpl. unfold span_7d. Z.div_mod_to_equations. lia.
    + simpl. unfold span_7d. Z.div_mod_to_equations. lia.
Qed.

(** X10.  [extractTokenFromHeader] returns what follows ["Bearer "]: the
    token of a header built as ["Bearer " + token], nothing for an
    absent header or a header that does not begin with ["Bearer "]. *)
Theorem extractTokenFromHeader_round_trip :
  JWT.extractTokenFromHeader None = None ∧
  (∀ token, JWT.extractTokenFromHeader (Some (JWT.Bearer token)) = Some token) ∧
  (∀ s, JWT.extractTokenFromHeader (Some (JWT.HeaderText ("Bearer " +:+ s)))
        = Some (Malformed s)) ∧
  (∀ text, String.prefix "Bearer " text = false →
     JWT.extractTokenFromHeader (Some (JWT.HeaderText text)) = None).
Proof.
  split; [done|]. split; [done|]. split.
  - intros s. unfold JWT.extractTokenFromHeader. simpl.
    change ("" +:+ s) with s.
    replace (String.prefix "" s) with true by (by destruct s). simpl.
    do 2 f_equal. rewrite Nat.sub_0_r.
    induction s as [|c s IH]; simpl; [done|]. by rewrite IH.
  - intros text Hp. unfold JWT.extractTokenFromHeader. rewrite Hp.
    by rewrite orb_true_r.
Qed.

Lemma authenticateToken_Next_inv authorization now (db : Collection) user token :
  Auth.authenticateToken secret authorization now db = Next (user, token) →
  authorization = Some (JWT.Bearer token) ∧
  ∃ claims,
    token = Jws secret claims ∧ now / 1000 < exp claims ∧
    aud claims = "talkai-users" ∧ iss claims = "talkai-backend" ∧
    findById (userId (payload claims)) db = Some user ∧
    In user db ∧ _id user = userId (payload claims) ∧
    isVerified user = true.
Proof.
  unfold Auth.authenticateToken.
  destruct (JWT.extractTokenFromHeader authorization) as [tok|] eqn:Hex;
    [|discriminate].
  destruct (falsy_token (Some tok)); [discriminate|].
  unfold JWT.verifyToken.
  destruct (verify tok secret "talkai-backend" "talkai-users" now)
    as [decoded|msg] eqn:Hv; simpl; [|discriminate].
  destruct (findById (userId (payload decoded)) db) as [u|] eqn:Hfind;
    [|discriminate].
  destruct (isVerified u) eqn:Hver; simpl; [|discriminate].
  intros [= <- <-].
  apply verify_Ok_inv in Hv as (-> & Hexp & Ha & Hi).
  split.
  - unfold JWT.extractTokenFromHeader in Hex.
    destruct authorization as [[text|t]|]; [|congruence|discriminate].
    destruct (_ || _); discriminate.
  - exists decoded. pose proof (findById_Some _ _ _ Hfind) as [Hin Hid].
    repeat split; done.
Qed.

(** X11.  [authenticateToken] calls [next()] exactly for a header of the
    form ["Bearer " + token] whose token is signed under the key of the
    service, has the issuer and audience of the service and has not
    expired, and names a user of the collection who is verified; that
    user and the token are what it attaches to the request. *)
Theorem authenticateToken_accepts_iff authorization now (db : Collection)
    user token :
  Auth.authenticateToken secret authorization now db = Next (user, token) ↔
  authorization = Some (JWT.Bearer token) ∧
  ∃ claims,
    token = Jws secret claims ∧ now / 1000 < exp claims ∧
    aud claims = "talkai-users" ∧ iss claims = "talkai-backend" ∧
    findById (userId (payload claims)) db = Some user ∧
    In user db ∧ _id user = userId (payload claims) ∧
    isVerified user = true.
Proof.
  split; [apply authenticateToken_Next_inv|].
  intros (-> & claims & -> & Hexp & Ha & Hi & Hfind & _ & _ & Hver).
  by apply IntentClaims.authenticateToken_any_type.
Qed.

(** X12.  [optionalAuth] attaches a user exactly when [authenticateToken]
    would let the request through or refuse it only because the
    account is not verified: what [authenticateToken] accepts,
    [optionalAuth] attaches, and what [optionalAuth] attaches for a
    verified account, [authenticateToken] accepts. *)
Theorem optionalAuth_agrees authorization now (db : Collection) user token :
  (Auth.authenticateToken secret authorization now db = Next (user, token) →
     AuthGuards.optionalAuth secret authorization now db = Some (user, token)) ∧
  (AuthGuards.optionalAuth secret authorization now db = Some (user, token) →
     Auth.authenticateToken secret authorization now db
       = if isVerified user then Next (user, token)
         else Respond (failure 403
                "Email not verified. Please verify your email address.")) ∧
  (AuthGuards.optionalAuth secret authorization now db = None →
     ∃ msg, Auth.authenticateToken secret authorization now db
            = Respond (failure 401 msg)).
Proof.
  unfold Auth.authenticateToken, AuthGuards.optionalAuth.
  destruct (JWT.extractTokenFromHeader authorization) as [tok|];
    [|by repeat split; [..|eexists]].
  destruct (falsy_token (Some tok)); [by repeat split; [..|eexists]|].
  unfold JWT.verifyToken.
  destruct (verify tok secret "talkai-backend" "talkai-users" now)
    as [decoded|msg]; simpl; [|by repeat split; [..|eexists]].
  destruct (findById (userId (payload decoded)) db) as [u|];
    [|by repeat split; [..|eexists]].
  split; [|split].
  - destruct (isVerified u); simpl; [|discriminate]. by intros [= <- <-].
  - intros [= <- <-]. by destruct (isVerified u).
  - discriminate.
Qed.

(** X13.  Behind [authenticateToken] the guard [requireVerification] never
    refuses, and at least one of [requireGoogleAuth] and
    [requireEmailAuth] lets the user through; [requireEmailAuth] refuses
    only accounts that have a Google identifier and no password. *)
Theorem guards_after_authentication authorization now (db : Collection)
    user token :
  Auth.authenticateToken secret authorization now db = Next (user, token) →
  AuthGuards.requireVerification (Some user) = Next () ∧
  (AuthGuards.requireGoogleAuth (Some user) = Next ()
   ∨ AuthGuards.requireEmailAuth (Some user) = Next ()) ∧
  (AuthGuards.requireEmailAuth (Some user) ≠ Next () ↔
     falsy (googleId user) = false ∧ falsy (password user) = true).
Proof.
  intros Hauth.
  apply authenticateToken_Next_inv in Hauth as (_ & claims & _ & _ & _ & _ & _ & _ & _ & Hver).
  unfold AuthGuards.requireVerification, AuthGuards.requireGoogleAuth,
    AuthGuards.requireEmailAuth. rewrite Hver. simpl.
  split; [done|].
  destruct (falsy (googleId user)), (falsy (password user)); simpl;
    (split; [auto|]); split; try done; try (by intros []); by intros [? ?].
Qed.

End Service.

End TokenExtras.

(** ** More on saving and creating documents *)
Module PersistenceExtras.
Import Js Jsonwebtoken UserModel UserFacts SaveFacts.

Lemma findById_In x (db : Collection) :
  In x db → ∃ o, findById (_id x) db = Some o.
Proof.
  intros Hin. unfold findById, findOne.
  destruct (find _ db) as [o|] eqn:Hfind; [by exists o|].
  pose proof (find_none _ _ Hfind x Hin) as Hx. simpl in Hx.
  by rewrite bool_decide_eq_true_2 in Hx.
Qed.

Lemma findById_app_new u (db : Collection) :
  (∀ x, In x db → _id x ≠ _id u) → findById (_id u) (db ++ [u]) = Some u.
Proof.
  intros Hfresh. unfold findById. apply findOne_app_new.
  - unfold findOne. destruct (find _ db) as [o|] eqn:Hfind; [|done].
    apply find_some in Hfind as [Hin Hp].
    apply bool_decide_eq_true in Hp. by destruct (Hfresh o Hin).
  - by apply bool_decide_eq_true.
Qed.

Section Save.
Variable bcrypt_hash : string → string → string.
Variable email_match : string → bool.


(** A new document collides with no document of the collection on
    [_id], [email] or [googleId]. *)
Lemma create_Ok_fresh oid em pw gid ver prof salt now (db db' : Collection) u1 :
  create bcrypt_hash email_match oid em pw gid ver prof salt now db = (Ok u1, db') →
  ∀ x, In x db →
    _id x ≠ _id u1 ∧ email x ≠ email u1
    ∧ (∀ g, googleId u1 = Some g → googleId x ≠ Some g).
Proof.
  unfold create. destruct em as [e|]; [|discriminate].
  case_bool_decide; [discriminate|].
  destruct (email_match _); [|discriminate]. simpl.
  destruct (validate _ _); [|discriminate].
  destruct (preSave _ _ _ _) as [u|]; [|discriminate].
  destruct (existsb _ db) eqn:Hex; [discriminate|].
  intros [= <- <-] x Hin.
  match type of Hex with existsb ?f _ = false =>
    assert (Hall : f x = false) end.
  { match goal with |- ?b = false => destruct b eqn:Hb; [|done] end.
    rewrite <- Hex. symmetry. apply existsb_exists. by exists x. }
  simpl in Hall.
  apply orb_false_elim in Hall as [Hall Hg].
  apply orb_false_elim in Hall as [Hi He].
  apply bool_decide_eq_false in Hi, He.
  repeat split; [done | done |].
  intros g Hsome. unfold same_googleId in Hg. rewrite Hsome in Hg.
  by apply bool_decide_eq_false in Hg.
Qed.

End Save.

End PersistenceExtras.

(** ** Tokens handed out by the controller, and password change *)
Module SessionExtras.
Import Js Jsonwebtoken UserModel Http AuthController Registration.
Import UserFacts SaveFacts TokenFacts PersistenceExtras.

Section Controller.
Variable secret : string.
Variable bcrypt_hash : string → string → string.
Variable bcrypt_compare : string → option string → string + bool.
Variable email_match : string → bool.

(** The session token of a user is let through by [authenticateToken]
    for 7 days, as that user, on every collection that holds the user
    under its identifier. *)
Lemma session_token_accepted (u : User) now now' (db : Collection) :
  now' / 1000 < now / 1000 + 604800 →
  findById (_id u) db = Some u → isVerified u = true →
  Auth.authenticateToken secret
    (Some (JWT.Bearer (JWT.generateToken secret u now))) now' db
    = Next (u, JWT.generateToken secret u now).
Proof.
  intros Hlt Hfind Hver. unfold JWT.generateToken, sign.
  apply IntentClaims.authenticateToken_any_type; simpl;
    unfold span_7d; done || lia.
Qed.

(** X14.  The token a successful signin returns is let through by
    [authenticateToken] during the following 7 days, on the collection
    the signin leaves behind, and authenticates the user whose public
    profile the signin returned. *)
Theorem signin_token_authenticates email_ password_ salt now now'
    (db : Collection) :
  success (signin secret bcrypt_hash bcrypt_compare email_ password_
             salt now db).1 = true →
  now' / 1000 < now / 1000 + 604800 →
  ∃ d u,
    data (signin secret bcrypt_hash bcrypt_compare email_ password_
            salt now db).1 = Some d ∧
    Http.user d = getPublicProfile u ∧ lastLogin u = now ∧
    Auth.authenticateToken secret (Some (JWT.Bearer (Http.token d))) now'
      (signin secret bcrypt_hash bcrypt_compare email_ password_
         salt now db).2
      = Next (u, Http.token d).
Proof.
  unfold signin.
  destruct email_ as [e|], password_ as [p|]; try discriminate.
  destruct (falsy (Some e) || falsy (Some p)); [discriminate|].
  destruct (findByEmail e db) as [user|] eqn:Hfind; [|discriminate].
  destruct (falsy (password user)) eqn:Hpw; [discriminate|].
  destruct (comparePassword bcrypt_compare user p) as [[|]|msg];
    try discriminate.
  destruct (isVerified user) eqn:Hver; [|discriminate]. simpl negb. cbv iota.
  rewrite (save_plain bcrypt_hash user (set_lastLogin now user))
    by (done || by left).
  simpl. intros _ Hlt.
  set (u := stamped user (set_lastLogin now user) now).
  pose proof (stamped_fields user (set_lastLogin now user) now)
    as (Hid & _ & _ & _ & Hv & _ & _ & _ & _ & Hlast & _).
  fold u in Hid, Hv, Hlast. simpl in Hid, Hv, Hlast.
  exists (mkAuthData (getPublicProfile u) (JWT.generateToken secret u now)), u.
  do 3 (split; [done|]). simpl.
  apply session_token_accepted; [done | | congruence].
  apply findOne_Some in Hfind as [Hin _].
  destruct (findById_In _ _ Hin) as [o Ho].
  rewrite <- Hid in Ho. by apply (findById_replaceOne u o).
Qed.

(** X15.  After a Google login the user returned is stored under its
    identifier, and is verified whenever the profile was not linked
    before.  The token [handleOAuthSuccess] returns is let through by
    [authenticateToken] during the following 7 days when the user is
    verified, and refused with status 403 otherwise. *)
Theorem google_login_token profile oid salt now now'
    (db db1 : Collection) u1 :
  findOrCreateGoogleUser bcrypt_hash email_match profile oid salt now db
    = (Ok u1, db1) →
  now' / 1000 < now / 1000 + 604800 →
  findById (_id u1) db1 = Some u1 ∧
  (findByGoogleId (id profile) db = None → isVerified u1 = true) ∧
  ∃ d,
    data (handleOAuthSuccess secret u1 now) = Some d ∧
    Http.user d = getPublicProfile u1 ∧
    Auth.authenticateToken secret (Some (JWT.Bearer (Http.token d))) now' db1
      = if isVerified u1 then Next (u1, Http.token d)
        else Respond (failure 403
               "Email not verified. Please verify your email address.").
Proof.
  intros Hlink Hlt.
  assert (Hstored : findById (_id u1) db1 = Some u1
                    ∧ (findByGoogleId (id profile) db = None →
                       isVerified u1 = true)).
  { unfold findOrCreateGoogleUser in Hlink.
    destruct (findByGoogleId (id profile) db) as [o|] eqn:Hg.
    - apply save_Ok_inv in Hlink as (-> & Hid & _).
      simpl in Hid. split; [|discriminate].
      apply findOne_Some in Hg as [Hin _].
      destruct (findById_In _ _ Hin) as [o' Ho'].
      rewrite <- Hid in Ho'. by apply (findById_replaceOne u1 o').
    - destruct (match emails profile with
                | e :: _ => findByEmail e db
                | [] => None
                end) as [o|] eqn:He.
      + apply save_Ok_inv in Hlink as (-> & Hid & _ & _ & Hver & _).
        simpl in Hid, Hver. split; [|done].
        assert (Hin : In o db).
        { destruct (emails profile); [discriminate|].
          by apply findOne_Some in He as [Hin _]. }
        destruct (findById_In _ _ Hin) as [o' Ho'].
        rewrite <- Hid in Ho'. by apply (findById_replaceOne u1 o').
      + pose proof (create_Ok_fresh _ _ _ _ _ _ _ _ _ _ _ _ _ Hlink) as Hfresh.
        apply create_Ok_inv in Hlink as (-> & _ & _ & Hver & _).
        split; [|done]. apply findById_app_new.
        intros x Hin. by destruct (Hfresh x Hin). }
  destruct Hstored as [Hfind Hver]. split; [done|]. split; [done|].
  unfold handleOAuthSuccess. simpl. eexists. split; [reflexivity|].
  split; [reflexivity|]. simpl.
  destruct (isVerified u1) eqn:Hv.
  - by apply session_token_accepted.
  - unfold Auth.authenticateToken, JWT.generateToken, sign. simpl.
    unfold JWT.verifyToken.
    rewrite verify_signed by (simpl; unfold span_7d; done || lia).
    simpl. by rewrite Hfind, Hv.
Qed.

Local Ltac refused := simpl; repeat split; intros; discriminate || reflexivity.

(** X16.  A password change that fails leaves the collection as it is, and
    an account without a password is always refused.  A change that
    succeeds was given the current password and a new one of at least
    6 characters, and writes one record: that of the user, with the
    new password hashed and the other fields, the pending reset token
    included, as they were. *)
Theorem changePassword_spec (req_user : User) currentPassword newPassword
    salt now (db : Collection) :
  let r := changePassword bcrypt_hash bcrypt_compare req_user
             currentPassword newPassword salt now db in
  (success r.1 = false → r.2 = db) ∧
  (falsy (password req_user) = true → success r.1 = false) ∧
  (success r.1 = true →
     ∃ cur new u2,
       currentPassword = Some cur ∧ newPassword = Some new ∧
       (6 <= String.length new)%nat ∧
       comparePassword bcrypt_compare req_user cur = Ok true ∧
       r.1 = ok "Password changed successfully" ∧
       r.2 = replaceOne u2 db ∧ _id u2 = _id req_user ∧
       password u2 = (if bool_decide (Some new ≠ password req_user)
                      then Some (bcrypt_hash new salt) else Some new) ∧
       email u2 = email req_user ∧ googleId u2 = googleId req_user ∧
       isVerified u2 = isVerified req_user ∧
       resetPasswordToken u2 = resetPasswordToken req_user ∧
       resetPasswordExpires u2 = resetPasswordExpires req_user).
Proof.
  unfold changePassword.
  destruct currentPassword as [cur|], newPassword as [new|]; try refused.
  destruct (falsy (Some cur) || falsy (Some new)); [refused|].
  destruct (String.length new <? 6)%nat eqn:Hlen; [refused|].
  destruct (falsy (password req_user)) eqn:Hpw; [refused|].
  destruct (comparePassword bcrypt_compare req_user cur) as [[|]|msg] eqn:Hcmp;
    try refused.
  destruct (save _ _ _ _ _ _) as [[u2|e] db'] eqn:Hsave.
  - simpl. split; [discriminate|]. split; [discriminate|]. intros _.
    apply save_Ok_inv in Hsave
      as (-> & Hid & Hem & Hg & Hv & _ & Ht & Hx & _ & _ & _ & Hp).
    simpl in *. exists cur, new, u2.
    apply Nat.ltb_ge in Hlen.
    repeat split; try done; rewrite Hp;
      unfold stored_password, isModified_password; simpl;
      by case_bool_decide.
  - apply save_Throw in Hsave as ->. refused.
Qed.

End Controller.

End SessionExtras.

(** ** Requesting a code and registering *)
Module RegistrationExtras.
Import Js Jsonwebtoken UserModel Http Registration.
Import UserFacts SaveFacts PersistenceExtras OTPFacts.

Section Controller.
Variable secret : string.
Variable bcrypt_hash : string → string → string.
Variable email_match : string → bool.
Variable mailer_initialized : bool.
Variable sendMail : string → Result unit.

(** X17.  A request for a code that is refused with status 400 (no valid
    address, or a verified account exists) leaves the challenge store
    as it is, and so does a request whose [email] is a truthy value
    that is not a string, which is answered with status 500.  Every
    other request carries a string that passes the test of the
    address and stores a challenge for the address as given; the code
    stays valid for 10 minutes even when the mail could not be sent
    (status 500).  On success the answer announces 600 seconds, which
    is what [getRemainingTime] reports at that instant. *)
Theorem sendOTP_spec email_ random now (db : Collection) (otps : OTP.Store) :
  let r := sendOTP email_match mailer_initialized sendMail
             email_ random now db otps in
  (otp_status r.1 = 400 → r.2 = otps) ∧
  (email_ = Other true →
     r = (otp_failure 500 "Failed to send OTP", otps)) ∧
  (otp_status r.1 ≠ 400 → email_ ≠ Other true →
     ∃ e, email_ = Text e ∧ email_match e = true ∧
          r.2 = OTP.storeOTP e (OTP.generateOTP random) now otps ∧
          ∀ now', now' <= now + 600000 →
            OTP.verifyOTP e (OTP.generateOTP random) now' r.2
              = (OTP.Verified, delete e otps)) ∧
  (otp_success r.1 = true →
     ∃ e, email_ = Text e ∧ otp_data r.1 = Some (mkSendOtpData e 600) ∧
          OTP.getRemainingTime e now r.2 = 600) ∧
  (∀ e user, email_ = Text e → findByEmail e db = Some user →
     isVerified user = true → otp_status r.1 = 400).
Proof.
  unfold sendOTP. destruct email_ as [|e|[|]].
  1, 3, 4: simpl; repeat split; done.
  destruct (falsy (Some e) || negb (email_match e)) eqn:Hval.
  { simpl. repeat split; done. }
  apply orb_false_elim in Hval as [_ Hmatch].
  apply negb_false_iff in Hmatch.
  destruct (match findByEmail e db with
            | Some user => isVerified user
            | None => false
            end) eqn:Hexists.
  { simpl. repeat split; done. }
  assert (Hstored : ∀ now', now' <= now + 600000 →
            OTP.verifyOTP e (OTP.generateOTP random) now'
              (OTP.storeOTP e (OTP.generateOTP random) now otps)
            = (OTP.Verified, delete e otps)).
  { intros now' Hle.
    assert (Hl : OTP.storeOTP e (OTP.generateOTP random) now otps !! e
                 = Some (OTP.mkChallenge (OTP.generateOTP random)
                           (now + 600000) 0)) by apply lookup_insert_eq.
    pose proof (verifyOTP_correct e now' _ _ Hl) as Hok. simpl in Hok.
    rewrite Hok by lia. unfold OTP.storeOTP. by rewrite delete_insert_eq. }
  assert (Hrem : OTP.getRemainingTime e now
                   (OTP.storeOTP e (OTP.generateOTP random) now otps) = 600).
  { unfold OTP.getRemainingTime, OTP.storeOTP. rewrite lookup_insert_eq. simpl.
    replace (now + 10 * 60 * 1000 - now) with 600000 by lia. reflexivity. }
  assert (Hrefuse : ∀ e' user, Text e = Text e' → findByEmail e' db = Some user →
            isVerified user = true → False).
  { intros e' user [= <-] Hfind Hver. rewrite Hfind in Hexists. congruence. }
  destruct (EmailMessages.sendOTP _ _ _ _); simpl.
  - split; [discriminate|]. split; [discriminate|].
    split; [by intros _ _; exists e|].
    split; [by intros _; exists e|]. intros e' user H1 H2 H3.
    by destruct (Hrefuse e' user).
  - split; [discriminate|]. split; [discriminate|].
    split; [by intros _ _; exists e|].
    split; [discriminate|]. intros e' user H1 H2 H3.
    by destruct (Hrefuse e' user).
Qed.

Local Ltac early :=
  simpl; repeat split; intros; try discriminate; try reflexivity.

(** X18.  Registration.  A request that lacks a field or has a password
    shorter than 6 characters is refused before the code is looked at:
    it costs no attempt.  A request that fails never changes the user
    collection.  A request that succeeds presented the stored code of
    a live challenge, which it consumed; it returns a verified user
    stored under its identifier, whatever happens to the welcome
    mail, and the same request sent again is refused with
    ["OTP not found or expired"], changing nothing. *)
Theorem verifyOTPAndRegister_spec email_ otp_ password_ name_ oid salt now
    (db : Collection) (otps : OTP.Store) :
  let r := verifyOTPAndRegister secret bcrypt_hash email_match
             mailer_initialized sendMail
             email_ otp_ password_ name_ oid salt now db otps in
  ((falsy email_ = true ∨ falsy otp_ = true ∨ falsy password_ = true
    ∨ ∃ p, password_ = Some p ∧ (String.length p < 6)%nat) →
     r = (r.1.1, db, otps) ∧ status r.1.1 = 400) ∧
  (success r.1.1 = false → r.1.2 = db) ∧
  (success r.1.1 = true →
     ∃ e code u d,
       email_ = Some e ∧ otp_ = Some code ∧
       OTP.verifyOTP e code now otps = (OTP.Verified, delete e otps) ∧
       r.2 = delete e otps ∧
       data r.1.1 = Some d ∧ Http.user d = getPublicProfile u ∧
       token d = JWT.generateToken secret u now ∧
       isVerified u = true ∧
       (r.1.2 = replaceOne u db ∨ r.1.2 = db ++ [u]) ∧
       findById (_id u) r.1.2 = Some u ∧
       verifyOTPAndRegister secret bcrypt_hash email_match
         mailer_initialized sendMail
         email_ otp_ password_ name_ oid salt now r.1.2 r.2
         = (failure 400 "OTP not found or expired", r.1.2, r.2)) ∧
  (∀ initialized' sendMail',
     verifyOTPAndRegister secret bcrypt_hash email_match
       initialized' sendMail'
       email_ otp_ password_ name_ oid salt now db otps = r).
Proof.
  unfold verifyOTPAndRegister.
  destruct email_ as [e|], otp_ as [code|], password_ as [p|];
    try (early; tauto).
  destruct (falsy (Some e) || falsy (Some code) || falsy (Some p)) eqn:Hreq.
  { early. }
  apply orb_false_elim in Hreq as [Hreq Hp0].
  apply orb_false_elim in Hreq as [He0 Hc0].
  destruct (String.length p <? 6)%nat eqn:Hlen.
  { early. }
  apply Nat.ltb_ge in Hlen.
  split.
  { intros [H|[H|[H|(p' & [= <-] & H)]]]; try congruence. lia. }
  destruct (OTP.verifyOTP e code now otps) as [verdict otps'] eqn:Hverify.
  destruct (OTP.valid verdict) eqn:Hvalid; simpl negb; cbv iota.
  2: { early. }
  assert (Hv := Hvalid). replace verdict with (OTP.verifyOTP e code now otps).1 in Hv
    by (by rewrite Hverify).
  apply OTPExtras.verifyOTP_valid_inv in Hv as (stored & Hstored & Hcode & Hlive & Hfew).
  assert (Hver : OTP.verifyOTP e code now otps = (OTP.Verified, delete e otps)).
  { rewrite <- Hcode. by apply OTPFacts.verifyOTP_correct. }
  assert (Hnext : ∀ cand' now',
            OTP.verifyOTP e cand' now' (delete e otps)
              = (OTP.NotFound, delete e otps)).
  { intros cand' now'. apply OTPFacts.verifyOTP_absent. apply lookup_delete_eq. }
  clear stored Hstored Hcode Hlive Hfew.
  rewrite Hverify in Hver. injection Hver as -> ->.
  set (saved := match findByEmail e db with
                | Some user => _
                | None => _
                end).
  assert (Hsaved : ∀ u db', saved = (Ok u, db') →
            isVerified u = true
            ∧ (db' = replaceOne u db ∨ db' = db ++ [u])
            ∧ findById (_id u) db' = Some u).
  { intros u db' Hs. subst saved.
    destruct (findByEmail e db) as [user|] eqn:Hfind.
    - apply save_Ok_inv in Hs as (-> & Hid & _ & _ & Hver & _).
      split; [|split; [by left|]].
      + rewrite Hver. by destruct (falsy name_).
      + apply findOne_Some in Hfind as [Hin _].
        destruct (findById_In _ _ Hin) as [o Ho].
        assert (Hid' : _id u = _id user) by (rewrite Hid; by destruct (falsy name_)).
        rewrite <- Hid' in Ho. by apply (findById_replaceOne u o).
    - pose proof (create_Ok_fresh _ _ _ _ _ _ _ _ _ _ _ _ _ Hs) as Hfresh.
      apply create_Ok_inv in Hs as (-> & _ & _ & Hver & _).
      split; [done|]. split; [by right|]. apply findById_app_new.
      intros x Hin. by destruct (Hfresh x Hin). }
  assert (Hthrow : ∀ msg db', saved = (Throw msg, db') → db' = db).
  { intros msg db' Hs. subst saved.
    destruct (findByEmail e db);
      [by apply save_Throw in Hs | by apply create_Throw in Hs]. }
  destruct saved as [[u|msg] db'] eqn:Hs.
  - destruct (Hsaved u db' eq_refl) as (Hver & Hdb & Hfind).
    assert (Hanswer : ∀ (m : Result unit) (a : Response * Collection * OTP.Store),
              match m with Ok _ => a | Throw _ => a end = a)
      by (by intros []).
    rewrite !Hanswer. simpl. split; [discriminate|]. split.
    + intros _. exists e, code, u. eexists. do 5 (split; [done|]).
      do 5 (split; [done|]).
      simpl in Hnext. simpl. by rewrite (Hnext code now).
    + intros i' s'. by rewrite Hanswer.
  - rewrite (Hthrow msg db' eq_refl).
    destruct (duplicate_key msg); early.
Qed.

End Controller.

End RegistrationExtras.

(** ** Whole flows *)
Module FlowExtras.
Import Js Jsonwebtoken UserModel Http AuthController Registration.
Import UserFacts SaveFacts TokenFacts PersistenceExtras OTPFacts.

Lemma digits_go_nonempty fuel n acc :
  acc ≠ "" → digits_go fuel n acc ≠ "".
Proof.
  revert n acc. induction fuel as [|fuel IH]; intros n acc Hacc; simpl; [done|].
  destruct (n / 10 =? 0); [done|]. by apply IH.
Qed.

Lemma toString_nonempty n : toString n ≠ "".
Proof.
  unfold toString. destruct (n <? 0); [done|]. simpl.
  destruct (n / 10 =? 0); [done|]. by apply digits_go_nonempty.
Qed.

Lemma lower_ascii_idem c : lower_ascii (lower_ascii c) = lower_ascii c.
Proof. by destruct c as [[] [] [] [] [] [] [] []]. Qed.

Lemma toLowerCase_idem s : toLowerCase (toLowerCase s) = toLowerCase s.
Proof.
  induction s as [|c s IH]; simpl; [done|]. by rewrite lower_ascii_idem, IH.
Qed.

(** The query of [findByEmail] looks for the address as the setters of
    the schema store it. *)
Lemma email_setters_lower s : email_setters (toLowerCase s) = email_setters s.
Proof. unfold email_setters. by rewrite toLowerCase_idem. Qed.

Lemma toLowerCase_nonempty s : s ≠ "" → toLowerCase s ≠ "".
Proof. by destruct s. Qed.

Lemma length_nonempty (s : string) : (6 <= String.length s)%nat → s ≠ "".
Proof. destruct s; simpl; [lia | done]. Qed.

Lemma existsb_none {A} (f : A → bool) (l : list A) :
  (∀ x, In x l → f x = false) → existsb f l = false.
Proof.
  intros H. destruct (existsb f l) eqn:Hex; [|done].
  apply existsb_exists in Hex as (x & Hin & Hx). by rewrite (H x Hin) in Hx.
Qed.

Lemma findOne_None_all (p : User → bool) (db : Collection) x :
  findOne p db = None → In x db → p x = false.
Proof. intros H Hin. by apply (find_none _ _ H). Qed.

Section Flows.
Variable secret : string.
Variable bcrypt_hash : string → string → string.
Variable bcrypt_compare : string → option string → string + bool.
Variable email_match : string → bool.
Variable mailer_initialized : bool.
Variable sendMail : string → Result unit.

(** Creating a password account succeeds when the address is valid
    and new, the identifier unused and the password long enough. *)
Lemma create_password_account oid e pw prof salt now (db : Collection) :
  email_setters e ≠ "" → email_match (email_setters e) = true →
  (6 <= String.length pw)%nat →
  (∀ x, In x db → _id x ≠ oid ∧ email x ≠ email_setters e) →
  create bcrypt_hash email_match oid (Some e) (Some pw) None true prof
    salt now db
  = (Ok (mkUser oid (email_setters e) (Some (bcrypt_hash pw salt)) None true
           None None Undefined prof now now now),
     db ++ [mkUser oid (email_setters e) (Some (bcrypt_hash pw salt)) None
              true None None Undefined prof now now now]).
Proof.
  intros He Hm Hlen Hfresh. unfold create.
  rewrite bool_decide_eq_false_2 by done. rewrite Hm. simpl.
  unfold validate, preSave, isModified_password. simpl.
  rewrite (bool_decide_eq_false_2 (pw = "")) by (by apply length_nonempty).
  replace (String.length pw <? 6)%nat with false
    by (symmetry; by apply Nat.ltb_ge).
  simpl. rewrite existsb_none; [done|].
  intros x Hin. destruct (Hfresh x Hin) as [Hi Hem]. simpl.
  rewrite !bool_decide_eq_false_2 by done. done.
Qed.

(** X19.  Signing up and signing in.  For a new, valid address: a code is
    requested, the registration presents it within 10 minutes with a
    password of at least 6 characters, and the signin that follows with
    the same address and password succeeds, provided [bcrypt] accepts
    the password against its own hash.  The code is consumed and the
    new account is verified. *)
Theorem signup_then_signin e pw name_ random oid salt1 salt2 t0 t1 t2
    (db : Collection) (otps : OTP.Store) :
  e ≠ "" → email_match e = true →
  email_match (email_setters e) = true → email_setters e = toLowerCase e →
  findByEmail e db = None → (∀ x, In x db → _id x ≠ oid) →
  (6 <= String.length pw)%nat →
  mailer_initialized = true → sendMail e = Ok () →
  t1 <= t0 + 600000 →
  bcrypt_hash pw salt1 ≠ "" →
  bcrypt_compare pw (Some (bcrypt_hash pw salt1)) = inr true →
  let sent := sendOTP email_match mailer_initialized sendMail
                (Text e) random t0 db otps in
  let registered :=
    verifyOTPAndRegister secret bcrypt_hash email_match
      mailer_initialized sendMail
      (Some e) (Some (OTP.generateOTP random)) (Some pw) name_
      oid salt1 t1 db sent.2 in
  let signed := signin secret bcrypt_hash bcrypt_compare
                  (Some e) (Some pw) salt2 t2 registered.1.2 in
  otp_success sent.1 = true ∧
  success registered.1.1 = true ∧
  registered.2 = delete e otps ∧
  (∃ u, registered.1.2 = db ++ [u] ∧ _id u = oid ∧
        email u = toLowerCase e ∧ isVerified u = true ∧
        password u = Some (bcrypt_hash pw salt1)) ∧
  success signed.1 = true.
Proof.
  intros He Hm1 Hm2 Htrim Hnew Hoid Hlen Hinit Hsend Ht Hhash Hcmp.
  assert (Hsent : sendOTP email_match mailer_initialized sendMail
                    (Text e) random t0 db otps
                  = (mkSendOtpResponse 200 true (Some "OTP sent successfully")
                       None (Some (mkSendOtpData e 600)),
                     OTP.storeOTP e (OTP.generateOTP random) t0 otps)).
  { unfold sendOTP. simpl. rewrite bool_decide_eq_false_2 by done.
    rewrite Hm1, Hnew. simpl.
    unfold EmailMessages.sendOTP. by rewrite Hinit, Hsend. }
  set (u := mkUser oid (email_setters e) (Some (bcrypt_hash pw salt1)) None
              true None None Undefined
              (mkProfile (Some (name_setter (if falsy name_ then ""
                                             else default "" name_))) None)
              t1 t1 t1).
  assert (Hreg : verifyOTPAndRegister secret bcrypt_hash email_match
                   mailer_initialized sendMail
                   (Some e) (Some (OTP.generateOTP random)) (Some pw) name_
                   oid salt1 t1 db
                   (OTP.storeOTP e (OTP.generateOTP random) t0 otps)
                 = (ok_with "Registration completed successfully"
                      (mkAuthData (getPublicProfile u)
                         (JWT.generateToken secret u t1)),
                    db ++ [u], delete e otps)).
  { unfold verifyOTPAndRegister. with_strategy opaque [create] simpl.
    rewrite (bool_decide_eq_false_2 (e = "")) by done.
    rewrite (bool_decide_eq_false_2 (OTP.generateOTP random = ""))
      by (destruct (OTPClaims.generateOTP_integer random) as (n & _ & ->);
          apply toString_nonempty).
    rewrite (bool_decide_eq_false_2 (pw = "")) by (by apply length_nonempty).
    replace (String.length pw <? 6)%nat with false
      by (symmetry; by apply Nat.ltb_ge).
    with_strategy opaque [create] simpl.
    assert (Hl : OTP.storeOTP e (OTP.generateOTP random) t0 otps !! e
                 = Some (OTP.mkChallenge (OTP.generateOTP random)
                           (t0 + 600000) 0)) by apply lookup_insert_eq.
    pose proof (verifyOTP_correct e t1 _ _ Hl) as Hok. simpl in Hok.
    rewrite Hok by lia. unfold OTP.storeOTP. rewrite delete_insert_eq.
    with_strategy opaque [create] simpl. rewrite Hnew.
    rewrite create_password_account; try done.
    - fold u. unfold EmailMessages.sendWelcomeEmail.
      rewrite Hinit, Hsend. by simpl.
    - rewrite Htrim. by apply toLowerCase_nonempty.
    - intros x Hin. split; [by apply Hoid|].
      pose proof (findOne_None_all _ _ x Hnew Hin) as Hx. simpl in Hx.
      apply bool_decide_eq_false in Hx. by rewrite email_setters_lower in Hx. }
  cbv zeta. rewrite Hsent. cbn [fst snd]. rewrite Hreg. cbn [fst snd].
  split; [done|]. split; [done|]. split; [done|]. split.
  { exists u. by rewrite <- Htrim. }
  unfold signin. simpl.
  rewrite (bool_decide_eq_false_2 (e = "")) by done.
  rewrite (bool_decide_eq_false_2 (pw = "")) by (by apply length_nonempty).
  simpl.
  assert (Hfind : findByEmail e (db ++ [u]) = Some u).
  { unfold findByEmail. apply findOne_app_new; [done|].
    apply bool_decide_eq_true. simpl. by rewrite email_setters_lower. }
  rewrite Hfind. simpl.
  rewrite (bool_decide_eq_false_2 (bcrypt_hash pw salt1 = "")) by done.
  unfold comparePassword. simpl. rewrite Hcmp.
  rewrite (save_plain bcrypt_hash u (set_lastLogin t2 u));
    [done | done | done | | by left].
  intros _. simpl. by apply bool_decide_eq_false_2.
Qed.


End Flows.

End FlowExtras.

(** ** The unique indexes are kept *)
Module IndexExtras.
Import Js Jsonwebtoken UserModel Http AuthController Registration Indexes.
Import UserFacts SaveFacts PersistenceExtras.

Lemma NoDup_map_eq {B} (f : User → B) (db : Collection) x y :
  NoDup (map f db) → In x db → In y db → f x = f y → x = y.
Proof.
  induction db as [|z db IH]; simpl; intros Hnd Hx Hy Hf; [done|].
  apply NoDup_cons in Hnd as [Hz Hnd].
  destruct Hx as [->|Hx], Hy as [->|Hy]; [done| | |by apply IH].
  - destruct Hz. rewrite Hf. apply list_elem_of_In. by apply in_map.
  - destruct Hz. rewrite <- Hf. apply list_elem_of_In. by apply in_map.
Qed.

Lemma In_replaceOne u (db : Collection) y :
  In y (replaceOne u db) → y = u ∨ (In y db ∧ _id y ≠ _id u).
Proof.
  unfold replaceOne. rewrite in_map_iff. intros (x & Hx & Hin).
  case_bool_decide; subst; [by left | by right].
Qed.

(** Replacing a document keeps a key unique when no other document
    carries the key of the new version. *)
Lemma replaceOne_NoDup_map {B} (f : User → B) u (db : Collection) :
  NoDup (map _id db) → NoDup (map f db) →
  (∀ x, In x db → _id x ≠ _id u → f x ≠ f u) →
  NoDup (map f (replaceOne u db)).
Proof.
  induction db as [|x db IH]; intros Hids Hnd Hother; [constructor|].
  simpl in Hids, Hnd. apply NoDup_cons in Hids as [Hix Hids].
  apply NoDup_cons in Hnd as [Hfx Hnd].
  change (replaceOne u (x :: db))
    with ((if bool_decide (_id x = _id u) then u else x) :: replaceOne u db).
  case_bool_decide as Hid; simpl; apply NoDup_cons.
  - rewrite replaceOne_absent.
    + split; [|done]. intros Hin. apply list_elem_of_In, in_map_iff in Hin
        as (y & Hy & Hin).
      apply (Hother y); [by right | | done].
      intros Hyid. apply Hix. rewrite Hid, <- Hyid.
      apply list_elem_of_In. by apply in_map.
    + intros y Hin Hyid. apply Hix. rewrite Hid, <- Hyid.
      apply list_elem_of_In. by apply in_map.
  - split.
    + intros Hin. apply list_elem_of_In, in_map_iff in Hin as (y & Hy & Hin).
      apply In_replaceOne in Hin as [->|[Hin _]].
      * apply (Hother x); [by left | done | done].
      * apply Hfx. rewrite <- Hy. apply list_elem_of_In. by apply in_map.
    + apply IH; [done | done |]. intros y Hin. apply Hother. by right.
Qed.

Lemma In_omap_googleId g (db : Collection) :
  In g (omap googleId db) ↔ ∃ x, In x db ∧ googleId x = Some g.
Proof.
  rewrite <- list_elem_of_In, list_elem_of_omap.
  split; intros (x & H1 & H2); exists x; split; try done;
    by apply list_elem_of_In.
Qed.

Lemma replaceOne_NoDup_googleId u (db : Collection) :
  NoDup (map _id db) → NoDup (omap googleId db) →
  (∀ x g, In x db → _id x ≠ _id u → googleId u = Some g → googleId x ≠ Some g) →
  NoDup (omap googleId (replaceOne u db)).
Proof.
  induction db as [|x db IH]; intros Hids Hnd Hother; [constructor|].
  simpl in Hids. apply NoDup_cons in Hids as [Hix Hids].
  assert (Htail : NoDup (omap googleId db)).
  { simpl in Hnd. destruct (googleId x); [by apply NoDup_cons in Hnd as [_ ?]|done]. }
  change (replaceOne u (x :: db))
    with ((if bool_decide (_id x = _id u) then u else x) :: replaceOne u db).
  case_bool_decide as Hid.
  - rewrite replaceOne_absent.
    2: { intros y Hin Hyid. apply Hix. rewrite Hid, <- Hyid.
         apply list_elem_of_In. by apply in_map. }
    simpl. destruct (googleId u) as [g|] eqn:Hg; [|done].
    apply NoDup_cons. split; [|done].
    intros Hin. apply list_elem_of_In, In_omap_googleId in Hin as (y & Hin & Hy).
    apply (Hother y g); [by right | | done | done].
    intros Hyid. apply Hix. rewrite Hid, <- Hyid.
    apply list_elem_of_In. by apply in_map.
  - assert (IH' : NoDup (omap googleId (replaceOne u db))).
    { apply IH; [done | done |]. intros y g Hin. apply Hother. by right. }
    simpl. destruct (googleId x) as [g|] eqn:Hg; [|done].
    apply NoDup_cons. split; [|done].
    intros Hin. apply list_elem_of_In, In_omap_googleId in Hin as (y & Hin & Hy).
    apply In_replaceOne in Hin as [->|[Hin _]].
    + by apply (Hother x g); [left | | |].
    + simpl in Hnd. rewrite Hg in Hnd. apply NoDup_cons in Hnd as [Hgx _].
      apply Hgx. apply list_elem_of_In, In_omap_googleId. by exists y.
Qed.

Section Persistence.
Variable bcrypt_hash : string → string → string.
Variable email_match : string → bool.

(** What the duplicate check of a successful save has established. *)
Lemma save_Ok_checks orig u salt now (db db' : Collection) u2 :
  save bcrypt_hash orig u salt now db = (Ok u2, db') →
  (googleId u2 = googleId orig
   ∨ ∀ x, In x db → _id x ≠ _id u2 → same_googleId u2 x = false) ∧
  (email u2 = email orig
   ∨ ∀ x, In x db → _id x ≠ _id u2 → email x ≠ email u2).
Proof.
  unfold save. destruct (validate _ _); [|discriminate].
  destruct (preSave _ _ _ _) as [u1|]; [|discriminate].
  set (v := if bool_decide (u = orig) then u1 else set_updatedAt now u1).
  destruct (_ || _) eqn:Hcheck; [discriminate|].
  intros [= <- <-]. apply orb_false_elim in Hcheck as [Hg He].
  split.
  - apply andb_false_iff in Hg as [Hg|Hg].
    + left. apply negb_false_iff in Hg. by apply bool_decide_eq_true in Hg.
    + right. intros x Hin Hid.
      destruct (same_googleId v x) eqn:Hs; [|done].
      rewrite <- Hg. symmetry. apply existsb_exists. exists x.
      split; [done|]. by rewrite bool_decide_eq_false_2, Hs.
  - apply andb_false_iff in He as [He|He].
    + left. apply negb_false_iff in He. by apply bool_decide_eq_true in He.
    + right. intros x Hin Hid Hem.
      assert (Htrue : existsb (λ x, negb (bool_decide (_id x = _id v))
                                    && bool_decide (email x = email v)) db
                      = true).
      { apply existsb_exists. exists x. split; [done|].
        by rewrite bool_decide_eq_false_2, bool_decide_eq_true_2. }
      congruence.
Qed.

(** Saving a loaded document keeps the keys unique. *)
Lemma save_unique orig u salt now (db db' : Collection) r :
  unique_keys db → In orig db → _id u = _id orig →
  save bcrypt_hash orig u salt now db = (r, db') → unique_keys db'.
Proof.
  intros (Hids & Hems & Hgs) Hin Hid Hsave. destruct r as [u2|msg].
  2: { by apply save_Throw in Hsave as ->. }
  pose proof (save_Ok_checks _ _ _ _ _ _ _ Hsave) as [Hg He].
  apply save_Ok_inv in Hsave as (-> & Hid2 & _).
  assert (Hother : ∀ x, In x db → _id x ≠ _id u2 → x ≠ orig).
  { intros x _ Hx ->. congruence. }
  split; [by rewrite ids_replaceOne|]. split.
  - apply replaceOne_NoDup_map; [done | done |].
    intros x Hx Hxid. destruct He as [He|He]; [|by apply He].
    rewrite He. intros Heq. apply (Hother x Hx Hxid).
    by apply (NoDup_map_eq email db).
  - apply replaceOne_NoDup_googleId; [done | done |].
    intros x g Hx Hxid Hsome Hxg. destruct Hg as [Hg|Hg].
    + assert (x = orig); [|by apply (Hother x Hx Hxid)].
      assert (Hnd : NoDup (map _id db)) by done.
      clear Hids. revert Hx Hin Hxg. rewrite Hg in Hsome. revert Hsome Hgs.
      clear. intros Hsome Hgs Hx Hin Hxg.
      induction db as [|z db IH]; [done|]. simpl in Hgs.
      destruct Hx as [->|Hx], Hin as [->|Hin]; [done| | |].
      * rewrite Hxg in Hgs. apply NoDup_cons in Hgs as [Hz _]. destruct Hz.
        apply list_elem_of_In, In_omap_googleId. by exists orig.
      * rewrite Hsome in Hgs. apply NoDup_cons in Hgs as [Hz _]. destruct Hz.
        apply list_elem_of_In, In_omap_googleId. by exists x.
      * apply IH; [|done|done].
        destruct (googleId z); [by apply NoDup_cons in Hgs as [_ ?]|done].
    + specialize (Hg x Hx Hxid). unfold same_googleId in Hg.
      rewrite Hsome in Hg. by apply bool_decide_eq_false in Hg.
Qed.

(** Creating a document keeps the keys unique. *)
Lemma create_unique oid em pw gid ver prof salt now (db db' : Collection) r :
  unique_keys db →
  create bcrypt_hash email_match oid em pw gid ver prof salt now db = (r, db') →
  unique_keys db'.
Proof.
  intros (Hids & Hems & Hgs) Hcreate. destruct r as [u1|msg].
  2: { by apply create_Throw in Hcreate as ->. }
  pose proof (create_Ok_fresh _ _ _ _ _ _ _ _ _ _ _ _ _ Hcreate) as Hfresh.
  apply create_Ok_inv in Hcreate as (-> & _).
  unfold unique_keys. rewrite !map_app, omap_app. simpl.
  split; [|split].
  - apply NoDup_app. split; [done|]. split; [|apply NoDup_singleton].
    intros i Hi Hi'. apply list_elem_of_singleton in Hi' as ->.
    apply list_elem_of_In, in_map_iff in Hi as (x & Hx & Hin).
    by destruct (Hfresh x Hin) as (? & _).
  - apply NoDup_app. split; [done|]. split; [|apply NoDup_singleton].
    intros i Hi Hi'. apply list_elem_of_singleton in Hi' as ->.
    apply list_elem_of_In, in_map_iff in Hi as (x & Hx & Hin).
    by destruct (Hfresh x Hin) as (_ & ? & _).
  - apply NoDup_app. split; [done|].
    destruct (googleId u1) as [g|] eqn:Hg; simpl.
    + split; [|apply NoDup_singleton].
      intros i Hi Hi'. apply list_elem_of_singleton in Hi' as ->.
      apply list_elem_of_In, In_omap_googleId in Hi as (x & Hin & Hx).
      destruct (Hfresh x Hin) as (_ & _ & Hgx). by apply (Hgx g).
    + split; [|constructor]. intros i _ Hi'. by apply elem_of_nil in Hi'.
Qed.

End Persistence.


Section Handlers.
Variable secret : string.
Variable bcrypt_hash : string → string → string.
Variable bcrypt_compare : string → option string → string + bool.
Variable email_match : string → bool.
Variable mailer_initialized : bool.
Variable sendMail : string → Result unit.

Lemma findByEmail_In e o (db : Collection) :
  findByEmail e db = Some o → In o db.
Proof. intros H. by apply findOne_Some in H as [? _]. Qed.

Lemma save_found_unique orig u salt now (db : Collection) :
  unique_keys db → In orig db → _id u = _id orig →
  unique_keys (save bcrypt_hash orig u salt now db).2.
Proof.
  intros Hu Hin Hid.
  destruct (save bcrypt_hash orig u salt now db) as [r db'] eqn:Hs.
  by apply (save_unique bcrypt_hash orig u salt now db db' r).
Qed.

(** X21.  Every handler that writes to the users collection keeps the
    three keys unique: if no two documents share an [_id], an e-mail
    address or a Google identifier before [signin],
    [requestPasswordReset], [resetPassword], [changePassword] (for a
    user of the collection), [verifyOTPAndRegister] or
    [findOrCreateGoogleUser], none do afterwards, whatever the handler
    answers. *)
Theorem handlers_keep_unique_keys (db : Collection) :
  unique_keys db →
  (∀ e p salt now,
     unique_keys (signin secret bcrypt_hash bcrypt_compare e p salt now db).2) ∧
  (∀ e salt now,
     unique_keys (requestPasswordReset secret bcrypt_hash mailer_initialized
                    sendMail e salt now db).2) ∧
  (∀ t p salt now,
     unique_keys (resetPassword secret bcrypt_hash t p salt now db).2) ∧
  (∀ u c n salt now, In u db →
     unique_keys (changePassword bcrypt_hash bcrypt_compare u c n salt now db).2) ∧
  (∀ e o p n oid salt now otps,
     unique_keys (verifyOTPAndRegister secret bcrypt_hash email_match
                    mailer_initialized sendMail e o p n oid salt now db otps).1.2) ∧
  (∀ profile oid salt now,
     unique_keys (findOrCreateGoogleUser bcrypt_hash email_match profile oid
                    salt now db).2).
Proof.
  intros Hu. split; [|split; [|split; [|split; [|split]]]].
  - intros e p salt now. unfold signin.
    destruct e as [e|], p as [p|]; try done.
    destruct (_ || _); [done|].
    destruct (findByEmail e db) as [user|] eqn:Hf; [|done].
    destruct (falsy (password user)); [done|].
    destruct (comparePassword _ _ _) as [[]|]; try done.
    destruct (negb _); [done|].
    pose proof (save_found_unique user (set_lastLogin now user) salt now db Hu
                  (findByEmail_In _ _ _ Hf) eq_refl) as Hk.
    by destruct (save _ _ _ _ _ _) as [[?|?] db'].
  - intros e salt now. unfold requestPasswordReset.
    destruct e as [e|]; [|done].
    destruct (falsy _); [done|].
    destruct (findByEmail e db) as [user|] eqn:Hf; [|done].
    destruct (falsy (password user)); [done|].
    match goal with
    | |- context [save bcrypt_hash user ?u1 salt now db] =>
        pose proof (save_found_unique user u1 salt now db Hu
                      (findByEmail_In _ _ _ Hf) eq_refl) as Hk;
        destruct (save bcrypt_hash user u1 salt now db) as [[?|?] db']
    end; [|done].
    by destruct (EmailService.sendPasswordResetEmail _ _ _ _).
  - intros t p salt now. unfold resetPassword.
    destruct t as [t|], p as [p|]; try done.
    destruct (_ || _); [done|].
    destruct (_ <? _)%nat; [done|].
    destruct (JWT.valid _); [|done].
    destruct (JWT.payload _) as [decoded|]; [|done].
    destruct (negb _); [done|].
    destruct (findById _ db) as [user|] eqn:Hf; [|done].
    destruct (negb _); [done|].
    destruct (before _ _); [done|].
    apply findById_Some in Hf as [Hin _].
    match goal with
    | |- context [save bcrypt_hash user ?u1 salt now db] =>
        pose proof (save_found_unique user u1 salt now db Hu Hin eq_refl) as Hk;
        destruct (save bcrypt_hash user u1 salt now db) as [[?|?] db']
    end; done.
  - intros u c n salt now Hin. unfold changePassword.
    destruct c as [c|], n as [n|]; try done.
    destruct (_ || _); [done|].
    destruct (_ <? _)%nat; [done|].
    destruct (falsy (password u)); [done|].
    destruct (comparePassword _ _ _) as [[]|]; try done.
    match goal with
    | |- context [save bcrypt_hash u ?u1 salt now db] =>
        pose proof (save_found_unique u u1 salt now db Hu Hin eq_refl) as Hk;
        destruct (save bcrypt_hash u u1 salt now db) as [[?|?] db']
    end; done.
  - intros e o p n oid salt now otps. unfold verifyOTPAndRegister.
    destruct e as [e|], o as [o|], p as [p|]; try done.
    destruct (_ || _); [done|].
    destruct (_ <? _)%nat; [done|].
    destruct (OTP.verifyOTP e o now otps) as [verification otps'].
    destruct (negb _); [done|].
    cbv zeta.
    set (saved := match findByEmail e db with Some _ => _ | None => _ end).
    assert (Hk : ∀ r db', saved = (r, db') → unique_keys db').
    { intros r db'. subst saved.
      destruct (findByEmail e db) as [user|] eqn:Hf.
      - intros Hs. eapply save_unique; [exact Hu | | | exact Hs].
        + by apply findByEmail_In in Hf.
        + by destruct (falsy n).
      - intros Hc. eapply create_unique; [exact Hu | exact Hc]. }
    destruct saved as [[user1|msg] db'] eqn:Hs.
    + specialize (Hk _ _ eq_refl).
      by destruct (EmailMessages.sendWelcomeEmail _ _ _ _).
    + specialize (Hk _ _ eq_refl). by destruct (duplicate_key msg).
  - intros profile oid salt now. unfold findOrCreateGoogleUser.
    destruct (findByGoogleId _ db) as [user|] eqn:Hg.
    + apply save_found_unique; [done| |done].
      by apply findOne_Some in Hg as [? _].
    + destruct (match emails profile with [] => None | e :: _ => _ end)
        as [user|] eqn:He.
      * apply save_found_unique; [done| |done].
        destruct (emails profile) as [|e ?]; [done|].
        by apply findByEmail_In in He.
      * destruct (create _ _ _ _ _ _ _ _ _ _ _) as [r db'] eqn:Hc.
        by apply create_unique in Hc.
Qed.

End Handlers.

End IndexExtras.

(** ** Sessions and the change of a password *)
Module RevocationExtras.
Import Js Jsonwebtoken UserModel Http AuthController Registration.
Import UserFacts SaveFacts TokenFacts PersistenceExtras.

Lemma findById_replaceOne_other uid u (db : Collection) :
  uid ≠ _id u → findById uid (replaceOne u db) = findById uid db.
Proof.
  intros Hne. unfold findById, findOne, replaceOne.
  induction db as [|x db IH]; simpl; [done|].
  destruct (decide (_id x = _id u)) as [Hx|Hx].
  - rewrite (bool_decide_eq_true_2 (_id x = _id u)) by done.
    rewrite (bool_decide_eq_false_2 (_id u = uid)) by congruence.
    rewrite (bool_decide_eq_false_2 (_id x = uid)) by congruence. apply IH.
  - rewrite (bool_decide_eq_false_2 (_id x = _id u)) by done.
    destruct (bool_decide (_id x = uid)); [done|apply IH].
Qed.

Section Controller.
Variable secret : string.
Variable bcrypt_hash : string → string → string.
Variable bcrypt_compare : string → option string → string + bool.

(** A save that keeps the verification flag of the document it loaded
    leaves every accepted token accepted. *)
Lemma save_keeps_sessions orig u salt now (db db' : Collection) r
    authorization now' x token :
  save bcrypt_hash orig u salt now db = (r, db') →
  findById (_id orig) db = Some orig →
  _id u = _id orig → isVerified u = isVerified orig →
  Auth.authenticateToken secret authorization now' db = Next (x, token) →
  ∃ x', Auth.authenticateToken secret authorization now' db' = Next (x', token)
        ∧ _id x' = _id x.
Proof.
  intros Hsave Horig Hid Hver Hauth. destruct r as [u2|msg].
  2: { apply save_Throw in Hsave as ->. by exists x. }
  apply save_Ok_inv in Hsave as (-> & Hid2 & _ & _ & Hver2 & _).
  apply (TokenExtras.authenticateToken_Next_inv secret) in Hauth
    as (-> & claims & -> & Hexp & Ha & Hi & Hfind & _ & Hx & Hxv).
  destruct (decide (userId (payload claims) = _id u2)) as [Heq|Hne].
  - exists u2. split; [|congruence].
    apply IntentClaims.authenticateToken_any_type; try done.
    + rewrite Heq. apply (findById_replaceOne u2 x). by rewrite <- Heq.
    + assert (x = orig) as -> by congruence. congruence.
  - exists x. split; [|done].
    apply IntentClaims.authenticateToken_any_type; try done.
    by rewrite findById_replaceOne_other.
Qed.

(** X22.  Neither [changePassword] nor [resetPassword] revokes a session: a
    request that [authenticateToken] lets through before one of them
    ran (whatever it answered, a success included) is let through at
    the same instant afterwards, with the same token and for the user
    of the same identifier.  For [changePassword] the user attached to
    the request is the one the collection holds under its identifier. *)
Theorem password_change_keeps_sessions authorization now' (db : Collection)
    x token :
  Auth.authenticateToken secret authorization now' db = Next (x, token) →
  (∀ req_user current new salt now,
     findById (_id req_user) db = Some req_user →
     ∃ x', Auth.authenticateToken secret authorization now'
             (changePassword bcrypt_hash bcrypt_compare req_user current new
                salt now db).2 = Next (x', token)
           ∧ _id x' = _id x) ∧
  (∀ reset new salt now,
     ∃ x', Auth.authenticateToken secret authorization now'
             (resetPassword secret bcrypt_hash reset new salt now db).2
             = Next (x', token)
           ∧ _id x' = _id x).
Proof.
  intros Hauth. split.
  - intros req_user c n salt now Hreq. unfold changePassword.
    destruct c as [c|], n as [n|]; try by exists x.
    destruct (_ || _); [by exists x|].
    destruct (_ <? _)%nat; [by exists x|].
    destruct (falsy (password req_user)); [by exists x|].
    destruct (comparePassword _ _ _) as [[]|]; try by exists x.
    match goal with
    | |- context [save bcrypt_hash req_user ?u1 salt now db] =>
        destruct (save bcrypt_hash req_user u1 salt now db) as [r db'] eqn:Hs;
        pose proof (save_keeps_sessions req_user u1 salt now db db' r
                      authorization now' x token Hs Hreq eq_refl eq_refl Hauth)
          as Hk
    end.
    by destruct r.
  - intros t p salt now. unfold resetPassword.
    destruct t as [t|], p as [p|]; try by exists x.
    destruct (_ || _); [by exists x|].
    destruct (_ <? _)%nat; [by exists x|].
    destruct (JWT.valid _); [|by exists x].
    destruct (JWT.payload _) as [decoded|]; [|by exists x].
    destruct (negb _); [by exists x|].
    destruct (findById _ db) as [user|] eqn:Hf; [|by exists x].
    destruct (negb _); [by exists x|].
    destruct (before _ _); [by exists x|].
    assert (Huser : findById (_id user) db = Some user).
    { pose proof (findById_Some _ _ _ Hf) as [_ ->]. done. }
    match goal with
    | |- context [save bcrypt_hash user ?u1 salt now db] =>
        destruct (save bcrypt_hash user u1 salt now db) as [r db'] eqn:Hs;
        pose proof (save_keeps_sessions user u1 salt now db db' r
                      authorization now' x token Hs Huser eq_refl eq_refl Hauth)
          as Hk
    end.
    by destruct r.
Qed.

End Controller.

End RevocationExtras.

(** ** Chat sessions *)
Module ChatExtras.
Import Js Chat.

Lemma map_get_set_same k v (m : Sessions) : map_get k (map_set k v m) = Some v.
Proof.
  unfold map_get, map_set, has_key.
  destruct (existsb _ m) eqn:Hex.
  - induction m as [|[k' v'] m IH]; [discriminate|].
    cbn [map List.find existsb fst] in *.
    destruct (decide (k' = k)) as [->|Hne].
    + rewrite (bool_decide_eq_true_2 (k = k)) by done. cbn [fst].
      by rewrite (bool_decide_eq_true_2 (k = k)).
    + rewrite (bool_decide_eq_false_2 (k' = k)) in Hex |- * by done.
      cbn [fst]. rewrite (bool_decide_eq_false_2 (k' = k)) by done.
      by apply IH.
  - induction m as [|[k' v'] m IH]; cbn [app List.find existsb fst] in *.
    + by rewrite (bool_decide_eq_true_2 (k = k)).
    + apply orb_false_elim in Hex as [Hk Hex]. rewrite Hk. by apply IH.
Qed.

Lemma map_get_set_other k k' v (m : Sessions) :
  k' ≠ k → map_get k' (map_set k v m) = map_get k' m.
Proof.
  intros Hne. unfold map_get, map_set. destruct (has_key k m).
  - f_equal. induction m as [|[k0 v0] m IH]; simpl; [done|].
    destruct (decide (k0 = k)) as [->|Hk0].
    + rewrite (bool_decide_eq_true_2 (k = k)) by done. simpl.
      rewrite (bool_decide_eq_false_2 (k = k')) by done. apply IH.
    + rewrite (bool_decide_eq_false_2 (k0 = k)) by done. simpl.
      destruct (bool_decide (k0 = k')); [done|apply IH].
  - f_equal. induction m as [|[k0 v0] m IH]; simpl.
    + by rewrite (bool_decide_eq_false_2 (k = k')).
    + destruct (bool_decide (k0 = k')); [done|apply IH].
Qed.

Lemma map_get_has_key k (m : Sessions) :
  has_key k m = bool_decide (is_Some (map_get k m)).
Proof.
  unfold has_key, map_get. induction m as [|[k0 v0] m IH]; simpl.
  - done.
  - by destruct (bool_decide (k0 = k)).
Qed.

Lemma keys_map_set_present k v (m : Sessions) :
  has_key k m = true → map fst (map_set k v m) = map fst m.
Proof.
  intros Hk. unfold map_set. rewrite Hk. clear Hk.
  induction m as [|[k0 v0] m IH]; simpl; [done|].
  f_equal; [|done]. by case_bool_decide.
Qed.

(** X23.  [getLastMessages(count)] answers the last [count] messages, in
    their order, for [count >= 1] (all of them when there are fewer);
    for [count = 0] it answers every message of the session and not
    none, since [slice(-0)] is [slice(0)]; and for a negative [count] it
    answers the messages after the first [-count]. *)
Theorem getLastMessages_spec (s : ChatSession) :
  (∀ count, 1 <= count →
     getLastMessages (Some count) s
       = drop (length (messages s) - Z.to_nat count) (messages s) ∧
     length (getLastMessages (Some count) s)
       = Nat.min (Z.to_nat count) (length (messages s))) ∧
  getLastMessages (Some 0) s = messages s ∧
  (∀ count, count < 0 →
     getLastMessages (Some count) s = drop (Z.to_nat (- count)) (messages s)).
Proof.
  unfold getLastMessages, slice. simpl. split; [|split].
  - intros count Hc.
    replace (- count <? 0) with true by lia.
    assert (Hk : Z.to_nat (Z.max (Z.of_nat (length (messages s)) + - count) 0)
                 = (length (messages s) - Z.to_nat count)%nat) by lia.
    rewrite Hk. split; [done|]. rewrite length_drop. lia.
  - change (- 0) with 0. rewrite Z.min_l by lia. done.
  - intros count Hc.
    replace (- count <? 0) with false by lia.
    destruct (Z.le_ge_cases (- count) (Z.of_nat (length (messages s)))) as [H|H].
    + by rewrite Z.min_l.
    + rewrite Z.min_r by lia. rewrite Nat2Z.id.
      rewrite !drop_ge; [done | lia | lia].
Qed.

(** X24.  The session store.  Adding a message to a known session appends it
    to the messages of that session, which is what the store then holds
    under the identifier; the other sessions and the order of the
    entries stay, and the message is the last of the history.  For an
    unknown identifier the call throws and the store is unchanged.
    Creating a session under an identifier that is already taken
    replaces the session held and its messages with an empty one. *)
Theorem session_store_spec sessionId message now (m : Sessions) :
  match getSession sessionId m with
  | Some session =>
      ∃ session',
        addMessageToSession sessionId message now m
          = (Ok session', (addMessageToSession sessionId message now m).2) ∧
        messages session' = messages session ++ [message] ∧
        getLastMessages (Some 1) session' = [message] ∧
        getSession sessionId (addMessageToSession sessionId message now m).2
          = Some session' ∧
        map fst (addMessageToSession sessionId message now m).2 = map fst m
  | None =>
      ∃ msg, addMessageToSession sessionId message now m = (Throw msg, m)
  end ∧
  (∀ other, other ≠ sessionId →
     getSession other (addMessageToSession sessionId message now m).2
       = getSession other m) ∧
  (∀ userId_,
     getSession sessionId (createSession userId_ sessionId now m).2
       = Some (newSession sessionId userId_ now) ∧
     messages (newSession sessionId userId_ now) = []).
Proof.
  split; [|split].
  - destruct (getSession sessionId m) as [session|] eqn:Hget.
    + exists (addMessage message now session).
      unfold addMessageToSession. rewrite Hget. simpl.
      split; [done|]. split; [done|]. split; [|split].
      * unfold getLastMessages, slice. simpl. rewrite length_app. simpl.
        match goal with
        | |- drop ?k _ = _ => replace k with (length (messages session)) by lia
        end.
        by rewrite drop_app_length.
      * apply map_get_set_same.
      * apply keys_map_set_present. rewrite map_get_has_key.
        apply bool_decide_eq_true_2. unfold getSession in Hget. by rewrite Hget.
    + eexists. unfold addMessageToSession. by rewrite Hget.
  - intros other Hne. unfold addMessageToSession.
    destruct (getSession sessionId m); simpl; [|done].
    by apply map_get_set_other.
  - intros userId_. split; [|done]. apply map_get_set_same.
Qed.

End ChatExtras.

(** ** More on the limiter of OTP requests *)
Module RateLimitExtras.
Import Http RateLimit.

(** X25.  A refused request leaves the limiter as it was, so that requests
    made while blocked do not prolong the block; an allowed request
    changes the entry of its client only; and no request ever removes an
    entry: a client that was seen once keeps its entry, and after any
    request the requesting client has one. *)
Theorem rateLimitOTP_refusal_and_growth ip now (st : Store) :
  (allowed (rateLimitOTP ip now st).1 = false →
     (rateLimitOTP ip now st).2 = st) ∧
  (∀ ip', is_Some (st !! ip') → is_Some ((rateLimitOTP ip now st).2 !! ip')) ∧
  is_Some ((rateLimitOTP ip now st).2 !! ip).
Proof.
  assert (Hkeep : ∀ ip', is_Some (st !! ip')
                         → is_Some ((rateLimitOTP ip now st).2 !! ip')).
  { intros ip' Hsome. destruct (decide (ip' = ip)) as [->|Hne].
    - unfold rateLimitOTP. destruct Hsome as [d Hd]. rewrite Hd. simpl.
      destruct (now >? resetTime d); simpl.
      + rewrite lookup_insert_eq. by eexists.
      + destruct (count d >=? 3); simpl; rewrite lookup_insert_eq; by eexists.
    - by rewrite RateLimitFacts.rateLimitOTP_frame. }
  split; [|split; [done|]].
  - unfold rateLimitOTP. destruct (st !! ip) as [d|] eqn:Hd; simpl.
    + destruct (now >? resetTime d); simpl.
      * discriminate.
      * destruct (count d >=? 3); simpl; [|discriminate].
        intros _. by apply insert_id.
    + destruct (now >? now + 60 * 1000); simpl; discriminate.
  - unfold rateLimitOTP. destruct (st !! ip) as [d|] eqn:Hd; simpl.
    + destruct (now >? resetTime d); simpl.
      * rewrite lookup_insert_eq. by eexists.
      * destruct (count d >=? 3); simpl; rewrite lookup_insert_eq; by eexists.
    + destruct (now >? now + 60 * 1000); simpl;
        rewrite lookup_insert_eq; by eexists.
Qed.

End RateLimitExtras.

(** ** The further theorems at concrete inputs *)
Module MoreExamples.
Import Js Jsonwebtoken UserModel Http Samples MoreSamples.

Lemma storeOTP_replaces_witness :
  (OTP.verifyOTP "a@b.com" "000000" 1000 (OTP.storeOTP "a@b.com" "123456" 0 ∅)).1
    ≠ OTP.Verified.
Proof.
  assert (Hne : "000000" ≠ "123456") by discriminate.
  exact (proj1 (proj2 (OTPExtras.storeOTP_replaces "a@b.com" "123456" "000000"
                         0 1000 ∅ Hne))).
Defined.

Lemma verifyOTP_valid_once_witness :
  OTP.verifyOTP "a@b.com" "123456" 2000
    (OTP.verifyOTP "a@b.com" "123456" 1000 issued).2
    = (OTP.NotFound, delete "a@b.com" issued).
Proof.
  assert (Hv : OTP.valid (OTP.verifyOTP "a@b.com" "123456" 1000 issued).1 = true)
    by (vm_compute; reflexivity).
  exact (proj2 (proj2 (OTPExtras.verifyOTP_valid_once "a@b.com" "123456" 1000
                         issued Hv)) "123456" 2000).
Defined.

Lemma otp_operations_frame_witness :
  (OTP.verifyOTP "a@b.com" "000000" 1000 issued).2 !! "c@d.com"
    = issued !! "c@d.com".
Proof.
  assert (Hne : "c@d.com" ≠ "a@b.com") by discriminate.
  exact (proj1 (proj2 (OTPExtras.otp_operations_frame "a@b.com" "c@d.com" "123456"
                         "000000" 1000 issued Hne))).
Defined.

Lemma authenticateToken_accepts_iff_witness :
  ∃ claims, alice_session = Jws secret claims ∧ 6000 / 1000 < exp claims.
Proof.
  assert (Hn : Auth.authenticateToken secret (Some (JWT.Bearer alice_session))
                 6000 users = Next (alice, alice_session))
    by (vm_compute; reflexivity).
  destruct (proj1 (TokenExtras.authenticateToken_accepts_iff secret _ 6000 users
                     alice alice_session) Hn) as (_ & claims & Ht & Hexp & _).
  exists claims. split; [exact Ht | exact Hexp].
Defined.

Lemma guards_after_authentication_witness :
  AuthGuards.requireVerification (Some alice) = Next ().
Proof.
  assert (Hn : Auth.authenticateToken secret (Some (JWT.Bearer alice_session))
                 6000 users = Next (alice, alice_session))
    by (vm_compute; reflexivity).
  exact (proj1 (TokenExtras.guards_after_authentication secret _ 6000 users alice
                  alice_session Hn)).
Defined.

Lemma signin_token_authenticates_witness :
  ∃ d u,
    data (AuthController.signin secret toy_hash toy_compare (Some "dave@x.com")
            (Some "secret1") "salt" 5000 members).1 = Some d ∧
    Auth.authenticateToken secret (Some (JWT.Bearer (Http.token d))) 6000
      (AuthController.signin secret toy_hash toy_compare (Some "dave@x.com")
         (Some "secret1") "salt" 5000 members).2
      = Next (u, Http.token d).
Proof.
  assert (Hs : success (AuthController.signin secret toy_hash toy_compare
                          (Some "dave@x.com") (Some "secret1") "salt" 5000
                          members).1 = true)
    by (vm_compute; reflexivity).
  assert (Ht : 6000 / 1000 < 5000 / 1000 + 604800) by (vm_compute; reflexivity).
  destruct (SessionExtras.signin_token_authenticates secret toy_hash toy_compare
              (Some "dave@x.com") (Some "secret1") "salt" 5000 6000 members
              Hs Ht) as (d & u & Hd & _ & _ & Hauth).
  exists d, u. split; [exact Hd | exact Hauth].
Defined.

Lemma google_login_token_witness :
  findById (_id alice_linked) [alice_linked; bob] = Some alice_linked.
Proof.
  assert (H1 : findOrCreateGoogleUser toy_hash any_address alice_google 3%N
                 "salt" 7000 users = (Ok alice_linked, [alice_linked; bob]))
    by (vm_compute; reflexivity).
  assert (Ht : 8000 / 1000 < 7000 / 1000 + 604800) by (vm_compute; reflexivity).
  exact (proj1 (SessionExtras.google_login_token secret toy_hash any_address
                  alice_google 3%N "salt" 7000 8000 users [alice_linked; bob]
                  alice_linked H1 Ht)).
Defined.

Lemma signup_then_signin_witness :
  success
    (AuthController.signin secret toy_hash toy_compare
       (Some "carol@x.com") (Some "secret1") "salt2" 3000
       (Registration.verifyOTPAndRegister secret toy_hash any_address true mail_ok
          (Some "carol@x.com") (Some (OTP.generateOTP half)) (Some "secret1")
          (Some "Carol") 3%N "salt" 2000 users
          (Registration.sendOTP any_address true mail_ok (Registration.Text "carol@x.com")
             half 1000 users ∅).2).1.2).1 = true.
Proof.
  assert (H1 : "carol@x.com" ≠ "") by discriminate.
  assert (H2 : any_address "carol@x.com" = true) by reflexivity.
  assert (H3 : any_address (email_setters "carol@x.com") = true) by reflexivity.
  assert (H4 : email_setters "carol@x.com" = toLowerCase "carol@x.com")
    by (vm_compute; reflexivity).
  assert (H5 : findByEmail "carol@x.com" users = None)
    by (vm_compute; reflexivity).
  assert (H6 : ∀ x, In x users → _id x ≠ 3%N).
  { intros x [<-|[<-|[]]]; discriminate. }
  assert (H7 : (6 <= String.length "secret1")%nat) by (vm_compute; lia).
  assert (H8 : mail_ok "carol@x.com" = Ok ()) by reflexivity.
  assert (H9 : 2000 <= 1000 + 600000) by lia.
  assert (H10 : toy_hash "secret1" "salt" ≠ "") by discriminate.
  assert (H11 : toy_compare "secret1" (Some (toy_hash "secret1" "salt")) = inr true)
    by (vm_compute; reflexivity).
  exact (proj2 (proj2 (proj2 (proj2
           (FlowExtras.signup_then_signin secret toy_hash toy_compare any_address
              true mail_ok "carol@x.com" "secret1" (Some "Carol") half 3%N
              "salt" "salt2" 1000 2000 3000 users ∅
              H1 H2 H3 H4 H5 H6 H7 eq_refl H8 H9 H10 H11))))).
Defined.


Lemma handlers_keep_unique_keys_witness :
  Indexes.unique_keys
    (findOrCreateGoogleUser toy_hash any_address alice_google 3%N "salt" 7000
       users).2.
Proof.
  assert (Hu : Indexes.unique_keys users).
  { unfold Indexes.unique_keys.
    split; [|split]; apply (bool_decide_unpack _); vm_compute; exact I. }
  exact (proj2 (proj2 (proj2 (proj2 (proj2
           (IndexExtras.handlers_keep_unique_keys secret toy_hash toy_compare
              any_address true mail_ok users Hu)))))
           alice_google 3%N "salt" 7000).
Defined.

Lemma password_change_keeps_sessions_witness :
  ∃ x', Auth.authenticateToken secret (Some (JWT.Bearer alice_session)) 6000
          (AuthController.resetPassword secret toy_hash (Some (reset_token 5000))
             (Some "newpass1") "salt2" 6000 requested).2
        = Next (x', alice_session)
        ∧ _id x' = _id alice_requested.
Proof.
  assert (Hn : Auth.authenticateToken secret (Some (JWT.Bearer alice_session))
                 6000 requested = Next (alice_requested, alice_session))
    by (vm_compute; reflexivity).
  exact (proj2 (RevocationExtras.password_change_keeps_sessions secret toy_hash
                  toy_compare _ 6000 requested alice_requested alice_session Hn)
           (Some (reset_token 5000)) (Some "newpass1") "salt2" 6000).
Defined.

Lemma getRemainingTime_bounds_witness :
  OTP.getRemainingTime "a@b.com" 1500 issued * 1000 <= 600000 - 1500
    < OTP.getRemainingTime "a@b.com" 1500 issued * 1000 + 1000.
Proof.
  assert (Hc : issued !! "a@b.com" = Some (OTP.mkChallenge "123456" 600000 0))
    by (vm_compute; reflexivity).
  assert (Hle : 1500 <= 600000) by lia.
  exact (proj1 (proj2 (proj2 (OTPExtras.getRemainingTime_bounds "a@b.com" "123456"
                                1500 issued)))
           (OTP.mkChallenge "123456" 600000 0) Hc Hle).
Defined.

Lemma hasOTP_agrees_witness :
  OTP.valid (OTP.verifyOTP "a@b.com" "123456" 601000 issued).1 = false.
Proof.
  assert (Hf : (OTP.hasOTP "a@b.com" 601000 issued).1 = false)
    by (vm_compute; reflexivity).
  exact (proj1 (proj2 (proj2 (OTPExtras.hasOTP_agrees "a@b.com" "123456" 601000
                                issued)) Hf)).
Defined.

Lemma cleanup_spec_witness :
  OTP.valid (OTP.verifyOTP "a@b.com" "123456" 2000
               (OTPMaintenance.cleanup 1000 issued).1).1
    = OTP.valid (OTP.verifyOTP "a@b.com" "123456" 2000 issued).1.
Proof.
  assert (Hle : 1000 <= 2000) by lia.
  exact (proj1 (proj2 (proj2 (proj2 (OTPMaintenanceFacts.cleanup_spec 1000 issued))))
           "a@b.com" "123456" 2000 Hle).
Defined.

Lemma generateToken_round_trip_witness :
  ∃ decoded,
    JWT.verifyToken secret (JWT.generateToken secret alice 0) 6000
      = JWT.mkVerification true (Some decoded) None.
Proof.
  assert (Ht : 6000 / 1000 < 0 / 1000 + 604800) by (vm_compute; reflexivity).
  destruct (proj1 (TokenExtras.generateToken_round_trip secret alice 0 6000) Ht)
    as (decoded & Hv & _).
  exists decoded. exact Hv.
Defined.

Lemma isTokenExpired_agrees_witness :
  JWT.valid (JWT.verifyToken secret (JWT.generateToken secret alice 0) 6000)
    = negb (JWTInspect.isTokenExpired (JWT.generateToken secret alice 0) 6000).
Proof.
  assert (H0 : 0 <= 0) by lia.
  assert (Hmax : 0 / 1000 + 604800 <= 8640000000000) by (vm_compute; discriminate).
  exact (proj2 (proj2 (proj2 (TokenExtras.isTokenExpired_agrees secret alice 0 6000)))
           H0 Hmax).
Defined.

Lemma extractTokenFromHeader_round_trip_witness :
  JWT.extractTokenFromHeader (Some (JWT.HeaderText "Basic dXNlcg==")) = None.
Proof.
  assert (Hp : String.prefix "Bearer " "Basic dXNlcg==" = false) by reflexivity.
  exact (proj2 (proj2 (proj2 TokenExtras.extractTokenFromHeader_round_trip))
           "Basic dXNlcg==" Hp).
Defined.

Lemma optionalAuth_agrees_witness :
  AuthGuards.optionalAuth secret (Some (JWT.Bearer alice_session)) 6000 users
    = Some (alice, alice_session).
Proof.
  assert (Hn : Auth.authenticateToken secret (Some (JWT.Bearer alice_session))
                 6000 users = Next (alice, alice_session))
    by (vm_compute; reflexivity).
  exact (proj1 (TokenExtras.optionalAuth_agrees secret _ 6000 users alice
                  alice_session) Hn).
Defined.

Lemma changePassword_spec_witness :
  ∃ u2,
    (Registration.changePassword toy_hash toy_compare dave (Some "secret1")
       (Some "secret2") "salt" 5000 members).2 = replaceOne u2 members ∧
    password u2 = Some (toy_hash "secret2" "salt").
Proof.
  assert (Hs : success (Registration.changePassword toy_hash toy_compare dave
                          (Some "secret1") (Some "secret2") "salt" 5000
                          members).1 = true)
    by (vm_compute; reflexivity).
  pose proof (SessionExtras.changePassword_spec toy_hash toy_compare dave
                (Some "secret1") (Some "secret2") "salt" 5000 members) as H.
  cbv zeta in H. destruct H as (_ & _ & H).
  destruct (H Hs) as (cur & new & u2 & _ & Hnew & _ & _ & _ & Hdb & _ & Hpw & _).
  injection Hnew as <-.
  exists u2. split; [exact Hdb|]. exact Hpw.
Defined.

Lemma sendOTP_spec_witness :
  OTP.getRemainingTime "carol@x.com" 1000
    (Registration.sendOTP any_address true mail_ok (Registration.Text "carol@x.com") half
       1000 users ∅).2 = 600.
Proof.
  assert (Hs : Registration.otp_success
                 (Registration.sendOTP any_address true mail_ok
                    (Registration.Text "carol@x.com") half 1000 users ∅).1 = true)
    by (vm_compute; reflexivity).
  pose proof (RegistrationExtras.sendOTP_spec any_address true mail_ok
                (Registration.Text "carol@x.com") half 1000 users ∅) as H.
  cbv zeta in H. destruct H as (_ & _ & _ & H & _).
  destruct (H Hs) as (e & He & _ & Hrem).
  injection He as <-. exact Hrem.
Defined.

Lemma verifyOTPAndRegister_spec_witness :
  ∃ u,
    findById (_id u)
      (Registration.verifyOTPAndRegister secret toy_hash any_address true mail_ok
         (Some "carol@x.com") (Some (OTP.generateOTP half)) (Some "secret1")
         (Some "Carol") 3%N "salt" 2000 users
         (OTP.storeOTP "carol@x.com" (OTP.generateOTP half) 1000 ∅)).1.2
      = Some u ∧
    isVerified u = true.
Proof.
  assert (Hs : success
                 (Registration.verifyOTPAndRegister secret toy_hash any_address
                    true mail_ok (Some "carol@x.com")
                    (Some (OTP.generateOTP half)) (Some "secret1")
                    (Some "Carol") 3%N "salt" 2000 users
                    (OTP.storeOTP "carol@x.com" (OTP.generateOTP half) 1000 ∅)
                 ).1.1 = true)
    by (vm_compute; reflexivity).
  pose proof (RegistrationExtras.verifyOTPAndRegister_spec secret toy_hash
                any_address true mail_ok (Some "carol@x.com")
                (Some (OTP.generateOTP half)) (Some "secret1") (Some "Carol")
                3%N "salt" 2000 users
                (OTP.storeOTP "carol@x.com" (OTP.generateOTP half) 1000 ∅)) as H.
  cbv zeta in H. destruct H as (_ & _ & H & _).
  destruct (H Hs) as (e & code & u & d & _ & _ & _ & _ & _ & _ & _ & Hver & _
                      & Hfind & _).
  exists u. split; [exact Hfind | exact Hver].
Defined.

Lemma getLastMessages_spec_witness :
  length (Chat.getLastMessages (Some 2) chatty) = 2%nat.
Proof.
  assert (Hc : 1 <= 2) by lia.
  exact (proj2 (proj1 (ChatExtras.getLastMessages_spec chatty) 2 Hc)).
Defined.

Lemma session_store_spec_witness :
  Chat.getSession "session_9_other"
    (Chat.addMessageToSession "session_5_abc" hello 10 one_session).2
    = Chat.getSession "session_9_other" one_session.
Proof.
  assert (Hne : "session_9_other" ≠ "session_5_abc") by discriminate.
  exact (proj1 (proj2 (ChatExtras.session_store_spec "session_5_abc" hello 10
                         one_session)) "session_9_other" Hne).
Defined.

Lemma rateLimitOTP_refusal_and_growth_witness :
  (RateLimit.rateLimitOTP "10.0.0.1" 30 blocked).2 = blocked.
Proof.
  assert (Hr : RateLimit.allowed (RateLimit.rateLimitOTP "10.0.0.1" 30 blocked).1
               = false)
    by (vm_compute; reflexivity).
  exact (proj1 (RateLimitExtras.rateLimitOTP_refusal_and_growth "10.0.0.1" 30
                  blocked) Hr).
Defined.

End MoreExamples.
